(** * MNIST experiment drivers: a shallow embedding and its properties

    The two drivers of the repository,
    [experiments/mnist/logreg_locally_connected.py] (module [LogReg]) and
    [scripts/mnist/diehl_and_cook_2015.py] (module [DiehlCook]), are
    orchestration code around a spiking-network simulator, a dataset
    loader and a classifier.  The orchestration is embedded statement by
    statement in a small trace-and-exception monad; everything the drivers
    import (BindsNET, scikit-learn, torch numerics, the file system) is an
    operation of the interface [Env]. *)

From Stdlib Require Import ZArith List Lia String Ascii Bool QArith Qround.
From stdpp Require Import base list strings pretty.

Open Scope Z_scope.

(** ** Python values and primitives *)

Module Py.

(** Exceptions the drivers can raise themselves. *)
Inductive exn :=
| AssertionError (msg : string)
| ZeroDivisionError
| IndexError
| ValueError
| RuntimeError
| KeyError (key : string)
| AttributeError (name : string)
| NameError (var : string)
| UnboundLocalError (var : string)
| StopIteration
| FileNotFoundError (path : string).

(** The result of running a statement: a value, an exception, or the
    fuel of a [while] loop of the model running out. *)
Inductive result (A : Type) :=
| Ok (a : A)
| Raise (e : exn)
| Timeout.
Arguments Ok {A} a.
Arguments Raise {A} e.
Arguments Timeout {A}.

(** [a % b] on Python integers: floored, sign of the divisor. *)
Definition mod_ (a b : Z) : result Z :=
  if b =? 0 then Raise ZeroDivisionError else Ok (a mod b).

(** Index adjustment of a slice bound (step 1): a negative bound counts
    from the end, and every bound is clamped to [0, len]. *)
Definition adjust (len i : Z) : Z :=
  if i <? 0 then Z.max 0 (i + len) else Z.min i len.

(** [l[start:stop]]; [None] is an omitted bound. Slicing never raises. *)
Definition slice {A} (l : list A) (start stop : option Z) : list A :=
  let len := Z.of_nat (length l) in
  let a := from_option (adjust len) 0 start in
  let b := from_option (adjust len) len stop in
  take (Z.to_nat (b - a)) (drop (Z.to_nat a) l).

(** Position of a subscript [l[i]], negative subscripts counting from the
    end; [None] when Python raises [IndexError]. *)
Definition index (len i : Z) : option nat :=
  let j := if i <? 0 then i + len else i in
  if (0 <=? j) && (j <? len) then Some (Z.to_nat j) else None.

Definition getitem {A} (l : list A) (i : Z) : result A :=
  match index (Z.of_nat (length l)) i with
  | Some k => match l !! k with Some x => Ok x | None => Raise IndexError end
  | None => Raise IndexError
  end.

Definition setitem {A} (l : list A) (i : Z) (x : A) : result (list A) :=
  match index (Z.of_nat (length l)) i with
  | Some k => Ok (<[k:=x]> l)
  | None => Raise IndexError
  end.

(** [range(n)]. *)
Definition range (n : Z) : list Z := seqZ 0 n.

(** [torch.cat([a, b])] on one-dimensional tensors. *)
Definition cat {A} (a b : list A) : list A := a ++ b.

(** [sep.join(l)]. *)
Definition join (sep : string) (l : list string) : string := String.concat sep l.

(** [os.path.join(a, b)] for a relative [b]. *)
Definition path_join (a b : string) : string := a +:+ "/" +:+ b.

End Py.

Import Py.

(** ** Events of a run *)

(** Carriers of the data the drivers only pass around. *)
Class Carriers := {
  Float : Type;      (* Python floats of the configuration *)
  Acc : Type;        (* accuracy values: floats or zero-dimensional tensors *)
  Weights : Type;    (* connection weights *)
  Hidden : Type;     (* the rest of a network: voltages, traces, monitors, RNG *)
  Thresh : Type;     (* per-neuron thresholds *)
  Spikes : Type;     (* spikes of one example, time x neurons *)
  Row : Type;        (* spike counts of one example, per neuron *)
  Model : Type;      (* logistic regression: coefficients and intercept *)
  Assign : Type;     (* assignments, proportions and rates *)
}.

Inductive split := TrainSplit | TestSplit.

(** An image: rows of pixel intensities. *)
Definition image := list (list Q).

(** What a run does to the outside world, in order. *)
Inductive event `{Carriers} :=
| EvSeed (seed : Z)                      (* np.random.seed / torch.manual_seed *)
| EvBuildNetwork                         (* a fresh network is constructed *)
| EvLoadNetwork (path : string)          (* load_network(path) *)
| EvLoadData (s : split)                 (* MNIST(...).get_train() / get_test() *)
| EvLoadAux (path : string)              (* classifier state read from disk *)
| EvRun (i : Z) (datum : list Q)         (* network.run on the encoding of datum, example i *)
| EvRecord (slot : Z) (i : Z) (s : Spikes) (* spike_record[slot] = s, the spikes of example i *)
| EvEvaluate (i : Z)                     (* accuracies computed and appended at index i *)
| EvSaveCurves (path : string)
| EvSaveNetwork (path : string)
| EvSaveAux (path : string)
| EvRefit (i : Z)                        (* classifier refit / labels reassigned *)
| EvCsv (name : string) (row : string)
| EvSaveConfusion (path : string).

Definition trace `{Carriers} := list event.

(** ** The monad of the drivers: an event trace and exceptions *)

Definition M `{Carriers} (A : Type) : Type := trace → trace * result A.

#[global] Instance M_ret `{Carriers} : MRet M := λ A a t, (t, Ok a).

#[global] Instance M_bind `{Carriers} : MBind M := λ A B f m t,
  match m t with
  | (t', Ok a) => f a t'
  | (t', Raise e) => (t', Raise e)
  | (t', Timeout) => (t', Timeout)
  end.

Section Monad.
Context `{Carriers}.

Definition lift {A} (r : result A) : M A := λ t, (t, r).
Definition raise {A} (e : exn) : M A := lift (Raise e).
Definition emit (e : event) : M unit := λ t, (t ++ [e], Ok tt).

(** [assert cond, msg]. *)
Definition assert_ (cond : bool) (msg : string) : M unit :=
if cond then mret tt else raise (AssertionError msg).

(** Reading a local or global variable that may not have been bound. *)
Definition read {A} (e : exn) (v : option A) : M A :=
match v with Some a => mret a | None => raise e end.

(** [for i in l: s = body(i, s)]. *)
Fixpoint for_each {S} (body : Z → S → M S) (l : list Z) (s : S) : M S :=
match l with
| [] => mret s
| i :: l' => s' ← body i s; for_each body l' s'
end.

(** [while cond(s): s = body(s)], with fuel. *)
Fixpoint while_ {S} (fuel : nat) (cond : S → bool) (body : S → M S) (s : S) : M S :=
if cond s then
  match fuel with
  | O => lift Timeout
  | S fuel' => s' ← body s; while_ fuel' cond body s'
  end
else mret s.

(** [[f(x) for x in l]] where [f] may raise. *)
Fixpoint for_list {A B} (f : A → M B) (l : list A) : M (list B) :=
match l with
| [] => mret []
| x :: l' => y ← f x; ys ← for_list f l'; mret (y :: ys)
end.

End Monad.

(** ** The imported libraries *)

Inductive rule := PostPre | NoOp | NoRule.

(** A Python number of the configuration. *)
Inductive pynum `{Carriers} := PyInt (z : Z) | PyFloat (f : Float).

(** [kernel_size] and [stride]: an integer, a list or a tuple of integers. *)
Inductive pyseq := SInt (z : Z) | SList (l : list Z) | STuple (l : list Z).

Inductive pyval `{Carriers} := VNum (x : pynum) | VSeq (s : pyseq).

(** The layer whose thresholds adapt. *)
Inductive nodes `{Carriers} :=
| DiehlAndCookNodes (n : Z) (thresh theta : Thresh) (theta_plus theta_decay : pynum)
| LIFNodes (n : Z) (thresh : Thresh).

(** The locally connected network: the rule of connection [('X', 'Y')],
    the adaptation constants of layer ['Y'], the weights, and the rest. *)
Record lc_network `{Carriers} := LcNetwork {
  lc_update_rule : rule;
  lc_theta_plus : pynum;
  lc_theta_decay : pynum;
  lc_w : Weights;
  lc_hidden : Hidden;
}.

(** The Diehl and Cook network: the rule of connection [('X', 'Ae')],
    layer ['Ae'], the weights, and the rest. *)
Record dc_network `{Carriers} := DcNetwork {
  dc_update_rule : rule;
  dc_Ae : nodes;
  dc_w : Weights;
  dc_hidden : Hidden;
}.

Class Env `{Carriers} := {
  (* numbers *)
  float_str : Float → string;                 (* str(x) *)
  float_val : Float → Q;
  acc_int : Z → Acc;                          (* a Python int as an accuracy *)
  acc_gt : Acc → Acc → bool;                  (* x > y *)
  thresh_add : Thresh → Thresh → Thresh;
  (* experiments.ROOT_DIR *)
  root_dir : string;
  (* bindsnet.datasets.MNIST *)
  mnist : split → list image * list Z;
  (* bindsnet.network.load_network(path): the network, [None] when the
     library reports the missing file and returns nothing, or the exception
     it raises *)
  load_lc_network : string → result (option lc_network);
  load_dc_network : string → result (option dc_network);
  (* the file system, read side: torch.load(open(path, 'rb')) and
     pickle.load(open(path, 'rb')) *)
  disk_model : string → option Model;
  disk_assign : string → option Assign;
  (* LocallyConnectedNetwork(...), encoding with bernoulli, network.run,
     the spike monitor of layer 'Y', network.reset_() *)
  lc_construct : Z → pyseq → pyseq → Z → pynum → pynum → pynum → pynum → pynum → pynum → lc_network;
  lc_run : lc_network → list Q → Z → lc_network;
  lc_spikes : lc_network → Spikes;
  lc_reset : lc_network → lc_network;
  lc_conv_prod : lc_network → Z;              (* int(np.prod(conv_size)) *)
  (* DiehlAndCook2015(...), encoding with poisson, network.run, the spike
     monitor of layer 'Ae', network._reset() *)
  dc_construct : Z → pynum → pynum → pynum → dc_network;
  dc_run : dc_network → list Q → Z → dc_network;
  dc_spikes : dc_network → Spikes;
  dc_reset : dc_network → dc_network;
  (* tensors *)
  spikes_zero : Spikes;                       (* one slice of torch.zeros *)
  row_zero : Row;
  spikes_sum : Spikes → Z;                    (* .sum() *)
  spikes_sum0 : Spikes → Row;                 (* .sum(0) *)
  (* logistic regression *)
  logreg_init : Model;
  logreg_fit : list Row → list Z → Model → Model;
  logreg_predict : list Row → Model → list Z;
  accuracy : list Z → list Z → Acc;           (* percentage of equal entries *)
  (* labelling by firing rates *)
  assign_init : Z → Assign;
  assign_labels : list Spikes → list Z → Assign → Assign;
  all_activity : list Spikes → Assign → list Z;
  proportion_weighting : list Spikes → Assign → list Z;
  percent : list Z → list Z → Z → Acc;        (* 100 * sum(labels == pred) / n *)
  (* numpy summaries, printed *)
  mean_str : list Acc → string;               (* str(np.mean(x)) *)
  std_str : list Acc → string;                (* str(np.std(x)) *)
  max_str : list Acc → string;                (* str(np.max(x)) *)
}.

(** [>] on accuracies is a strict weak order (it is on numbers that are
    not NaN). *)
Class AccOrder `{Env} : Prop := {
  acc_gt_irrefl x : acc_gt x x = false;
  acc_gt_trans x y z : acc_gt x y = true → acc_gt y z = true → acc_gt x z = true;
  acc_gt_cotrans x y z : acc_gt x z = true → acc_gt x y = true ∨ acc_gt y z = true;
}.

(** ** Helpers shared by the two drivers *)

Section Common.
Context `{Env}.

Definition seq_str (sep : string) (l : list Z) : string := Py.join sep (pretty <$> l).

(** [str(x)]. *)
Definition num_str (x : pynum) : string :=
  match x with PyInt z => pretty z | PyFloat f => float_str f end.

Definition pyseq_str (s : pyseq) : string :=
  match s with
  | SInt z => pretty z
  | SList l => "[" +:+ seq_str ", " l +:+ "]"
  | STuple [z] => "(" +:+ pretty z +:+ ",)"
  | STuple l => "(" +:+ seq_str ", " l +:+ ")"
  end.

Definition str (v : pyval) : string :=
  match v with VNum x => num_str x | VSeq s => pyseq_str s end.

Definition num_val (x : pynum) : Q :=
  match x with PyInt z => inject_Z z | PyFloat f => float_val f end.

(** [np.random.seed(seed)], which wants [0 <= seed < 2**32], and then the
    seeding of torch. *)
Definition seed_all (seed : Z) : M unit :=
  if (0 <=? seed) && (seed <? 2 ^ 32) then emit (EvSeed seed) else raise ValueError.

(** [torch.zeros] of the sizes [dims], one entry per index of the first
    dimension; a negative size is a [RuntimeError]. *)
Definition zeros {A} (dims : list Z) (zero : A) : M (list A) :=
  if existsb (λ d, d <? 0) dims then raise RuntimeError
  else mret (replicate (Z.to_nat (default 0 (head dims))) zero).

(** [x[-1] for x in curves.values()]. *)
Definition lasts (curves : list (string * list Acc)) : M (list Acc) :=
  for_list (λ kv, lift (Py.getitem kv.2 (-1))) curves.

(** [max(l)]: the first of the largest entries. *)
Definition max_ (l : list Acc) : M Acc :=
  match l with
  | [] => raise ValueError
  | x :: l' => mret (fold_left (λ m y, if acc_gt y m then y else m) l' x)
  end.

(** [any([x > best for x in l])]. *)
Definition any_gt (l : list Acc) (best : Acc) : bool :=
  existsb (λ x, acc_gt x best) l.

(** [d[key]] on a dictionary kept as an association list. *)
Definition lookup_key {A} (key : string) (d : list (string * A)) : M A :=
  read (KeyError key) (snd <$> head (filter (λ kv, String.eqb kv.1 key) d)).

(** [images *= intensity]. *)
Definition scale_image (k : Q) (im : image) : image := map (map (Qmult k)) im.

(** [image *= 2] on a flattened image. *)
Definition double (im : list Q) : list Q := map (Qmult 2) im.

(** [image.view(-1)]. *)
Definition flatten (im : image) : list Q := concat im.

End Common.

(** ** experiments/mnist/logreg_locally_connected.py *)

Module LogReg.
Section Driver.
Context `{Env}.

(** The arguments of [main]. *)
Record config := Config {
  seed : Z; n_train : Z; n_test : Z; inhib : pynum;
  kernel_size : pyseq; stride : pyseq; time : Z; n_filters : Z; crop : Z;
  lr : pynum; lr_decay : pynum; dt : pynum;
  theta_plus : pynum; theta_decay : pynum; intensity : pynum; norm : pynum;
  progress_interval : Z; update_interval : Z;
  train : bool; plot : bool; gpu : bool;
}.

Definition model : string := "logreg_locally_connected".
Definition data : string := "mnist".

Definition artifact_dir (kind : string) : string :=
  path_join (path_join (path_join root_dir kind) data) model.

Definition params_path : string := artifact_dir "params".
Definition curves_path : string := artifact_dir "curves".
Definition results_path : string := artifact_dir "results".
Definition confusion_path : string := artifact_dir "confusion".

Definition int (z : Z) : pyval := VNum (PyInt z).

(* lines 47-50 *)
Definition params (c : config) : list pyval :=
  [ int (seed c); VSeq (kernel_size c); VSeq (stride c); int (n_filters c);
    int (crop c); VNum (lr c); VNum (lr_decay c); int (n_train c);
    VNum (inhib c); int (time c); VNum (dt c); VNum (theta_plus c);
    VNum (theta_decay c); VNum (intensity c); VNum (norm c);
    int (progress_interval c); int (update_interval c) ].

(* line 52 *)
Definition model_name (c : config) : string := Py.join "_" (str <$> params c).

(* lines 55-58 *)
Definition test_params (c : config) : list pyval :=
  [ int (seed c); VSeq (kernel_size c); VSeq (stride c); int (n_filters c);
    int (crop c); VNum (lr c); VNum (lr_decay c); int (n_train c); int (n_test c);
    VNum (inhib c); int (time c); VNum (dt c); VNum (theta_plus c);
    VNum (theta_decay c); VNum (intensity c); VNum (norm c);
    int (progress_interval c); int (update_interval c) ].

(** The files of a run. *)
Definition network_file (c : config) : string :=
  path_join params_path (model_name c +:+ ".pt").
Definition auxiliary_file (c : config) : string :=
  path_join params_path (Py.join "_" ["auxiliary"; model_name c] +:+ ".pt").
Definition mode (c : config) : string := if train c then "train" else "test".
Definition curves_file (c : config) : string :=
  path_join curves_path (Py.join "_" (mode c :: (str <$> params c)) +:+ ".pt").
Definition confusion_file (c : config) : string :=
  path_join confusion_path
    (Py.join "_" (mode c :: (str <$> (if train c then params c else test_params c))) +:+ ".pt").
Definition results_file (c : config) : string :=
  path_join results_path (mode c +:+ ".csv").

(* line 70 *)
Definition n_examples (c : config) : Z := if train c then n_train c else n_test c.

(* line 44 *)
Definition check_divisible (c : config) : M unit :=
  r1 ← lift (Py.mod_ (n_train c) (update_interval c));
  ok ← (if r1 =? 0
        then r2 ← lift (Py.mod_ (n_test c) (update_interval c)); mret (r2 =? 0)
        else mret false);
  assert_ ok "No. examples must be divisible by update_interval".

(* lines 83-87: the loaded network in test mode *)
Definition freeze (net : lc_network) : lc_network :=
  {| lc_update_rule := NoOp;
     lc_theta_decay := PyInt 0;
     lc_theta_plus := PyInt 0;
     lc_w := lc_w net;
     lc_hidden := lc_hidden net |}.

(* lines 68-87 *)
Definition provision (c : config) : M lc_network :=
  let side_length := 28 - crop c * 2 in
  let n_inpt := side_length ^ 2 in
  if train c then
    emit EvBuildNetwork;;
    mret (lc_construct n_inpt (kernel_size c) (stride c) (n_filters c) (inhib c)
            (dt c) (lr c) (theta_plus c) (theta_decay c) (norm c))
  else
    emit (EvLoadNetwork (network_file c));;
    loaded ← lift (load_lc_network (network_file c));
    net ← read (AttributeError "connections") loaded;
    mret (freeze net).

(* line 107: images[:, crop:-crop, crop:-crop] *)
Definition crop_image (k : Z) (im : image) : image :=
  (λ row, Py.slice row (Some k) (Some (- k))) <$> Py.slice im (Some k) (Some (- k)).

(* lines 99-107 *)
Definition load_data (c : config) : M (list image * list Z) :=
  let s := if train c then TrainSplit else TestSplit in
  emit (EvLoadData s);;
  let '(images, labels) := mnist s in
  mret (crop_image (crop c) <$> (scale_image (num_val (intensity c)) <$> images), labels).

(* lines 114-129 *)
Definition load_classifier (c : config) : M Model :=
  if train c then mret logreg_init
  else
    emit (EvLoadAux (auxiliary_file c));;
    read (FileNotFoundError (auxiliary_file c)) (disk_model (auxiliary_file c)).

(** The variables of [main] that change as the run proceeds. *)
Record state := State {
  network : lc_network;
  logreg_model : Model;
  spike_record : list Spikes;
  full_spike_record : list Row;
  curves : list (string * list Acc);
  predictions : list (string * list Z);
  best_accuracy : option Acc;          (* bound in training mode only *)
  var_i : option Z;                    (* the loop variable *)
}.

Definition len {A} (l : list A) : Z := Z.of_nat (length l).

(* lines 163-168 and 245-250 *)
Definition current_interval {A} (c : config) (labels : list Z) (record : list A) (i : Z)
  : M (list Z * list A) :=
  r ← lift (Py.mod_ i (len labels));
  if r =? 0 then
    mret (Py.slice labels (Some (- update_interval c)) None,
          Py.slice record (Some (- update_interval c)) None)
  else
    mret (Py.slice labels (Some (r - update_interval c)) (Some r),
          Py.slice record (Some (r - update_interval c)) (Some r)).

(** Modelled from the spec: [experiments.utils.update_curves], which is
    not under src/.  For every scheme of [curves] it predicts the labels of
    the given spike records, appends the accuracy of the prediction against
    the given labels to the scheme's curve, and returns the predictions. *)
Definition update_curves (cs : list (string * list Acc)) (labels : list Z)
    (record : list Row) (m : Model)
  : list (string * list Acc) * list (string * list Z) :=
  let prediction := logreg_predict record m in
  ((λ kv, (kv.1, kv.2 ++ [accuracy labels prediction])) <$> cs,
   (λ kv, (kv.1, prediction)) <$> cs).

(* lines 176-177 and 258-259 *)
Definition cat_predictions (ps preds : list (string * list Z)) : list (string * list Z) :=
  zip_with (λ p q, (p.1, Py.cat p.2 q.2)) ps preds.

(* lines 184-194 *)
Definition checkpoint (c : config) (s : state) : M state :=
  xs ← lasts (curves s);
  best ← read (UnboundLocalError "best_accuracy") (best_accuracy s);
  if any_gt xs best then
    emit (EvSaveNetwork (network_file c));;
    emit (EvSaveAux (auxiliary_file c));;
    m ← max_ xs;
    mret (State (network s) (logreg_model s) (spike_record s) (full_spike_record s)
            (curves s) (predictions s) (Some m) (var_i s))
  else mret s.

(* lines 163-199 *)
Definition evaluate (c : config) (labels : list Z) (i : Z) (s : state) : M state :=
  '(current_labels, current_record) ← current_interval c labels (full_spike_record s) i;
  let '(curves', preds) := update_curves (curves s) current_labels current_record (logreg_model s) in
  emit (EvEvaluate i);;
  let s1 := State (network s) (logreg_model s) (spike_record s) (full_spike_record s)
              curves' (cat_predictions (predictions s) preds) (best_accuracy s) (var_i s) in
  emit (EvSaveCurves (curves_file c));;
  if train c then
    s2 ← checkpoint c s1;
    emit (EvRefit i);;
    mret (State (network s2)
            (logreg_fit (Py.slice (full_spike_record s2) None (Some i))
                        (Py.slice labels None (Some i)) (logreg_model s2))
            (spike_record s2) (full_spike_record s2) (curves s2) (predictions s2)
            (best_accuracy s2) (var_i s2))
  else mret s1.

(** The variables of the retry loop: [retries], [image] and the network. *)
Definition retry_state : Type := Z * list Q * lc_network.

(* line 210 *)
Definition retry_cond : retry_state → bool :=
  λ '(retries, _, net), (spikes_sum (lc_spikes net) <? 5) && (retries <? 3).

(* lines 211-215 *)
Definition retry_body (c : config) (i : Z) : retry_state → M retry_state :=
  λ '(retries, image, net),
    let retries := retries + 1 in
    let image := double image in
    emit (EvRun i image);;
    mret (retries, image, lc_run net image (time c)).

(* lines 202-215.  [images[k]] is a strided view of the cropped tensor,
   so [.contiguous()] copies it and [image *= 2] leaves [images] alone. *)
Definition present (fuel : nat) (c : config) (images : list image) (i : Z) (net : lc_network)
  : M retry_state :=
  k ← lift (Py.mod_ i (len images));
  im ← lift (Py.getitem images k);
  let image := flatten im in
  emit (EvRun i image);;
  while_ fuel retry_cond (retry_body c i) (0, image, lc_run net image (time c)).

(* lines 217-239 *)
Definition record_spikes (c : config) (i : Z) (s : state) (net : lc_network) : M state :=
  slot ← lift (Py.mod_ i (update_interval c));
  spike_record' ← lift (Py.setitem (spike_record s) slot (lc_spikes net));
  emit (EvRecord slot i (lc_spikes net));;
  full' ← lift (Py.setitem (full_spike_record s) i (spikes_sum0 (lc_spikes net)));
  mret (State (lc_reset net) (logreg_model s) spike_record' full'
          (curves s) (predictions s) (best_accuracy s) (Some i)).

(* lines 158-239 *)
Definition step (fuel : nat) (c : config) (images : list image) (labels : list Z)
    (i : Z) (s : state) : M state :=
  _ ← lift (Py.mod_ i (progress_interval c));
  r ← lift (Py.mod_ i (update_interval c));
  s ← (if (r =? 0) && (0 <? i) then evaluate c labels i s else mret s);
  '(_, _, net) ← present fuel c images i (network s);
  record_spikes c i s net.

(* lines 89-92 and 110-111 *)
Definition buffers (c : config) (net : lc_network) : M (list Spikes * list Row) :=
  let n_neurons := n_filters c * lc_conv_prod net in
  spike_record ← zeros [update_interval c; time c; n_neurons] spikes_zero;
  full_spike_record ← zeros [n_examples c; n_neurons] row_zero;
  mret (spike_record, full_spike_record).

(* lines 131-138 *)
Definition init (c : config) (net : lc_network) (m : Model)
    (spike_record : list Spikes) (full_spike_record : list Row) : state :=
  State net m spike_record full_spike_record
    [("logreg", [])] [("logreg", [])]
    (if train c then Some (acc_int 0) else None) None.

(** The loop of line 157 over the first [k] examples. *)
Definition loop (fuel : nat) (c : config) (images : list image) (labels : list Z)
    (k : Z) (s : state) : M state :=
  for_each (step fuel c images labels) (Py.range k) s.

(* lines 243-270 *)
Definition final_flush (c : config) (labels : list Z) (s : state) : M state :=
  i ← read (UnboundLocalError "i") (var_i s);
  let i := i + 1 in
  '(current_labels, current_record) ← current_interval c labels (full_spike_record s) i;
  let '(curves', preds) := update_curves (curves s) current_labels current_record (logreg_model s) in
  emit (EvEvaluate i);;
  let s1 := State (network s) (logreg_model s) (spike_record s) (full_spike_record s)
              curves' (cat_predictions (predictions s) preds) (best_accuracy s) (Some i) in
  (if train c then
     xs ← lasts (curves s1);
     best ← read (UnboundLocalError "best_accuracy") (best_accuracy s1);
     if any_gt xs best then
       emit (EvSaveNetwork (network_file c));;
       emit (EvSaveAux (auxiliary_file c))
     else mret tt
   else mret tt);;
  mret s1.

(* lines 316-323 *)
Definition extend_body (n : Z) (labels : list Z) : M (list Z) :=
  if 2 * len labels >? n
  then mret (Py.cat labels (Py.slice labels None (Some (n - len labels))))
  else mret (Py.cat labels labels).

Definition adjust_labels (fuel : nat) (n : Z) (labels : list Z) : M (list Z) :=
  if len labels >? n then mret (Py.slice labels None (Some n))
  else while_ fuel (λ l, len l <? n) (extend_body n) labels.

(* lines 288-314 *)
Definition report (c : config) (s : state) : M unit :=
  logreg ← lookup_key "logreg" (curves s);
  let results := [mean_str logreg; std_str logreg] in
  let to_write := (str <$> (if train c then params c else test_params c)) ++ results in
  emit (EvCsv (results_file c) (Py.join "," to_write)).

(* lines 44-156 *)
Definition setup (c : config) : M (list image * list Z * state) :=
  check_divisible c;;
  seed_all (seed c);;
  net ← provision c;
  '(images, labels) ← load_data c;
  '(spike_record, full_spike_record) ← buffers c net;
  m ← load_classifier c;
  mret (images, labels, init c net m spike_record full_spike_record).

(** The run up to the end of the [k]-th iteration of the loop. *)
Definition examples (fuel : nat) (c : config) (k : Z) : M (list image * list Z * state) :=
  '(images, labels, s) ← setup c;
  s ← loop fuel c images labels k s;
  mret (images, labels, s).

(* lines 326-328: [confusion_matrix(labels, predictions[scheme])] wants as
   many predictions as labels *)
Definition confusions (labels : list Z) (predictions : list (string * list Z)) : M unit :=
  for_list (λ kv : string * list Z,
              if len labels =? len kv.2 then mret tt else raise ValueError) predictions;;
  mret tt.

(** [main] up to the adjustment of the labels (lines 44-323). *)
Definition before_confusion (fuel : nat) (c : config) : M (state * list Z) :=
  '(images, labels, s) ← examples fuel c (n_examples c);
  s ← final_flush c labels s;
  (if train c then emit (EvSaveCurves (curves_file c)) else mret tt);;
  report c s;;
  labels ← adjust_labels fuel (n_examples c) labels;
  mret (s, labels).

(** [main], with the fuel of its two [while] loops. *)
Definition main (fuel : nat) (c : config) : M (state * list Z) :=
  '(s, labels) ← before_confusion fuel c;
  confusions labels (predictions s);;
  emit (EvSaveConfusion (confusion_file c));;
  mret (s, labels).

End Driver.
End LogReg.

(** ** scripts/mnist/diehl_and_cook_2015.py *)

Module DiehlCook.
Section Driver.
Context `{Env}.

(** The command-line arguments. *)
Record config := Config {
  seed : Z; n_neurons : Z; n_train : Z; n_test : Z;
  excite : pynum; inhib : pynum; time : Z; dt : pynum; intensity : pynum;
  progress_interval : Z; update_interval : Z;
  train : bool; plot : bool; gpu : bool;
}.

Definition int (z : Z) : pyval := VNum (PyInt z).

(* lines 34-36 *)
Definition params (c : config) : list pyval :=
  [ int (seed c); int (n_neurons c); int (n_train c); int (n_test c);
    VNum (excite c); VNum (inhib c); int (time c); VNum (dt c); VNum (intensity c);
    int (progress_interval c); int (update_interval c) ].

(* line 38 *)
Definition model_name (c : config) : string := Py.join "_" (str <$> params c).

Definition params_path : string :=
  path_join (path_join (path_join ".." "..") "params") "diehl_and_cook_2015_mnist".
Definition results_path : string :=
  path_join (path_join (path_join ".." "..") "results") "diehl_and_cook_2015_mnist".

(** The files of a run. *)
Definition network_file (c : config) : string := path_join params_path (model_name c).
Definition auxiliary_file : string := path_join params_path "auxiliary.p".
Definition results_file (c : config) : string :=
  path_join results_path (if train c then "train.csv" else "test.csv").

(* lines 48-51 *)
Definition n_examples (c : config) : Z := if train c then n_train c else n_test c.

(* line 32 *)
Definition check_divisible (c : config) : M unit :=
  r1 ← lift (Py.mod_ (n_train c) (update_interval c));
  ok ← (if r1 =? 0
        then r2 ← lift (Py.mod_ (n_test c) (update_interval c)); mret (r2 =? 0)
        else mret false);
  assert_ ok "No. examples must be divisible by update_interval".

(* line 53: int(np.ceil(np.sqrt(n_neurons))); the square root of a negative
   number is NaN, which int() refuses *)
Definition n_sqrt (c : config) : M unit :=
  if n_neurons c <? 0 then raise ValueError else mret tt.

(* lines 69-72: the loaded network in test mode *)
Definition freeze (net : dc_network) : M dc_network :=
  match dc_Ae net with
  | DiehlAndCookNodes n thresh theta _ _ =>
      mret {| dc_update_rule := NoRule;
              dc_Ae := LIFNodes n (thresh_add thresh theta);
              dc_w := dc_w net;
              dc_hidden := dc_hidden net |}
  | LIFNodes _ _ => raise (AttributeError "theta")
  end.

(* lines 57-72 *)
Definition provision (c : config) : M dc_network :=
  if train c then
    emit EvBuildNetwork;;
    mret (dc_construct (n_neurons c) (excite c) (inhib c) (dt c))
  else
    emit (EvLoadNetwork (network_file c));;
    loaded ← lift (load_dc_network (network_file c));
    net ← read (AttributeError "connections") loaded;
    freeze net.

(** The split the images and labels are read from (line 81). *)
Definition data_split (c : config) : split := TrainSplit.

(* lines 81-83 *)
Definition load_data (c : config) : M (list (list Q) * list Z) :=
  emit (EvLoadData (data_split c));;
  let '(images, labels) := mnist (data_split c) in
  mret (map (Qmult (num_val (intensity c))) <$> (flatten <$> images), labels).

(* lines 92-98 *)
Definition load_classifier (c : config) : M Assign :=
  if train c then mret (assign_init (n_neurons c))
  else
    emit (EvLoadAux auxiliary_file);;
    read (FileNotFoundError auxiliary_file) (disk_assign auxiliary_file).

(** The variables of the script that change as the run proceeds. *)
Record state := State {
  network : dc_network;
  classifier : Assign;                 (* assignments, proportions, rates *)
  spike_record : list Spikes;
  accuracy_ : list (string * list Acc);
  best_accuracy : option Acc;          (* bound in training mode only *)
  data_loader : list (list Q);         (* what the generator has not yielded *)
  var_i : option Z;                    (* the loop variable *)
}.

(* lines 125-132 and 206-213 *)
Definition update_accuracy (c : config) (labels : list Z) (i : Z) (s : state)
  : list (string * list Acc) :=
  let all_activity_pred := all_activity (spike_record s) (classifier s) in
  let proportion_pred := proportion_weighting (spike_record s) (classifier s) in
  let current := Py.slice labels (Some (i - update_interval c)) (Some i) in
  (λ kv, if String.eqb kv.1 "all"
         then (kv.1, kv.2 ++ [percent current all_activity_pred (update_interval c)])
         else if String.eqb kv.1 "proportion"
         then (kv.1, kv.2 ++ [percent current proportion_pred (update_interval c)])
         else kv) <$> accuracy_ s.

(* lines 141-153 *)
Definition checkpoint (c : config) (s : state) : M state :=
  xs ← lasts (accuracy_ s);
  best ← read (NameError "best_accuracy") (best_accuracy s);
  if any_gt xs best then
    emit (EvSaveNetwork (network_file c));;
    emit (EvSaveAux auxiliary_file);;
    m ← max_ xs;
    mret (State (network s) (classifier s) (spike_record s) (accuracy_ s)
            (Some m) (data_loader s) (var_i s))
  else mret s.

(* lines 124-156 *)
Definition evaluate (c : config) (labels : list Z) (i : Z) (s : state) : M state :=
  let s1 := State (network s) (classifier s) (spike_record s)
              (update_accuracy c labels i s) (best_accuracy s) (data_loader s) (var_i s) in
  emit (EvEvaluate i);;
  if train c then
    s2 ← checkpoint c s1;
    emit (EvRefit i);;
    mret (State (network s2)
            (assign_labels (spike_record s2)
               (Py.slice labels (Some (i - update_interval c)) (Some i)) (classifier s2))
            (spike_record s2) (accuracy_ s2) (best_accuracy s2) (data_loader s2) (var_i s2))
  else mret s1.

(* line 159: next(data_loader) *)
Definition next (loader : list (list Q)) : M (list Q * list (list Q)) :=
  match loader with
  | [] => raise StopIteration
  | datum :: rest => mret (datum, rest)
  end.

(* lines 119-199 *)
Definition step (c : config) (labels : list Z) (i : Z) (s : state) : M state :=
  _ ← lift (Py.mod_ i (progress_interval c));
  r ← lift (Py.mod_ i (update_interval c));
  s ← (if (r =? 0) && (0 <? i) then evaluate c labels i s else mret s);
  '(datum, rest) ← next (data_loader s);
  emit (EvRun i datum);;
  let net := dc_run (network s) datum (time c) in
  slot ← lift (Py.mod_ i (update_interval c));
  spike_record' ← lift (Py.setitem (spike_record s) slot (dc_spikes net));
  emit (EvRecord slot i (dc_spikes net));;
  mret (State (dc_reset net) (classifier s) spike_record' (accuracy_ s)
          (best_accuracy s) rest (Some i)).

(* line 89 *)
Definition buffers (c : config) : M (list Spikes) :=
  zeros [update_interval c; time c; n_neurons c] spikes_zero.

(* lines 86 and 100-104 *)
Definition init (c : config) (net : dc_network) (images : list (list Q)) (a : Assign)
    (spike_record : list Spikes) : state :=
  State net a spike_record [("all", []); ("proportion", [])]
    (if train c then Some (acc_int 0) else None) images None.

(** The loop of line 118 over the first [k] examples. *)
Definition loop (c : config) (labels : list Z) (k : Z) (s : state) : M state :=
  for_each (step c labels) (Py.range k) s.

(* lines 203-213 *)
Definition final_flush (c : config) (labels : list Z) (s : state) : M state :=
  i ← read (NameError "i") (var_i s);
  let i := i + 1 in
  emit (EvEvaluate i);;
  mret (State (network s) (classifier s) (spike_record s)
          (update_accuracy c labels i s) (best_accuracy s) (data_loader s) (Some i)).

(* lines 231-254 *)
Definition report (c : config) (s : state) : M unit :=
  all ← lookup_key "all" (accuracy_ s);
  proportion ← lookup_key "proportion" (accuracy_ s);
  let results :=
    if train c then [max_str all; max_str proportion]
    else [mean_str all; mean_str proportion] in
  emit (EvCsv (results_file c) (Py.join "," ((str <$> params c) ++ results))).

(* lines 32-115 *)
Definition setup (c : config) : M (list Z * state) :=
  check_divisible c;;
  seed_all (seed c);;
  n_sqrt c;;
  net ← provision c;
  '(images, labels) ← load_data c;
  spike_record ← buffers c;
  a ← load_classifier c;
  mret (labels, init c net images a spike_record).

(** The run up to the end of the [k]-th iteration of the loop. *)
Definition examples (c : config) (k : Z) : M (list Z * state) :=
  '(labels, s) ← setup c;
  s ← loop c labels k s;
  mret (labels, s).

(** The script, from line 32 on. *)
Definition script (c : config) : M state :=
  '(labels, s) ← examples c (n_examples c);
  s ← final_flush c labels s;
  report c s;;
  mret s.

End Driver.
End DiehlCook.

(** ** Projections of a trace *)

Section Traces.
Context `{Carriers}.

(** The writes to the circular buffer: slot, example, spikes. *)
Definition records (t : trace) : list (Z * Z * Spikes) :=
  omap (λ e, match e with EvRecord slot i s => Some (slot, i, s) | _ => None end) t.

(** The indices at which accuracies were appended. *)
Definition evaluations (t : trace) : list Z :=
  omap (λ e, match e with EvEvaluate i => Some i | _ => None end) t.

(** The splits read from the dataset. *)
Definition loads (t : trace) : list split :=
  omap (λ e, match e with EvLoadData s => Some s | _ => None end) t.

End Traces.

(** [ceil(n / d)] on integers. *)
Definition ceil_div (n d : Z) : Z := - ((- n) / d).

(** ** Vocabulary of the properties *)

(** The message of the assertion of line 44 (line 32 of the script). *)
Definition divisibility_message : string :=
  "No. examples must be divisible by update_interval".

(** Line 162 (and line 123): an evaluation is due at index [i]. *)
Definition boundary (ui i : Z) : bool := (i mod ui =? 0) && (0 <? i).


Section Vocabulary.
Context `{Env}.

(** [m] only appends to the trace, and only events satisfying [P]. *)
Definition emits {A} (P : event → Prop) (m : M A) : Prop :=
  ∀ t t' r, m t = (t', r) → ∃ new, t' = t ++ new ∧ Forall P new.

(** Events other than reading the dataset. *)
Definition not_load (e : event) : Prop :=
  match e with EvLoadData _ => False | _ => True end.

(** Events that are neither a buffer write nor an evaluation. *)
Definition bookkeeping (e : event) : Prop :=
  match e with EvRecord _ _ _ | EvEvaluate _ => False | _ => True end.

(** [m], when it returns, has read exactly the splits [l]. *)
Definition loads_by {A} (m : M A) (l : list split) : Prop :=
  ∀ t t' a, m t = (t', Ok a) → loads t' = loads t ++ l.

(** The last write to [slot]: the example and its spikes. *)
Definition last_record (slot : Z) (t : trace) : option (Z * Spikes) :=
  last (omap (λ r : Z * Z * Spikes, if r.1.1 =? slot then Some (r.1.2, r.2) else None)
          (records t)).

(** What the circular buffer holds after [k] examples, given the trace of
    the run: it has [ui] slots; the writes so far are one per example [i],
    to slot [i % ui], in order; and a slot holds the spikes of the last
    example written to it, which is congruent to the slot and among the
    last [ui] examples, or zeros when nothing was written to it. *)
Definition buffer_holds (ui k : Z) (buffer : list Spikes) (t : trace) : Prop :=
  Z.of_nat (length buffer) = ui
  ∧ (λ r : Z * Z * Spikes, (r.1.1, r.1.2)) <$> records t = (λ i, (i mod ui, i)) <$> Py.range k
  ∧ ∀ slot, 0 ≤ slot < ui →
      match last_record slot t with
      | Some (j, d) =>
          buffer !! Z.to_nat slot = Some d
          ∧ EvRecord slot j d ∈ t
          ∧ 0 ≤ j < k ∧ j mod ui = slot ∧ k - ui ≤ j
      | None => buffer !! Z.to_nat slot = Some spikes_zero ∧ k ≤ slot
      end.

(** The watermark [o] is bound and not below [b]. *)
Definition not_below (b : Acc) (o : option Acc) : Prop :=
  ∃ b', o = Some b' ∧ acc_gt b b' = false.

Definition lc_with_best (s : LogReg.state) (b : option Acc) : LogReg.state :=
  LogReg.State (LogReg.network s) (LogReg.logreg_model s) (LogReg.spike_record s)
    (LogReg.full_spike_record s) (LogReg.curves s) (LogReg.predictions s) b (LogReg.var_i s).

Definition dc_with_best (s : DiehlCook.state) (b : option Acc) : DiehlCook.state :=
  DiehlCook.State (DiehlCook.network s) (DiehlCook.classifier s) (DiehlCook.spike_record s)
    (DiehlCook.accuracy_ s) b (DiehlCook.data_loader s) (DiehlCook.var_i s).

(** The state and the trace of the logistic-regression driver after [k]
    iterations. *)
Definition lc_inv (c : LogReg.config) (k : Z) (s : LogReg.state) (t : trace) : Prop :=
  buffer_holds (LogReg.update_interval c) k (LogReg.spike_record s) t
  ∧ evaluations t = filter (λ i, boundary (LogReg.update_interval c) i = true) (Py.range k)
  ∧ Forall (λ kv : string * list Acc, length kv.2 = length (evaluations t)) (LogReg.curves s)
  ∧ LogReg.var_i s = (if k =? 0 then None else Some (k - 1))
  ∧ LogReg.len (LogReg.full_spike_record s) = LogReg.n_examples c.

(** The state and the trace of the Diehl and Cook script after [k]
    iterations. *)
Definition dc_inv (c : DiehlCook.config) (k : Z) (s : DiehlCook.state) (t : trace) : Prop :=
  buffer_holds (DiehlCook.update_interval c) k (DiehlCook.spike_record s) t
  ∧ evaluations t = filter (λ i, boundary (DiehlCook.update_interval c) i = true) (Py.range k)
  ∧ fst <$> DiehlCook.accuracy_ s = ["all"; "proportion"]
  ∧ Forall (λ kv : string * list Acc, length kv.2 = length (evaluations t)) (DiehlCook.accuracy_ s)
  ∧ DiehlCook.var_i s = (if k =? 0 then None else Some (k - 1)).

(** The freezing of the logistic-regression driver (lines 83-87) read on
    the Diehl and Cook network: the update rule replaced by the no-op rule,
    and [theta_plus] and [theta_decay] of the adaptive layer set to zero. *)
Definition dc_zeroed (net : dc_network) : Prop :=
  dc_update_rule net = NoOp
  ∧ ∃ n thresh theta, dc_Ae net = DiehlAndCookNodes n thresh theta (PyInt 0) (PyInt 0).

(** The split the logistic-regression driver reads (lines 101-104). *)
Definition lc_split (c : LogReg.config) : split :=
  if LogReg.train c then TrainSplit else TestSplit.

(** The images the logistic-regression driver presents (lines 99-107). *)
Definition lc_images (c : LogReg.config) : list image :=
  LogReg.crop_image (LogReg.crop c) <$>
    (scale_image (num_val (LogReg.intensity c)) <$> (mnist (lc_split c)).1).

(** The data the loader of the script yields (lines 81-86): the training
    images, flattened and scaled by [intensity]. *)
Definition dc_images (c : DiehlCook.config) : list (list Q) :=
  map (Qmult (num_val (DiehlCook.intensity c))) <$> (flatten <$> (mnist TrainSplit).1).

(** *** What a run produces for an example

    The networks and the spikes of a run as functions of the provisioned
    network and the data, to say what the buffers must hold. *)

(** The datum of example [i] of the driver: image [i % len(images)],
    flattened. *)
Definition lc_datum (images : list image) (i : Z) : list Q :=
  flatten (default [] (images !! Z.to_nat (i mod LogReg.len images))).

(** The network after the retries on [x], from the network [net] after
    the run before: again on the doubled datum while there are fewer than 5
    spikes, [budget] times at most. *)
Fixpoint retried (T : Z) (budget : nat) (x : list Q) (net : lc_network) : lc_network :=
  match budget with
  | O => net
  | S b =>
      if spikes_sum (lc_spikes net) <? 5
      then retried T b (double x) (lc_run net (double x) T)
      else net
  end.

(** The network after the presentation of [x], with up to 3 retries. *)
Definition lc_presented (T : Z) (net : lc_network) (x : list Q) : lc_network :=
  retried T 3 x (lc_run net x T).

(** The network of the driver after [k] examples: every example is
    presented and the network reset. *)
Definition lc_after (T : Z) (images : list image) (net0 : lc_network) (k : Z) : lc_network :=
  foldl (λ net i, lc_reset (lc_presented T net (lc_datum images i))) net0 (Py.range k).

(** The spikes of the output layer for example [i] of the driver. *)
Definition lc_produced (T : Z) (images : list image) (net0 : lc_network) (i : Z) : Spikes :=
  lc_spikes (lc_presented T (lc_after T images net0 i) (lc_datum images i)).

(** The datum of example [i] of the script. *)
Definition dc_datum (data : list (list Q)) (i : Z) : list Q :=
  default [] (data !! Z.to_nat i).

(** The network of the script after [k] examples. *)
Definition dc_after (T : Z) (data : list (list Q)) (net0 : dc_network) (k : Z) : dc_network :=
  foldl (λ net i, dc_reset (dc_run net (dc_datum data i) T)) net0 (Py.range k).

(** The spikes of the excitatory layer for example [i] of the script. *)
Definition dc_produced (T : Z) (data : list (list Q)) (net0 : dc_network) (i : Z) : Spikes :=
  dc_spikes (dc_run (dc_after T data net0 i) (dc_datum data i) T).

(** The circular buffer after [k] examples whose spikes are [produced]:
    it has [ui] slots; a slot no example has reached yet holds zeros; a
    slot that was reached holds the spikes of an example [e] congruent to
    it and among the last [ui] of the [k]; and this is the only such
    example, the most recent one written to the slot. *)
Definition buffer_of (ui k : Z) (produced : Z → Spikes) (buffer : list Spikes) : Prop :=
  Z.of_nat (length buffer) = ui
  ∧ ∀ slot, 0 ≤ slot < ui →
      (k ≤ slot → buffer !! Z.to_nat slot = Some spikes_zero)
      ∧ (slot < k →
         ∃ e, 0 ≤ e < k ∧ e mod ui = slot ∧ k - ui ≤ e
              ∧ buffer !! Z.to_nat slot = Some (produced e))
      ∧ (∀ e, 0 ≤ e < k → e mod ui = slot → k - ui ≤ e →
           buffer !! Z.to_nat slot = Some (produced e)).

(** The latest accuracies [xs] of the curves [cs]: the last entry of each. *)
Definition latest (cs : list (string * list Acc)) (xs : list Acc) : Prop :=
  Forall2 (λ (kv : string * list Acc) x, last kv.2 = Some x) cs xs.

(** Some accuracy of [xs] exceeds the watermark [best]. *)
Definition exceeds (xs : list Acc) (best : Acc) : Prop :=
  ∃ x, x ∈ xs ∧ acc_gt x best = true.

(** [m] is a largest accuracy of [xs]. *)
Definition largest (xs : list Acc) (m : Acc) : Prop :=
  m ∈ xs ∧ ∀ y, y ∈ xs → acc_gt y m = false.

(** Every split read is the training split. *)
Definition train_load (e : event) : Prop :=
  match e with EvLoadData s => s = TrainSplit | _ => True end.

(** What the loop of the script needs of the state to go on, before
    iteration [k]. *)
Definition dc_going (c : DiehlCook.config) (k : Z) (s : DiehlCook.state) : Prop :=
  Z.of_nat (length (DiehlCook.spike_record s)) = DiehlCook.update_interval c
  ∧ (DiehlCook.train c = true → is_Some (DiehlCook.best_accuracy s))
  ∧ fst <$> DiehlCook.accuracy_ s = ["all"; "proportion"]
  ∧ Z.of_nat (length (DiehlCook.data_loader s)) = Z.of_nat (length (mnist TrainSplit).1) - k.

End Vocabulary.

(** ** A small instance of the libraries, to run the drivers on *)

Module Toy.

Definition carriers : Carriers :=
  {| Float := Z; Acc := Z; Weights := Z; Hidden := Z; Thresh := Z;
     Spikes := Z; Row := Z; Model := Z; Assign := Z |}.

(** A 4 x 4 image with [k] in its 2 x 2 centre. *)
Definition centre (k : Z) : image :=
  let z := inject_Z 0 in let v := inject_Z k in
  [[z; z; z; z]; [z; v; v; z]; [z; v; v; z]; [z; z; z; z]].

Definition matches (a b : list Z) : Z :=
  Z.of_nat (length (filter (λ p, p.1 =? p.2) (zip a b))).

Definition total (x : list Q) : Z := Qfloor (foldr Qplus (inject_Z 0) x).

Definition learn (r : rule) (w : Z) : Z :=
  match r with PostPre => w + 1 | _ => w end.

#[local] Existing Instance carriers.

Definition env : Env :=
  {| float_str := λ f, pretty (f : Z) +:+ ".0";
     float_val := λ f, inject_Z f;
     acc_int := λ z, z;
     acc_gt := λ x y, (y : Z) <? x;
     thresh_add := Z.add;
     root_dir := "/experiments";
     mnist := λ s,
       match s with
       | TrainSplit => ([centre 0; centre 3; centre 1; centre 2], [0; 3; 1; 2])
       | TestSplit => ([centre 2; centre 0], [2; 9])
       end;
     load_lc_network := λ _,
       Ok (Some (@LcNetwork carriers PostPre (@PyFloat carriers 1) (@PyFloat carriers 2) 7 0));
     load_dc_network := λ _,
       Ok (Some (@DcNetwork carriers PostPre
                   (@DiehlAndCookNodes carriers 10 50 3 (@PyInt carriers 1) (@PyFloat carriers 2))
                   7 0));
     disk_model := λ _, Some 0;
     disk_assign := λ _, Some 0;
     lc_construct := λ _ _ _ _ _ _ _ tp td _, @LcNetwork carriers PostPre tp td 0 0;
     lc_run := λ net x _,
       @LcNetwork carriers (lc_update_rule net) (lc_theta_plus net) (lc_theta_decay net)
         (learn (lc_update_rule net) (lc_w net)) (total x);
     lc_spikes := λ net, lc_hidden net;
     lc_reset := λ net,
       @LcNetwork carriers (lc_update_rule net) (lc_theta_plus net) (lc_theta_decay net)
         (lc_w net) 0;
     lc_conv_prod := λ _, 4;
     dc_construct := λ n _ _ _,
       @DcNetwork carriers PostPre
         (@DiehlAndCookNodes carriers n 50 0 (@PyInt carriers 1) (@PyFloat carriers 0)) 0 0;
     dc_run := λ net x _,
       @DcNetwork carriers (dc_update_rule net) (dc_Ae net)
         (learn (dc_update_rule net) (dc_w net)) (total x);
     dc_spikes := λ net, dc_hidden net;
     dc_reset := λ net,
       @DcNetwork carriers (dc_update_rule net) (dc_Ae net) (dc_w net) 0;
     spikes_zero := 0;
     row_zero := 0;
     spikes_sum := λ s, s;
     spikes_sum0 := λ s, s;
     logreg_init := 0;
     logreg_fit := λ _ _ m, m + 1;
     logreg_predict := λ rows _, (λ r : Z, r `div` 20) <$> rows;
     accuracy := λ labels pred, 100 * matches labels pred `div` Z.max 1 (Z.of_nat (length labels));
     assign_init := λ _, 0;
     assign_labels := λ _ _ a, a + 1;
     all_activity := λ rec _, (λ s : Z, s `div` 8) <$> rec;
     proportion_weighting := λ rec a, (λ s : Z, (s `div` 8 + a) `mod` 4) <$> rec;
     percent := λ labels pred n, 100 * matches labels pred `div` n;
     mean_str := λ l, pretty (foldr Z.add 0 l `div` Z.max 1 (Z.of_nat (length l)));
     std_str := λ _, "0";
     max_str := λ l, pretty (foldr Z.max 0 l) |}.

End Toy.

(** ** Configurations of the small instance *)

Module ToyRuns.

#[local] Existing Instance Toy.carriers.
#[local] Existing Instance Toy.env.

(** The logistic-regression driver on [n] examples, evaluated every [ui]. *)
Definition lc (tr : bool) (n ui : Z) : LogReg.config :=
  LogReg.Config 0 n n (PyInt 250) (SInt 16) (STuple [2]) 25 25 1
    (PyFloat 1) (PyInt 1) (PyFloat 1) (PyFloat 0) (PyFloat 0) (PyInt 5) (PyFloat 0)
    10 ui tr false false.

(** The Diehl and Cook script on [n] examples, evaluated every [ui]. *)
Definition dc (tr : bool) (n ui : Z) : DiehlCook.config :=
  DiehlCook.Config 0 100 n n (PyFloat 22) (PyFloat 50) 350 (PyFloat 1) (PyFloat 2)
    10 ui tr false false.

End ToyRuns.

(** ** Vocabulary of the further properties *)

Section MoreTraces.
Context `{Carriers}.

(** The presentations to the network: the example and the datum encoded. *)
Definition runs (t : trace) : list (Z * list Q) :=
  omap (λ e, match e with EvRun i x => Some (i, x) | _ => None end) t.

(** Events other than a presentation. *)
Definition not_run (e : event) : Prop :=
  match e with EvRun _ _ => False | _ => True end.

(** Events other than writing a checkpoint. *)
Definition not_save (e : event) : Prop :=
  match e with EvSaveNetwork _ | EvSaveAux _ => False | _ => True end.

(** Events that leave the learned state alone: no network is built, no
    checkpoint written and no classifier refit. *)
Definition evaluation_only (e : event) : Prop :=
  match e with
  | EvBuildNetwork | EvSaveNetwork _ | EvSaveAux _ | EvRefit _ => False
  | _ => True
  end.

(** Events other than reading a checkpoint. *)
Definition from_scratch (e : event) : Prop :=
  match e with EvLoadNetwork _ | EvLoadAux _ => False | _ => True end.

(** The indices at which the classifier was refit. *)
Definition refits (t : trace) : list Z :=
  omap (λ e, match e with EvRefit i => Some i | _ => None end) t.

(** Events other than a refit. *)
Definition not_refit (e : event) : Prop :=
  match e with EvRefit _ => False | _ => True end.

End MoreTraces.

Section MoreVocabulary.
Context `{Env}.

(** The data of the attempts [0] to [r] on [x]: [x], then doubled each time. *)
Definition attempts (x : list Q) (r : nat) : list (list Q) :=
  (λ j, Nat.iter j double x) <$> seq 0 (S r).

(** The network after running it on the data [xs] in turn. *)
Definition after (T : Z) (net : lc_network) (xs : list (list Q)) : lc_network :=
  fold_left (λ n x, lc_run n x T) xs net.

(** The presentations of example [i] with [r] retries: the image
    [images[i % len(images)]], flattened, then doubled for each retry. *)
Definition presentations (images : list image) (i : Z) (r : nat) : list (Z * list Q) :=
  match images !! Z.to_nat (i mod LogReg.len images) with
  | Some im => (λ x, (i, x)) <$> attempts (flatten im) r
  | None => []
  end.

(** An [n] x [n] image. *)
Definition square (n : Z) (im : image) : Prop :=
  Z.of_nat (length im) = n ∧ Forall (λ row, Z.of_nat (length row) = n) im.

(** The pixel of row [r] and column [c]. *)
Definition pixel (im : image) (r c : Z) : option Q :=
  row ← im !! Z.to_nat r; row !! Z.to_nat c.

End MoreVocabulary.

(** ** The files of results *)

Module Results.

(** The results files, by path: their content, when they exist. *)
Definition store : Type := string → option string.

Definition nl : string := String (ascii_of_nat 10) EmptyString.

(** [open(path, 'w').write(content)]. *)
Definition write (fs : store) (path content : string) : store :=
  λ p, if String.eqb p path then Some content else fs p.

(** Lines 300-314 of the driver, lines 247-254 of the script: the header
    when the file does not exist, then the row appended. *)
Definition write_row (header : string) (fs : store) (path row : string) : store :=
  let fs := match fs path with Some _ => fs | None => write fs path header end in
  write fs path (default EmptyString (fs path) +:+ row +:+ nl).

(** The header of the logistic-regression driver (lines 302-311). *)
Definition lc_header (train : bool) : string :=
  if train
  then "random_seed,kernel_size,stride,n_filters,crop,lr,lr_decay,n_train,inhib,time,timestep,theta_plus," +:+
       "theta_decay,intensity,norm,progress_interval,update_interval,mean_logreg,std_logreg" +:+ nl
  else "random_seed,kernel_size,stride,n_filters,crop,lr,lr_decay,n_train,n_test,inhib,time,timestep," +:+
       "theta_plus,theta_decay,intensity,norm,progress_interval,update_interval,mean_logreg,std_logreg" +:+ nl.

(** The header of the script (lines 249-251). *)
Definition dc_header : string :=
  "random seed,no. neurons,no. train,no. test,excitation," +:+
  "inhibition,sim. time,timestep,intensity,progress int.," +:+
  "update int.,all activity,proportion weighting" +:+ nl.

(** The number of columns of a header, or of fields of a line. *)
Fixpoint columns (s : string) : nat :=
  match s with
  | EmptyString => 1
  | String a s' => if Ascii.eqb a "," then S (columns s') else columns s'
  end.

(** The commas of a value, each of which splits it into one more field
    of the line it is written to. *)
Fixpoint commas (s : string) : nat :=
  match s with
  | EmptyString => 0
  | String a s' => if Ascii.eqb a "," then S (commas s') else commas s'
  end.

Definition inner_commas (values : list string) : nat :=
  foldr (λ v n, (commas v + n)%nat) 0%nat values.

Section Replay.
Context `{Carriers}.

(** The rows a run writes: file and row. *)
Definition rows (t : trace) : list (string * string) :=
  omap (λ e, match e with EvCsv name row => Some (name, row) | _ => None end) t.

(** Events other than writing a row of results. *)
Definition not_row (e : event) : Prop :=
  match e with EvCsv _ _ => False | _ => True end.

(** The results files after the rows of a trace were written. *)
Definition after_run (header : string) (t : trace) (fs : store) : store :=
  foldl (λ fs r, write_row header fs r.1 r.2) fs (rows t).

End Replay.

End Results.

(** The small instance with a simulator that normalises the weights at
    the end of every run, whatever the rule of the connection. *)
Module ToyNorm.

#[local] Existing Instance Toy.carriers.

Definition normalise (w : Z) : Z := Z.min 5 w.

Definition env : Env :=
  {| float_str := @float_str _ Toy.env;
     float_val := @float_val _ Toy.env;
     acc_int := @acc_int _ Toy.env;
     acc_gt := @acc_gt _ Toy.env;
     thresh_add := @thresh_add _ Toy.env;
     root_dir := @root_dir _ Toy.env;
     mnist := @mnist _ Toy.env;
     load_lc_network := @load_lc_network _ Toy.env;
     load_dc_network := @load_dc_network _ Toy.env;
     disk_model := @disk_model _ Toy.env;
     disk_assign := @disk_assign _ Toy.env;
     lc_construct := @lc_construct _ Toy.env;
     lc_run := λ net x T,
       let net' := @lc_run _ Toy.env net x T in
       @LcNetwork Toy.carriers (lc_update_rule net') (lc_theta_plus net')
         (lc_theta_decay net') (normalise (lc_w net')) (lc_hidden net');
     lc_spikes := @lc_spikes _ Toy.env;
     lc_reset := @lc_reset _ Toy.env;
     lc_conv_prod := @lc_conv_prod _ Toy.env;
     dc_construct := @dc_construct _ Toy.env;
     dc_run := λ net x T,
       let net' := @dc_run _ Toy.env net x T in
       @DcNetwork Toy.carriers (dc_update_rule net') (dc_Ae net')
         (normalise (dc_w net')) (dc_hidden net');
     dc_spikes := @dc_spikes _ Toy.env;
     dc_reset := @dc_reset _ Toy.env;
     spikes_zero := @spikes_zero _ Toy.env;
     row_zero := @row_zero _ Toy.env;
     spikes_sum := @spikes_sum _ Toy.env;
     spikes_sum0 := @spikes_sum0 _ Toy.env;
     logreg_init := @logreg_init _ Toy.env;
     logreg_fit := @logreg_fit _ Toy.env;
     logreg_predict := @logreg_predict _ Toy.env;
     accuracy := @accuracy _ Toy.env;
     assign_init := @assign_init _ Toy.env;
     assign_labels := @assign_labels _ Toy.env;
     all_activity := @all_activity _ Toy.env;
     proportion_weighting := @proportion_weighting _ Toy.env;
     percent := @percent _ Toy.env;
     mean_str := @mean_str _ Toy.env;
     std_str := @std_str _ Toy.env;
     max_str := @max_str _ Toy.env |}.

End ToyNorm.

(** The small instance with files missing from the disk: without the
    checkpoint of the network, for which [load_network] returns [None], or
    with it and without the classifier. *)
Module ToyDisk.

#[local] Existing Instance Toy.carriers.

Definition env (network : bool) : Env :=
  {| float_str := @float_str _ Toy.env;
     float_val := @float_val _ Toy.env;
     acc_int := @acc_int _ Toy.env;
     acc_gt := @acc_gt _ Toy.env;
     thresh_add := @thresh_add _ Toy.env;
     root_dir := @root_dir _ Toy.env;
     mnist := @mnist _ Toy.env;
     load_lc_network := λ p, if network then @load_lc_network _ Toy.env p else Ok None;
     load_dc_network := λ p, if network then @load_dc_network _ Toy.env p else Ok None;
     disk_model := λ _, None;
     disk_assign := λ _, None;
     lc_construct := @lc_construct _ Toy.env;
     lc_run := @lc_run _ Toy.env;
     lc_spikes := @lc_spikes _ Toy.env;
     lc_reset := @lc_reset _ Toy.env;
     lc_conv_prod := @lc_conv_prod _ Toy.env;
     dc_construct := @dc_construct _ Toy.env;
     dc_run := @dc_run _ Toy.env;
     dc_spikes := @dc_spikes _ Toy.env;
     dc_reset := @dc_reset _ Toy.env;
     spikes_zero := @spikes_zero _ Toy.env;
     row_zero := @row_zero _ Toy.env;
     spikes_sum := @spikes_sum _ Toy.env;
     spikes_sum0 := @spikes_sum0 _ Toy.env;
     logreg_init := @logreg_init _ Toy.env;
     logreg_fit := @logreg_fit _ Toy.env;
     logreg_predict := @logreg_predict _ Toy.env;
     accuracy := @accuracy _ Toy.env;
     assign_init := @assign_init _ Toy.env;
     assign_labels := @assign_labels _ Toy.env;
     all_activity := @all_activity _ Toy.env;
     proportion_weighting := @proportion_weighting _ Toy.env;
     percent := @percent _ Toy.env;
     mean_str := @mean_str _ Toy.env;
     std_str := @std_str _ Toy.env;
     max_str := @max_str _ Toy.env |}.

(** The logistic-regression driver on [n] examples, evaluated every [ui]
    and reporting progress every [pi]. *)
Definition lc (tr : bool) (n ui pi : Z) : LogReg.config :=
  LogReg.Config 0 n n (PyInt 250) (SInt 16) (STuple [2]) 25 25 1
    (PyFloat 1) (PyInt 1) (PyFloat 1) (PyFloat 0) (PyFloat 0) (PyInt 5) (PyFloat 0)
    pi ui tr false false.

(** The Diehl and Cook script, likewise. *)
Definition dc (tr : bool) (n ui pi : Z) : DiehlCook.config :=
  DiehlCook.Config 0 100 n n (PyFloat 22) (PyFloat 50) 350 (PyFloat 1) (PyFloat 2)
    pi ui tr false false.

(** A trained network, frozen for a test. *)
Definition frozen_net : lc_network :=
  LogReg.freeze
    (@LcNetwork Toy.carriers PostPre (@PyInt Toy.carriers 1) (@PyInt Toy.carriers 1) 7 0).

End ToyDisk.

(** * Properties *)

(** ** The monad *)

Section MonadFacts.
Context `{Carriers}.

Lemma bind_eq {A B} (m : M A) (f : A → M B) t :
  (m ≫= f) t =
  match m t with
  | (t', Ok a) => f a t'
  | (t', Raise e) => (t', Raise e)
  | (t', Timeout) => (t', Timeout)
  end.
Proof. reflexivity. Qed.

Lemma bind_ok {A B} (m : M A) (f : A → M B) t t1 a :
  m t = (t1, Ok a) → (m ≫= f) t = f a t1.
Proof. intros E. rewrite bind_eq, E. reflexivity. Qed.

Lemma bind_raise {A B} (m : M A) (f : A → M B) t t1 e :
  m t = (t1, Raise e) → (m ≫= f) t = (t1, Raise e).
Proof. intros E. rewrite bind_eq, E. reflexivity. Qed.

Lemma bind_ok_inv {A B} (m : M A) (f : A → M B) t t2 b :
  (m ≫= f) t = (t2, Ok b) → ∃ a t1, m t = (t1, Ok a) ∧ f a t1 = (t2, Ok b).
Proof.
  rewrite bind_eq. destruct (m t) as [t1 [a|e|]]; intros E; try discriminate.
  exists a, t1. split; [reflexivity | exact E].
Qed.


Lemma for_each_app {S} (body : Z → S → M S) l1 l2 s t :
  for_each body (l1 ++ l2) s t = (for_each body l1 s ≫= for_each body l2) t.
Proof.
  revert s t. induction l1 as [|i l1 IH]; intros s t; simpl.
  - reflexivity.
  - rewrite !bind_eq. destruct (body i s t) as [t1 [s1|e|]]; try reflexivity.
    rewrite IH. reflexivity.
Qed.

Lemma range_succ k : 0 ≤ k → Py.range (k + 1) = Py.range k ++ [k].
Proof.
  intros Hk. unfold Py.range. rewrite seqZ_app by lia.
  f_equal.
Qed.

(** One more iteration of a [for] loop over a range. *)
Lemma for_each_range_succ {S} (body : Z → S → M S) k s t :
  0 ≤ k →
  for_each body (Py.range (k + 1)) s t = (for_each body (Py.range k) s ≫= body k) t.
Proof.
  intros Hk. rewrite range_succ by assumption. rewrite for_each_app.
  rewrite !bind_eq. destruct (for_each body (Py.range k) s t) as [t1 [s1|e|]]; try reflexivity.
  simpl. rewrite bind_eq. destruct (body k s1 t1) as [t2 [s2|e|]]; reflexivity.
Qed.

Lemma for_each_range_0 {S} (body : Z → S → M S) k s t :
  k ≤ 0 → for_each body (Py.range k) s t = (t, Ok s).
Proof.
  intros Hk. unfold Py.range, seqZ. replace (Z.to_nat k) with O by lia. reflexivity.
Qed.

End MonadFacts.

(** Inversion of a successful [bind] in a hypothesis. *)
Ltac inv_bind E :=
  let a := fresh "a" in let t1 := fresh "t" in let E1 := fresh "E" in
  apply bind_ok_inv in E; destruct E as (a & t1 & E1 & E).

Ltac munfold :=
  unfold mbind, M_bind, mret, M_ret, lift, raise, emit, assert_, read in *.

(** ** Validation of the configuration *)

Section Validation.
Context `{Env}.

Lemma mod_zero_divide n d : d ≠ 0 → (n mod d =? 0) = true ↔ (d | n).
Proof.
  intros Hd. rewrite Z.eqb_eq. apply Z.mod_divide. assumption.
Qed.

Lemma lc_check_divisible_eq (c : LogReg.config) t :
  LogReg.check_divisible c t =
  (t, if LogReg.update_interval c =? 0 then Raise ZeroDivisionError
      else if (LogReg.n_train c mod LogReg.update_interval c =? 0)
              && (LogReg.n_test c mod LogReg.update_interval c =? 0)
           then Ok tt else Raise (AssertionError divisibility_message)).
Proof.
  unfold LogReg.check_divisible, Py.mod_. munfold.
  destruct (LogReg.update_interval c =? 0); [reflexivity|].
  destruct (_ mod _ =? 0); simpl; [|reflexivity].
  destruct (_ mod _ =? 0); reflexivity.
Qed.

Lemma dc_check_divisible_eq (c : DiehlCook.config) t :
  DiehlCook.check_divisible c t =
  (t, if DiehlCook.update_interval c =? 0 then Raise ZeroDivisionError
      else if (DiehlCook.n_train c mod DiehlCook.update_interval c =? 0)
              && (DiehlCook.n_test c mod DiehlCook.update_interval c =? 0)
           then Ok tt else Raise (AssertionError divisibility_message)).
Proof.
  unfold DiehlCook.check_divisible, Py.mod_. munfold.
  destruct (DiehlCook.update_interval c =? 0); [reflexivity|].
  destruct (_ mod _ =? 0); simpl; [|reflexivity].
  destruct (_ mod _ =? 0); reflexivity.
Qed.

(** A failed check ends [main] on the spot. *)
Lemma lc_main_check_raise fuel (c : LogReg.config) t e :
  LogReg.check_divisible c t = (t, Raise e) → LogReg.main fuel c t = (t, Raise e).
Proof.
  intros E. unfold LogReg.main, LogReg.before_confusion, LogReg.examples, LogReg.setup.
  do 4 (apply bind_raise). exact E.
Qed.

Lemma dc_script_check_raise (c : DiehlCook.config) t e :
  DiehlCook.check_divisible c t = (t, Raise e) → DiehlCook.script c t = (t, Raise e).
Proof.
  intros E. unfold DiehlCook.script, DiehlCook.examples, DiehlCook.setup.
  do 2 (apply bind_raise). apply bind_raise. exact E.
Qed.

Lemma check_cases (n_train n_test ui : Z) :
  ui ≠ 0 →
  ((n_train mod ui =? 0) && (n_test mod ui =? 0) = true ↔ (ui | n_train) ∧ (ui | n_test)).
Proof.
  intros Hu. rewrite andb_true_iff, !mod_zero_divide by assumption. reflexivity.
Qed.

(** A zero interval stops both drivers in the assertion as well, with the
    exception of the modulo. *)
Lemma zero_interval_raises fuel (lc : LogReg.config) (dc : DiehlCook.config) t :
  (LogReg.update_interval lc = 0 → LogReg.main fuel lc t = (t, Raise ZeroDivisionError))
  ∧ (DiehlCook.update_interval dc = 0 → DiehlCook.script dc t = (t, Raise ZeroDivisionError)).
Proof.
  split; intros E.
  - apply lc_main_check_raise. rewrite lc_check_divisible_eq, E. reflexivity.
  - apply dc_script_check_raise. rewrite dc_check_divisible_eq, E. reflexivity.
Qed.

(** C1. In both drivers the divisibility of [n_train] and [n_test] by
    [update_interval] is checked first: when one of them is not divisible the
    run ends with the [AssertionError] of the check and an unchanged trace
    (no seeding, network construction, data loading or simulation has taken
    place), and when both are divisible the check raises nothing. *)
Theorem C1_divisibility_checked_first fuel (lc : LogReg.config) (dc : DiehlCook.config) t :
  LogReg.update_interval lc ≠ 0 →
  DiehlCook.update_interval dc ≠ 0 →
  (¬ ((LogReg.update_interval lc | LogReg.n_train lc)
      ∧ (LogReg.update_interval lc | LogReg.n_test lc)) →
   LogReg.main fuel lc t = (t, Raise (AssertionError divisibility_message)))
  ∧ ((LogReg.update_interval lc | LogReg.n_train lc) →
     (LogReg.update_interval lc | LogReg.n_test lc) →
     LogReg.check_divisible lc t = (t, Ok tt))
  ∧ (¬ ((DiehlCook.update_interval dc | DiehlCook.n_train dc)
        ∧ (DiehlCook.update_interval dc | DiehlCook.n_test dc)) →
     DiehlCook.script dc t = (t, Raise (AssertionError divisibility_message)))
  ∧ ((DiehlCook.update_interval dc | DiehlCook.n_train dc) →
     (DiehlCook.update_interval dc | DiehlCook.n_test dc) →
     DiehlCook.check_divisible dc t = (t, Ok tt)).
Proof.
  intros Hl Hd. split; [|split; [|split]].
  - intros N. apply lc_main_check_raise. rewrite lc_check_divisible_eq.
    rewrite (proj2 (Z.eqb_neq _ _) Hl).
    destruct (_ && _) eqn:E; [|reflexivity].
    exfalso. apply N, check_cases; assumption.
  - intros D1 D2. rewrite lc_check_divisible_eq.
    rewrite (proj2 (check_cases _ _ _ Hl) (conj D1 D2)).
    rewrite (proj2 (Z.eqb_neq _ _) Hl). reflexivity.
  - intros N. apply dc_script_check_raise. rewrite dc_check_divisible_eq.
    rewrite (proj2 (Z.eqb_neq _ _) Hd).
    destruct (_ && _) eqn:E; [|reflexivity].
    exfalso. apply N, check_cases; assumption.
  - intros D1 D2. rewrite dc_check_divisible_eq.
    rewrite (proj2 (check_cases _ _ _ Hd) (conj D1 D2)).
    rewrite (proj2 (Z.eqb_neq _ _) Hd). reflexivity.
Qed.

End Validation.


(** ** Which events a computation can emit *)

Section Emits.
Context `{Carriers}.

Lemma emits_weaken {A} (P Q : event → Prop) (m : M A) :
  (∀ e, P e → Q e) → emits P m → emits Q m.
Proof.
  intros PQ Hm t t' r E. destruct (Hm _ _ _ E) as (new & -> & F).
  exists new. split; [reflexivity|]. eapply Forall_impl; eauto.
Qed.

Lemma emits_lift {A} P (r : result A) : emits P (lift r).
Proof. intros t t' r' [= <- <-]. exists []. rewrite app_nil_r. auto. Qed.

Lemma emits_ret {A} P (a : A) : emits P (mret a).
Proof. apply (emits_lift P (Ok a)). Qed.

Lemma emits_raise {A} P e : emits P (raise e : M A).
Proof. apply emits_lift. Qed.

Lemma emits_emit (P : event → Prop) e : P e → emits P (emit e).
Proof. intros Pe t t' r [= <- <-]. exists [e]. auto. Qed.

Lemma emits_bind {A B} P (m : M A) (f : A → M B) :
  emits P m → (∀ a, emits P (f a)) → emits P (m ≫= f).
Proof.
  intros Hm Hf t t' r. rewrite bind_eq.
  destruct (m t) as [t1 [a|e|]] eqn:E; destruct (Hm _ _ _ E) as (n1 & -> & F1).
  - intros E2. destruct (Hf a _ _ _ E2) as (n2 & -> & F2).
    exists (n1 ++ n2). rewrite app_assoc. split; [reflexivity|]. apply Forall_app; auto.
  - intros [= <- <-]. eauto.
  - intros [= <- <-]. eauto.
Qed.

Lemma emits_read {A} P e (v : option A) : emits P (read e v).
Proof. destruct v; [apply emits_ret | apply emits_raise]. Qed.

Lemma emits_assert P b msg : emits P (assert_ b msg).
Proof. destruct b; [apply emits_ret | apply emits_raise]. Qed.

Lemma emits_for_each {S} P (body : Z → S → M S) l s :
  (∀ i s, emits P (body i s)) → emits P (for_each body l s).
Proof.
  intros Hb. revert s. induction l as [|i l IH]; intros s; simpl.
  - apply emits_ret.
  - apply emits_bind; auto.
Qed.

Lemma emits_while {S} P fuel (cond : S → bool) (body : S → M S) s :
  (∀ s, emits P (body s)) → emits P (while_ fuel cond body s).
Proof.
  intros Hb. revert s. induction fuel as [|fuel IH]; intros s; simpl.
  - destruct (cond s); [apply emits_lift | apply emits_ret].
  - destruct (cond s); [|apply emits_ret]. apply emits_bind; auto.
Qed.

Lemma emits_for_list {A B} P (f : A → M B) l :
  (∀ x, emits P (f x)) → emits P (for_list f l).
Proof.
  intros Hf. induction l as [|x l IH]; simpl.
  - apply emits_ret.
  - apply emits_bind; [auto|]. intros y. apply emits_bind; [auto|]. intros ys. apply emits_ret.
Qed.

End Emits.

(** Decomposes a goal [emits P m] along the structure of [m]. *)
Ltac emits_step :=
  match goal with
  | |- emits _ (mbind _ _) => apply emits_bind; [|intros ?]
  | |- emits _ (mret _) => apply emits_ret
  | |- emits _ (lift _) => apply emits_lift
  | |- emits _ (raise _) => apply emits_raise
  | |- emits _ (read _ _) => apply emits_read
  | |- emits _ (assert_ _ _) => apply emits_assert
  | |- emits _ (for_each _ _ _) => apply emits_for_each; intros ? ?
  | |- emits _ (while_ _ _ _ _) => apply emits_while; intros ?
  | |- emits _ (for_list _ _) => apply emits_for_list; intros ?
  | |- emits _ (if ?b then _ else _) => destruct b
  | |- emits _ (match ?x with _ => _ end) => destruct x
  | |- emits _ (let '(_, _) := ?x in _) => destruct x
  | |- emits _ (emit _) => apply emits_emit
  end.

Section EmitsDrivers.
Context `{Env}.

Lemma emits_zeros {A} P dims (z : A) : emits P (zeros dims z).
Proof. unfold zeros. repeat emits_step. Qed.

Lemma emits_seed_all (P : event → Prop) seed : P (EvSeed seed) → emits P (seed_all seed).
Proof. intros Hp. unfold seed_all. repeat emits_step. exact Hp. Qed.

Lemma emits_n_sqrt P c : emits P (DiehlCook.n_sqrt c).
Proof. unfold DiehlCook.n_sqrt. repeat emits_step. Qed.

Lemma emits_confusions P labels ps : emits P (LogReg.confusions labels ps).
Proof. unfold LogReg.confusions. repeat emits_step. Qed.

Lemma emits_lasts P cs : emits P (lasts cs).
Proof. unfold lasts. repeat emits_step. Qed.

Lemma emits_max P l : emits P (max_ l).
Proof. unfold max_. repeat emits_step. Qed.

Lemma emits_lookup_key {A} P k (d : list (string * A)) : emits P (lookup_key k d).
Proof. unfold lookup_key. repeat emits_step. Qed.

End EmitsDrivers.


(** ** The data source of the Diehl and Cook script *)

Ltac emits_auto :=
  repeat (lazy beta; first [emits_step | apply emits_zeros | apply emits_lasts
                           | apply emits_max | apply emits_lookup_key
                           | apply emits_seed_all | apply emits_confusions
                           | apply emits_n_sqrt]);
  try exact I; try reflexivity.

Section DataSource.
Context `{Env}.

Lemma loads_app (t1 t2 : trace) : loads (t1 ++ t2) = loads t1 ++ loads t2.
Proof. unfold loads. apply omap_app. Qed.

Lemma loads_not_load (new : trace) : Forall not_load new → loads new = [].
Proof.
  induction 1 as [|e new He _ IH]; [reflexivity|].
  destruct e; simpl in *; try contradiction; exact IH.
Qed.

Lemma emits_not_load_loads {A} (m : M A) t t' r :
  emits not_load m → m t = (t', r) → loads t' = loads t.
Proof.
  intros Hm E. destruct (Hm _ _ _ E) as (new & -> & F).
  rewrite loads_app, (loads_not_load _ F), app_nil_r. reflexivity.
Qed.

Lemma dc_check_not_load c : emits not_load (DiehlCook.check_divisible c).
Proof. unfold DiehlCook.check_divisible. emits_auto. Qed.

Lemma dc_provision_not_load c : emits not_load (DiehlCook.provision c).
Proof. unfold DiehlCook.provision, DiehlCook.freeze. emits_auto. Qed.

Lemma dc_load_classifier_not_load c : emits not_load (DiehlCook.load_classifier c).
Proof. unfold DiehlCook.load_classifier. emits_auto. Qed.

Lemma dc_buffers_not_load c : emits not_load (DiehlCook.buffers c).
Proof. unfold DiehlCook.buffers. emits_auto. Qed.

Lemma dc_loop_not_load c labels k s : emits not_load (DiehlCook.loop c labels k s).
Proof.
  unfold DiehlCook.loop, DiehlCook.step, DiehlCook.evaluate, DiehlCook.checkpoint,
    DiehlCook.next.
  emits_auto.
Qed.

Lemma dc_final_flush_not_load c labels s : emits not_load (DiehlCook.final_flush c labels s).
Proof. unfold DiehlCook.final_flush. emits_auto. Qed.

Lemma dc_report_not_load c s : emits not_load (DiehlCook.report c s).
Proof. unfold DiehlCook.report. emits_auto. Qed.

(** Line 81 reads the training split whatever the mode. *)
Lemma dc_load_data_eq c t :
  DiehlCook.load_data c t =
  (t ++ [EvLoadData TrainSplit],
   Ok (map (Qmult (num_val (DiehlCook.intensity c))) <$> (flatten <$> (mnist TrainSplit).1),
       (mnist TrainSplit).2)).
Proof.
  unfold DiehlCook.load_data, DiehlCook.data_split. munfold.
  destruct (mnist TrainSplit). reflexivity.
Qed.

(** The logistic-regression driver, in contrast, reads the split of its mode. *)
Lemma lc_load_data_eq c t :
  LogReg.load_data c t =
  let s := if LogReg.train c then TrainSplit else TestSplit in
  (t ++ [EvLoadData s],
   Ok (LogReg.crop_image (LogReg.crop c) <$>
         (scale_image (num_val (LogReg.intensity c)) <$> (mnist s).1),
       (mnist s).2)).
Proof.
  unfold LogReg.load_data. munfold. simpl.
  destruct (mnist _). reflexivity.
Qed.

Lemma loads_by_quiet {A} (m : M A) : emits not_load m → loads_by m [].
Proof.
  intros Hm t t' a E. rewrite app_nil_r. eapply emits_not_load_loads; eauto.
Qed.

Lemma loads_by_bind {A B} (m : M A) (f : A → M B) l1 l2 :
  loads_by m l1 → (∀ a, loads_by (f a) l2) → loads_by (m ≫= f) (l1 ++ l2).
Proof.
  intros Hm Hf t t' b E. apply bind_ok_inv in E as (a & t1 & E1 & E2).
  rewrite (Hf _ _ _ _ E2), (Hm _ _ _ E1), app_assoc. reflexivity.
Qed.

Lemma dc_load_data_loads c : loads_by (DiehlCook.load_data c) [TrainSplit].
Proof.
  intros t t' a. rewrite dc_load_data_eq. intros [= <- _]. apply loads_app.
Qed.

Lemma dc_setup_loads c : loads_by (DiehlCook.setup c) [TrainSplit].
Proof.
  unfold DiehlCook.setup.
  apply (loads_by_bind _ _ [] [TrainSplit]); [apply loads_by_quiet, dc_check_not_load|].
  intros _. apply (loads_by_bind _ _ [] [TrainSplit]).
  { apply loads_by_quiet. emits_auto. }
  intros _. apply (loads_by_bind _ _ [] [TrainSplit]).
  { apply loads_by_quiet. emits_auto. }
  intros _. apply (loads_by_bind _ _ [] [TrainSplit]).
  { apply loads_by_quiet, dc_provision_not_load. }
  intros net. apply (loads_by_bind _ _ [TrainSplit] []); [apply dc_load_data_loads|].
  intros [images labels]. apply loads_by_quiet.
  apply emits_bind; [apply dc_buffers_not_load|]. intros sr.
  apply emits_bind; [apply dc_load_classifier_not_load|]. intros a. apply emits_ret.
Qed.

Lemma dc_script_loads c : loads_by (DiehlCook.script c) [TrainSplit].
Proof.
  unfold DiehlCook.script, DiehlCook.examples.
  apply (loads_by_bind _ _ [TrainSplit] []).
  - apply (loads_by_bind _ _ [TrainSplit] []); [apply dc_setup_loads|].
    intros [labels s]. apply loads_by_quiet.
    apply emits_bind; [apply dc_loop_not_load|]. intros s'. apply emits_ret.
  - intros [labels s]. apply loads_by_quiet.
    apply emits_bind; [apply dc_final_flush_not_load|]. intros s'.
    apply emits_bind; [apply dc_report_not_load|]. intros _. apply emits_ret.
Qed.

End DataSource.


(** ** Identity strings *)

Section Identity.
Context `{Env}.

Lemma lc_test_params_eq (c1 c2 : LogReg.config) :
  LogReg.params c1 = LogReg.params c2 → LogReg.n_test c1 = LogReg.n_test c2 →
  LogReg.test_params c1 = LogReg.test_params c2.
Proof.
  unfold LogReg.params, LogReg.test_params, LogReg.int. intros E N.
  injection E as -> -> -> -> -> -> -> -> -> -> -> -> -> -> -> -> ->. rewrite N. reflexivity.
Qed.

(** C8. The identity string of a run is a function of the values of the
    configuration parameters alone: two configurations with the same
    parameter values have the same [model_name], hence the same checkpoint
    files, and in the same mode the same curve, result and confusion files. *)
Theorem C8_identity_is_a_function_of_the_parameters
    (c1 c2 : LogReg.config) (d1 d2 : DiehlCook.config) :
  LogReg.params c1 = LogReg.params c2 →
  DiehlCook.params d1 = DiehlCook.params d2 →
  (LogReg.model_name c1 = LogReg.model_name c2
   ∧ LogReg.network_file c1 = LogReg.network_file c2
   ∧ LogReg.auxiliary_file c1 = LogReg.auxiliary_file c2
   ∧ (LogReg.train c1 = LogReg.train c2 →
      LogReg.curves_file c1 = LogReg.curves_file c2
      ∧ LogReg.results_file c1 = LogReg.results_file c2
      ∧ (LogReg.n_test c1 = LogReg.n_test c2 →
         LogReg.confusion_file c1 = LogReg.confusion_file c2)))
  ∧ (DiehlCook.model_name d1 = DiehlCook.model_name d2
     ∧ DiehlCook.network_file d1 = DiehlCook.network_file d2
     ∧ (DiehlCook.train d1 = DiehlCook.train d2 →
        DiehlCook.results_file d1 = DiehlCook.results_file d2)).
Proof.
  intros Ec Ed. split.
  - assert (Hn : LogReg.model_name c1 = LogReg.model_name c2)
      by (unfold LogReg.model_name; rewrite Ec; reflexivity).
    split; [exact Hn|].
    split; [unfold LogReg.network_file; rewrite Hn; reflexivity|].
    split; [unfold LogReg.auxiliary_file; rewrite Hn; reflexivity|].
    intros Et.
    split; [unfold LogReg.curves_file, LogReg.mode; rewrite Ec, Et; reflexivity|].
    split; [unfold LogReg.results_file, LogReg.mode; rewrite Et; reflexivity|].
    intros En. unfold LogReg.confusion_file, LogReg.mode.
    rewrite Ec, Et, (lc_test_params_eq c1 c2 Ec En). reflexivity.
  - assert (Hn : DiehlCook.model_name d1 = DiehlCook.model_name d2)
      by (unfold DiehlCook.model_name; rewrite Ed; reflexivity).
    split; [exact Hn|].
    split; [unfold DiehlCook.network_file; rewrite Hn; reflexivity|].
    intros Et. unfold DiehlCook.results_file. rewrite Et. reflexivity.
Qed.

End Identity.

(** ** Python slices *)

Section Slices.
Context {A : Type}.
Implicit Types l : list A.

Lemma tail_start (m : nat) n :
  0 < n → Z.to_nat (Z.max 0 (- n + Z.of_nat m)) = (m - Z.to_nat n)%nat.
Proof. lia. Qed.

(** [l[-n:]] is the last [n] entries of [l], all of [l] when it has fewer. *)
Lemma slice_tail l n :
  0 < n → Py.slice l (Some (- n)) None = drop (length l - Z.to_nat n) l.
Proof.
  intros Hn. unfold Py.slice, Py.adjust. simpl.
  destruct (- n <? 0) eqn:E; [|apply Z.ltb_ge in E; lia].
  rewrite <- (tail_start (length l) n) by assumption.
  apply take_ge. rewrite length_drop. lia.
Qed.

(** [l[a:b]] for bounds inside the list. *)
Lemma slice_inside l a b :
  0 ≤ a → a ≤ b → b ≤ Z.of_nat (length l) →
  Py.slice l (Some a) (Some b) = take (Z.to_nat (b - a)) (drop (Z.to_nat a) l)
  ∧ Z.of_nat (length (Py.slice l (Some a) (Some b))) = b - a.
Proof.
  intros Ha Hab Hb. unfold Py.slice, Py.adjust. simpl.
  destruct (a <? 0) eqn:Ea; [apply Z.ltb_lt in Ea; lia|].
  destruct (b <? 0) eqn:Eb; [apply Z.ltb_lt in Eb; lia|].
  rewrite !Z.min_l by lia. split; [reflexivity|].
  rewrite length_take, length_drop. lia.
Qed.


End Slices.


(** ** The labels and records of an interval (logistic-regression driver) *)

Section Interval.
Context `{Env}.

(** C3. When the evaluation index [i] is a multiple of the number of
    labels, the labels and the spike records of the interval are the tails
    [labels[-update_interval:]] and [full_spike_record[-update_interval:]]:
    the last [update_interval] entries (all of them when there are fewer),
    obtained without an exception and never empty.  Otherwise both are the
    slices from [i % len(labels) - update_interval] to [i % len(labels)],
    which are the [update_interval] entries before position
    [i % len(labels)] when that position is at least [update_interval]. *)
Theorem C3_wrapped_interval_is_the_tail {A} (c : LogReg.config) (labels : list Z)
    (record : list A) (i : Z) (t : trace) :
  labels ≠ [] →
  0 < LogReg.update_interval c →
  let ui := LogReg.update_interval c in
  let r := i mod LogReg.len labels in
  (r = 0 →
   LogReg.current_interval c labels record i t =
     (t, Ok (drop (length labels - Z.to_nat ui) labels,
             drop (length record - Z.to_nat ui) record))
   ∧ drop (length labels - Z.to_nat ui) labels ≠ []
   ∧ LogReg.len (drop (length labels - Z.to_nat ui) labels) = Z.min ui (LogReg.len labels)
   ∧ LogReg.len (drop (length record - Z.to_nat ui) record) = Z.min ui (LogReg.len record))
  ∧ (r ≠ 0 →
     LogReg.current_interval c labels record i t =
       (t, Ok (Py.slice labels (Some (r - ui)) (Some r),
               Py.slice record (Some (r - ui)) (Some r)))
     ∧ (ui ≤ r →
        Py.slice labels (Some (r - ui)) (Some r)
          = take (Z.to_nat ui) (drop (Z.to_nat (r - ui)) labels)
        ∧ LogReg.len (Py.slice labels (Some (r - ui)) (Some r)) = ui)).
Proof.
  intros Hne Hui ui r.
  assert (HL : 0 < LogReg.len labels).
  { unfold LogReg.len. destruct labels; [congruence | simpl; lia]. }
  assert (Hmod : Py.mod_ i (LogReg.len labels) = Ok r).
  { unfold Py.mod_. destruct (Z.eqb_spec (LogReg.len labels) 0); [lia | reflexivity]. }
  assert (Hr' : 0 ≤ r < LogReg.len labels) by (apply Z.mod_pos_bound; assumption).
  change (0 < ui) in Hui. unfold LogReg.current_interval. fold ui.
  clearbody ui r.
  split; intros Hr.
  - split.
    + erewrite bind_ok by (unfold lift; rewrite Hmod; reflexivity).
      rewrite (proj2 (Z.eqb_eq r 0) Hr). rewrite !slice_tail by assumption. reflexivity.
    + unfold LogReg.len in *. rewrite !length_drop.
      split; [|split; lia].
      intros E. apply (f_equal length) in E. rewrite length_drop in E. simpl in E. lia.
  - split.
    + erewrite bind_ok by (unfold lift; rewrite Hmod; reflexivity).
      rewrite (proj2 (Z.eqb_neq r 0) Hr). reflexivity.
    + intros Hle.
      destruct (slice_inside labels (r - ui) r) as [E1 E2]; [lia | lia | unfold LogReg.len in *; lia |].
      split; [rewrite E1; f_equal; lia | unfold LogReg.len; rewrite E2; lia].
Qed.

End Interval.

(** ** The retry loop (logistic-regression driver) *)

Section Retry.
Context `{Env}.

Lemma double_scales (x : list Q) (k : Q) (y : list Q) :
  Forall2 (λ p q, q == k * p)%Q x y → Forall2 (λ p q, q == (2 * k) * p)%Q x (double y).
Proof.
  unfold double. induction 1 as [|p q x y E _ IH]; simpl; constructor; [|exact IH].
  rewrite E. ring.
Qed.

Lemma scales_refl (x : list Q) : Forall2 (λ p q, q == 1 * p)%Q x x.
Proof. induction x; constructor; [ring | assumption]. Qed.

Lemma getitem_nonempty {A} (l : list A) k x : Py.getitem l k = Ok x → LogReg.len l ≠ 0.
Proof.
  destruct l; [|unfold LogReg.len; simpl; lia].
  unfold Py.getitem, Py.index. simpl. destruct (_ && _); discriminate.
Qed.

Lemma present_eq fuel c images i net t im :
  Py.getitem images (i mod LogReg.len images) = Ok im →
  LogReg.present fuel c images i net t =
  while_ fuel LogReg.retry_cond (LogReg.retry_body c i)
    (0, flatten im, lc_run net (flatten im) (LogReg.time c)) (t ++ [EvRun i (flatten im)]).
Proof.
  intros G. unfold LogReg.present.
  erewrite bind_ok; cycle 1.
  { unfold lift, Py.mod_. pose proof (getitem_nonempty _ _ _ G) as N.
    apply Z.eqb_neq in N. rewrite N. reflexivity. }
  erewrite bind_ok by (unfold lift; rewrite G; reflexivity).
  reflexivity.
Qed.

Lemma retry_once fuel c i retries x net t :
  spikes_sum (lc_spikes net) < 5 → retries < 3 →
  while_ (S fuel) LogReg.retry_cond (LogReg.retry_body c i) (retries, x, net) t =
  while_ fuel LogReg.retry_cond (LogReg.retry_body c i)
    (retries + 1, double x, lc_run net (double x) (LogReg.time c)) (t ++ [EvRun i (double x)]).
Proof.
  intros Hs Hr. simpl.
  rewrite (proj2 (Z.ltb_lt _ _) Hs), (proj2 (Z.ltb_lt _ _) Hr). reflexivity.
Qed.

Lemma retry_stop fuel c i retries x net t :
  5 ≤ spikes_sum (lc_spikes net) ∨ 3 ≤ retries →
  while_ fuel LogReg.retry_cond (LogReg.retry_body c i) (retries, x, net) t =
  (t, Ok (retries, x, net)).
Proof.
  intros Hs.
  assert (E : LogReg.retry_cond (retries, x, net) = false).
  { simpl. apply andb_false_iff. rewrite !Z.ltb_ge. exact Hs. }
  destruct fuel; simpl in *; rewrite E; reflexivity.
Qed.

(** The loop never makes more than three retries, and with fuel for three
    it returns. *)
Lemma retry_total fuel c i retries x net t :
  0 ≤ retries ≤ 3 → (Z.to_nat (3 - retries) ≤ fuel)%nat →
  ∃ r' x' net' new,
    while_ fuel LogReg.retry_cond (LogReg.retry_body c i) (retries, x, net) t
      = (t ++ new, Ok (r', x', net'))
    ∧ retries ≤ r' ≤ 3
    ∧ Forall (λ e, ∃ y, e = EvRun i y) new.
Proof.
  revert retries x net t. induction fuel as [|fuel IH]; intros retries x net t Hr Hf.
  - exists retries, x, net, []. rewrite retry_stop by lia. rewrite app_nil_r. auto with lia.
  - destruct (Z.lt_ge_cases (spikes_sum (lc_spikes net)) 5) as [Hs|Hs];
      [destruct (Z.lt_ge_cases retries 3) as [Hr3|Hr3]|].
    + rewrite retry_once by assumption.
      destruct (IH (retries + 1) (double x) (lc_run net (double x) (LogReg.time c))
                  (t ++ [EvRun i (double x)])) as (r' & x' & net' & new & E & B & F); [lia|lia|].
      exists r', x', net', (EvRun i (double x) :: new). rewrite E, <- app_assoc.
      split; [reflexivity|]. split; [lia|]. constructor; eauto.
    + exists retries, x, net, []. rewrite retry_stop by lia. rewrite app_nil_r. auto with lia.
    + exists retries, x, net, []. rewrite retry_stop by lia. rewrite app_nil_r. auto with lia.
Qed.

(** Three attempts in a row with fewer than five spikes: three retries. *)
Lemma retry_exhausted fuel c i x0 net t :
  (3 ≤ fuel)%nat →
  let T := LogReg.time c in
  let x1 := double x0 in let x2 := double x1 in let x3 := double x2 in
  let n0 := lc_run net x0 T in let n1 := lc_run n0 x1 T in
  let n2 := lc_run n1 x2 T in let n3 := lc_run n2 x3 T in
  spikes_sum (lc_spikes n0) < 5 → spikes_sum (lc_spikes n1) < 5 →
  spikes_sum (lc_spikes n2) < 5 →
  while_ fuel LogReg.retry_cond (LogReg.retry_body c i) (0, x0, n0) t =
  (t ++ [EvRun i x1; EvRun i x2; EvRun i x3], Ok (3, x3, n3)).
Proof.
  intros Hf T x1 x2 x3 n0 n1 n2 n3 H0' H1' H2'.
  destruct fuel as [|[|[|fuel]]]; try lia.
  rewrite retry_once by (assumption || lia).
  rewrite retry_once by (assumption || lia).
  rewrite retry_once by (assumption || lia).
  rewrite retry_stop by (right; lia).
  rewrite <- !app_assoc. reflexivity.
Qed.

End Retry.


Section Recording.
Context `{Env}.

Lemma setitem_ok {A} (l : list A) k x :
  0 ≤ k < Z.of_nat (length l) → Py.setitem l k x = Ok (<[Z.to_nat k := x]> l).
Proof.
  intros Hk. unfold Py.setitem, Py.index.
  destruct (k <? 0) eqn:E; [apply Z.ltb_lt in E; lia|].
  rewrite (proj2 (Z.leb_le 0 k)), (proj2 (Z.ltb_lt k _)) by lia. reflexivity.
Qed.

Lemma getitem_ok {A} (l : list A) k :
  0 ≤ k < Z.of_nat (length l) → ∃ x, Py.getitem l k = Ok x ∧ l !! Z.to_nat k = Some x.
Proof.
  intros Hk. unfold Py.getitem, Py.index.
  destruct (k <? 0) eqn:E; [apply Z.ltb_lt in E; lia|].
  rewrite (proj2 (Z.leb_le 0 k)), (proj2 (Z.ltb_lt k _)) by lia. simpl.
  destruct (lookup_lt_is_Some_2 l (Z.to_nat k)) as [x Hx]; [lia|].
  rewrite Hx. eauto.
Qed.

Lemma mod_ok a b : b ≠ 0 → Py.mod_ a b = Ok (a mod b).
Proof. intros Hb. unfold Py.mod_. rewrite (proj2 (Z.eqb_neq b 0) Hb). reflexivity. Qed.

(** Lines 217-239 of the logistic-regression driver. *)
Lemma lc_record_spikes_eq c i s net t :
  0 < LogReg.update_interval c →
  LogReg.len (LogReg.spike_record s) = LogReg.update_interval c →
  0 ≤ i < LogReg.len (LogReg.full_spike_record s) →
  LogReg.record_spikes c i s net t =
  (t ++ [EvRecord (i mod LogReg.update_interval c) i (lc_spikes net)],
   Ok (LogReg.State (lc_reset net) (LogReg.logreg_model s)
         (<[Z.to_nat (i mod LogReg.update_interval c) := lc_spikes net]> (LogReg.spike_record s))
         (<[Z.to_nat i := spikes_sum0 (lc_spikes net)]> (LogReg.full_spike_record s))
         (LogReg.curves s) (LogReg.predictions s) (LogReg.best_accuracy s) (Some i))).
Proof.
  intros Hui Hlen Hi. unfold LogReg.record_spikes, LogReg.len in *.
  erewrite bind_ok by (unfold lift; rewrite mod_ok by lia; reflexivity).
  erewrite bind_ok; cycle 1.
  { unfold lift. rewrite setitem_ok; [reflexivity|].
    rewrite Hlen. apply Z.mod_pos_bound. assumption. }
  erewrite bind_ok by reflexivity.
  erewrite bind_ok by (unfold lift; rewrite setitem_ok by assumption; reflexivity).
  reflexivity.
Qed.

(** C4. An example whose first three attempts (the initial presentation
    and the first two retries) leave the output layer without a spike is
    presented four times in all: the loop makes exactly three retries, on
    the image doubled once, twice and three times (2, 4 and 8 times the
    original intensities), and then stops whatever the last attempt
    produced; the spikes of that last attempt are what is recorded, in slot
    [i % update_interval] and at position [i], without an exception. *)
Theorem C4_three_retries_with_doubled_intensity
    (fuel : nat) (c : LogReg.config) (images : list image) (i : Z)
    (net : lc_network) (t : trace) (im : image) :
  (3 ≤ fuel)%nat →
  Py.getitem images (i mod LogReg.len images) = Ok im →
  let T := LogReg.time c in
  let x0 := flatten im in
  let x1 := double x0 in let x2 := double x1 in let x3 := double x2 in
  let n0 := lc_run net x0 T in let n1 := lc_run n0 x1 T in
  let n2 := lc_run n1 x2 T in let n3 := lc_run n2 x3 T in
  spikes_sum (lc_spikes n0) = 0 →
  spikes_sum (lc_spikes n1) = 0 →
  spikes_sum (lc_spikes n2) = 0 →
  LogReg.present fuel c images i net t =
    (t ++ [EvRun i x0; EvRun i x1; EvRun i x2; EvRun i x3], Ok (3, x3, n3))
  ∧ Forall2 (λ p q, q == 2 * p)%Q x0 x1
  ∧ Forall2 (λ p q, q == 4 * p)%Q x0 x2
  ∧ Forall2 (λ p q, q == 8 * p)%Q x0 x3
  ∧ ∀ s t',
      0 < LogReg.update_interval c →
      LogReg.len (LogReg.spike_record s) = LogReg.update_interval c →
      0 ≤ i < LogReg.len (LogReg.full_spike_record s) →
      ∃ s', LogReg.record_spikes c i s n3 t' =
              (t' ++ [EvRecord (i mod LogReg.update_interval c) i (lc_spikes n3)], Ok s')
            ∧ LogReg.spike_record s' !! Z.to_nat (i mod LogReg.update_interval c)
                = Some (lc_spikes n3)
            ∧ LogReg.full_spike_record s' !! Z.to_nat i = Some (spikes_sum0 (lc_spikes n3)).
Proof.
  intros Hf G T x0 x1 x2 x3 n0 n1 n2 n3 S0 S1 S2.
  split.
  { rewrite (present_eq fuel c images i net t im G).
    rewrite (retry_exhausted fuel c i x0 net) by (assumption || (fold T x0 x1 x2 n0 n1 n2; lia)).
    rewrite <- app_assoc. reflexivity. }
  pose proof (double_scales x0 1 x0 (scales_refl x0)) as D1.
  pose proof (double_scales _ _ _ D1) as D2.
  pose proof (double_scales _ _ _ D2) as D3.
  split; [exact D1|]. split; [exact D2|]. split; [exact D3|].
  intros s t' Hui Hlen Hi. eexists.
  rewrite lc_record_spikes_eq by assumption. split; [reflexivity|]. simpl.
  split.
  - apply list_lookup_insert_eq.
    unfold LogReg.len in Hlen. pose proof (Z.mod_pos_bound i _ Hui). lia.
  - apply list_lookup_insert_eq. unfold LogReg.len in Hi. lia.
Qed.

End Recording.

(** ** The labels of the confusion matrix (logistic-regression driver) *)

Section Labels.
Context `{Env}.







End Labels.


(** ** Loops *)

Section LoopFacts.
Context `{Carriers}.

(** An invariant of a [for] loop over a range, for the runs that return. *)
Lemma for_each_range_inv {S} (body : Z → S → M S) (Inv : Z → S → trace → Prop) n s t s' t' :
  0 ≤ n →
  for_each body (Py.range n) s t = (t', Ok s') →
  Inv 0 s t →
  (∀ k s1 t1 s2 t2, 0 ≤ k < n → Inv k s1 t1 → body k s1 t1 = (t2, Ok s2) → Inv (k + 1) s2 t2) →
  Inv n s' t'.
Proof.
  intros Hn. revert s' t'. pattern n. apply natlike_ind; [| |exact Hn]; clear n Hn.
  - intros s' t' E I0 _. rewrite for_each_range_0 in E by lia. injection E as <- <-. exact I0.
  - intros n Hn IH s' t' E I0 Hstep. unfold Z.succ in *.
    rewrite for_each_range_succ in E by assumption.
    apply bind_ok_inv in E as (s1 & t1 & E1 & E2).
    apply (Hstep n s1 t1); [lia | | exact E2].
    apply IH; [exact E1 | exact I0 |]. intros k; intros. eapply Hstep; eauto. lia.
Qed.

(** A loop that returns for [n] iterations returned for every [k <= n]. *)
Lemma for_each_range_prefix {S} (body : Z → S → M S) n k s t s' t' :
  0 ≤ k ≤ n →
  for_each body (Py.range n) s t = (t', Ok s') →
  ∃ s1 t1, for_each body (Py.range k) s t = (t1, Ok s1).
Proof.
  intros Hk E. unfold Py.range in *.
  replace n with (k + (n - k)) in E by lia.
  rewrite seqZ_app, for_each_app in E by lia.
  apply bind_ok_inv in E as (s1 & t1 & E1 & _). eauto.
Qed.

(** An invariant of a [while] loop, for the runs that return. *)
Lemma while_inv {S} (cond : S → bool) (body : S → M S) (Inv : S → trace → Prop) fuel s t s' t' :
  while_ fuel cond body s t = (t', Ok s') →
  Inv s t →
  (∀ s1 t1 s2 t2, Inv s1 t1 → cond s1 = true → body s1 t1 = (t2, Ok s2) → Inv s2 t2) →
  Inv s' t' ∧ cond s' = false.
Proof.
  intros E I0 Hstep. revert s t E I0. induction fuel as [|fuel IH]; intros s t E I0; simpl in E.
  - destruct (cond s) eqn:C; [discriminate|]. injection E as <- <-. auto.
  - destruct (cond s) eqn:C; [|injection E as <- <-; auto].
    apply bind_ok_inv in E as (s1 & t1 & E1 & E2). eapply IH; eauto.
Qed.

Lemma records_app (t1 t2 : trace) : records (t1 ++ t2) = records t1 ++ records t2.
Proof. unfold records. apply omap_app. Qed.

Lemma evaluations_app (t1 t2 : trace) : evaluations (t1 ++ t2) = evaluations t1 ++ evaluations t2.
Proof. unfold evaluations. apply omap_app. Qed.

End LoopFacts.

Section Bookkeeping.
Context `{Env}.

Lemma bookkeeping_records (new : trace) : Forall bookkeeping new → records new = [].
Proof.
  induction 1 as [|e new He _ IH]; [reflexivity|].
  destruct e; simpl in *; try contradiction; exact IH.
Qed.

Lemma bookkeeping_evaluations (new : trace) : Forall bookkeeping new → evaluations new = [].
Proof.
  induction 1 as [|e new He _ IH]; [reflexivity|].
  destruct e; simpl in *; try contradiction; exact IH.
Qed.

Lemma emits_bookkeeping {A} (m : M A) t t' r :
  emits bookkeeping m → m t = (t', r) →
  records t' = records t ∧ evaluations t' = evaluations t.
Proof.
  intros Hm E. destruct (Hm _ _ _ E) as (new & -> & F).
  rewrite records_app, evaluations_app.
  rewrite (bookkeeping_records _ F), (bookkeeping_evaluations _ F), !app_nil_r.
  auto.
Qed.

(** Computations that leave the trace alone. *)
Lemma lasts_pure cs : ∃ r, ∀ t : trace, lasts cs t = (t, r).
Proof.
  unfold lasts. induction cs as [|kv cs [r IH]]; simpl.
  - exists (Ok []). reflexivity.
  - destruct (Py.getitem kv.2 (-1)) as [x|e|] eqn:G.
    + destruct r as [xs|e|].
      * exists (Ok (x :: xs)). intros t. rewrite bind_eq. unfold lift.
        rewrite bind_eq, IH. reflexivity.
      * exists (Raise e). intros t. rewrite bind_eq. unfold lift.
        rewrite bind_eq, IH. reflexivity.
      * exists Timeout. intros t. rewrite bind_eq. unfold lift.
        rewrite bind_eq, IH. reflexivity.
    + exists (Raise e). intros t. rewrite bind_eq. unfold lift. reflexivity.
    + exists Timeout. intros t. rewrite bind_eq. unfold lift. reflexivity.
Qed.

Lemma lc_present_bookkeeping fuel c images i net :
  emits bookkeeping (LogReg.present fuel c images i net).
Proof. unfold LogReg.present, LogReg.retry_body. emits_auto. Qed.

Lemma lc_checkpoint_bookkeeping c s : emits bookkeeping (LogReg.checkpoint c s).
Proof. unfold LogReg.checkpoint. emits_auto. Qed.

End Bookkeeping.


(** ** The best-accuracy watermark *)

Section Watermark.
Context `{Env}.
Context {order : AccOrder}.

Lemma acc_not_gt_trans x y z :
  acc_gt x y = false → acc_gt y z = false → acc_gt x z = false.
Proof.
  intros Hxy Hyz. destruct (acc_gt x z) eqn:E; [|reflexivity].
  destruct (acc_gt_cotrans x y z E); congruence.
Qed.

Lemma fold_max (l : list Acc) (x : Acc) :
  let m := fold_left (λ m y, if acc_gt y m then y else m) l x in
  m ∈ x :: l ∧ acc_gt x m = false ∧ ∀ y, y ∈ l → acc_gt y m = false.
Proof.
  revert x. induction l as [|y l IH]; intros x; cbn zeta; simpl fold_left.
  - split; [left|]. split; [apply acc_gt_irrefl|]. intros y Hy. inversion Hy.
  - specialize (IH (if acc_gt y x then y else x)). cbn zeta in IH.
    destruct (acc_gt y x) eqn:Eyx; destruct IH as (Hin & Hx' & Hl);
      set (m := fold_left _ l _) in *.
    + split; [right; exact Hin|]. split.
      * destruct (acc_gt x m) eqn:E; [|reflexivity].
        destruct (acc_gt_cotrans x y m E) as [Hxy|Hym]; [|congruence].
        pose proof (acc_gt_trans _ _ _ Hxy Eyx) as C. rewrite acc_gt_irrefl in C. discriminate.
      * intros z Hz. apply elem_of_cons in Hz as [->|Hz]; auto.
    + split.
      { apply elem_of_cons in Hin as [->|Hin]; [left | right; right; exact Hin]. }
      split; [exact Hx'|].
      intros z Hz. apply elem_of_cons in Hz as [->|Hz]; auto.
      destruct (acc_gt y m) eqn:E; [|reflexivity].
      destruct (acc_gt_cotrans y x m E); congruence.
Qed.

(** [max(l)] is an entry of [l] that no entry exceeds. *)
Lemma max_spec (l : list Acc) (t t' : trace) m :
  max_ l t = (t', Ok m) → t' = t ∧ m ∈ l ∧ ∀ y, y ∈ l → acc_gt y m = false.
Proof.
  unfold max_. destruct l as [|x l]; [discriminate|]. intros [= <- <-].
  split; [reflexivity|].
  destruct (fold_max l x) as (Hin & Hx & Hl). split; [exact Hin|].
  intros y Hy. apply elem_of_cons in Hy as [->|Hy]; auto.
Qed.

(** A new maximum that some entry above the watermark forces is above it. *)
Lemma max_above (l : list Acc) (best m : Acc) :
  any_gt l best = true → m ∈ l → (∀ y, y ∈ l → acc_gt y m = false) →
  acc_gt m best = true ∧ acc_gt best m = false.
Proof.
  unfold any_gt. intros Hany Hm Hmax.
  apply existsb_exists in Hany as (x & Hx & Hgt). apply list_elem_of_In in Hx.
  pose proof (Hmax x Hx) as Hxm.
  destruct (acc_gt_cotrans x m best Hgt) as [C|Hmb]; [congruence|].
  split; [exact Hmb|].
  destruct (acc_gt best m) eqn:E; [|reflexivity].
  pose proof (acc_gt_trans _ _ _ Hmb E) as C. rewrite acc_gt_irrefl in C. discriminate.
Qed.

End Watermark.

Section Inversions.
Context `{Carriers}.

Lemma lift_ok_inv {A} (r : result A) (t t' : trace) a :
  lift r t = (t', Ok a) → t' = t ∧ r = Ok a.
Proof. unfold lift. intros [= <- <-]. auto. Qed.

Lemma mod_ok_inv a b r : Py.mod_ a b = Ok r → b ≠ 0 ∧ r = a mod b.
Proof.
  unfold Py.mod_. destruct (Z.eqb_spec b 0); [discriminate|]. intros [= <-]. auto.
Qed.

Lemma emit_eq (e : event) (t : trace) : emit e t = (t ++ [e], Ok tt).
Proof. reflexivity. Qed.

Lemma read_ok_inv {A} e (v : option A) (t t' : trace) a :
  read e v t = (t', Ok a) → t' = t ∧ v = Some a.
Proof. destruct v; simpl; [intros [= <- <-]; auto | discriminate]. Qed.

Lemma setitem_inv {A} (l l' : list A) k x :
  0 ≤ k → Py.setitem l k x = Ok l' →
  k < Z.of_nat (length l) ∧ l' = <[Z.to_nat k := x]> l.
Proof.
  intros Hk. unfold Py.setitem, Py.index.
  destruct (k <? 0) eqn:E; [apply Z.ltb_lt in E; lia|].
  destruct (0 <=? k); simpl; [|discriminate].
  destruct (Z.ltb_spec k (Z.of_nat (length l))); [|discriminate].
  intros [= <-]. auto.
Qed.

End Inversions.


(** ** The steps of the logistic-regression driver *)

Section LogRegSteps.
Context `{Env}.

(** Lines 184-194, case by case. *)
Lemma lc_checkpoint_inv c s t t' s' :
  LogReg.checkpoint c s t = (t', Ok s') →
  ∃ xs best,
    lasts (LogReg.curves s) t = (t, Ok xs)
    ∧ LogReg.best_accuracy s = Some best
    ∧ ((any_gt xs best = true
        ∧ t' = t ++ [EvSaveNetwork (LogReg.network_file c); EvSaveAux (LogReg.auxiliary_file c)]
        ∧ ∃ m, max_ xs t' = (t', Ok m) ∧ s' = lc_with_best s (Some m))
       ∨ (any_gt xs best = false ∧ t' = t ∧ s' = s)).
Proof.
  unfold LogReg.checkpoint. intros E.
  destruct (lasts_pure (LogReg.curves s)) as [r Hr].
  apply bind_ok_inv in E as (xs & t1 & E1 & E). rewrite Hr in E1. injection E1 as <- ->.
  apply bind_ok_inv in E as (best & t1 & E1 & E). apply read_ok_inv in E1 as [-> Hb].
  exists xs, best. split; [apply Hr|]. split; [exact Hb|].
  destruct (any_gt xs best).
  - left. split; [reflexivity|].
    apply bind_ok_inv in E as ([] & t1 & E1 & E). rewrite emit_eq in E1. injection E1 as <-.
    apply bind_ok_inv in E as ([] & t1 & E1 & E). rewrite emit_eq in E1. injection E1 as <-.
    apply bind_ok_inv in E as (m & t1 & E1 & E).
    assert (t1 = (t ++ [EvSaveNetwork (LogReg.network_file c)]) ++ [EvSaveAux (LogReg.auxiliary_file c)])
      as -> by (destruct xs; [discriminate | injection E1 as <- _; reflexivity]).
    injection E as <- <-. rewrite <- app_assoc. simpl. rewrite <- app_assoc in E1. simpl in E1.
    split; [reflexivity|]. exists m. split; [exact E1 | reflexivity].
  - right. injection E as <- <-. auto.
Qed.

(** Lines 163-199: what an evaluation changes. *)
Lemma lc_evaluate_inv c labels i s t t' s' :
  LogReg.evaluate c labels i s t = (t', Ok s') →
  ∃ a new s1 t1 s2 t2,
    t' = t ++ EvEvaluate i :: new ∧ Forall bookkeeping new
    ∧ LogReg.network s' = LogReg.network s
    ∧ LogReg.spike_record s' = LogReg.spike_record s
    ∧ LogReg.full_spike_record s' = LogReg.full_spike_record s
    ∧ LogReg.var_i s' = LogReg.var_i s
    ∧ LogReg.curves s' = (λ kv, (kv.1, kv.2 ++ [a])) <$> LogReg.curves s
    ∧ LogReg.best_accuracy s1 = LogReg.best_accuracy s
    ∧ LogReg.curves s1 = LogReg.curves s'
    ∧ LogReg.best_accuracy s' = LogReg.best_accuracy s2
    ∧ (if LogReg.train c then LogReg.checkpoint c s1 t1 = (t2, Ok s2) else s2 = s1).
Proof.
  unfold LogReg.evaluate. intros E.
  apply bind_ok_inv in E as ([cur_labels cur_record] & t0 & E0 & E).
  assert (t0 = t) as ->.
  { unfold LogReg.current_interval in E0.
    apply bind_ok_inv in E0 as (r & tr & Er & E0). apply lift_ok_inv in Er as [-> _].
    destruct (r =? 0); injection E0 as <- _; reflexivity. }
  unfold LogReg.update_curves in E.
  apply bind_ok_inv in E as ([] & t1 & E1 & E). rewrite emit_eq in E1. injection E1 as <-.
  apply bind_ok_inv in E as ([] & t1 & E1 & E). rewrite emit_eq in E1. injection E1 as <-.
  set (a := accuracy cur_labels (logreg_predict cur_record (LogReg.logreg_model s))) in *.
  destruct (LogReg.train c).
  - apply bind_ok_inv in E as (s2 & t2 & E2 & E).
    apply bind_ok_inv in E as ([] & t3 & E3 & E). rewrite emit_eq in E3. injection E3 as <-.
    injection E as <- <-.
    destruct (lc_checkpoint_bookkeeping c _ _ _ _ E2) as (new & -> & F).
    match type of E2 with LogReg.checkpoint _ ?s1 ?t1 = _ =>
      exists a, (EvSaveCurves (LogReg.curves_file c) :: new ++ [EvRefit i]), s1, t1, s2,
        (t1 ++ new)
    end.
    assert (Hframe : LogReg.network s2 = LogReg.network s
                     ∧ LogReg.spike_record s2 = LogReg.spike_record s
                     ∧ LogReg.full_spike_record s2 = LogReg.full_spike_record s
                     ∧ LogReg.var_i s2 = LogReg.var_i s
                     ∧ LogReg.curves s2 = (λ kv, (kv.1, kv.2 ++ [a])) <$> LogReg.curves s).
    { apply lc_checkpoint_inv in E2 as (xs & best & _ & _ & [(_ & _ & m & _ & ->)|(_ & _ & ->)]);
        simpl; auto. }
    destruct Hframe as (F1 & F2 & F3 & F4 & F5). simpl.
    split; [rewrite <- !app_assoc; reflexivity|].
    split.
    { constructor; [exact I|]. apply Forall_app. split; [exact F|].
      constructor; [exact I|constructor]. }
    split; [exact F1|]. split; [exact F2|]. split; [exact F3|]. split; [exact F4|].
    split; [exact F5|]. split; [reflexivity|]. split; [symmetry; exact F5|].
    split; [reflexivity | exact E2].
  - injection E as Et Es.
    exists a, [EvSaveCurves (LogReg.curves_file c)], s', t, s', t. subst t' s'.
    split; [rewrite <- !app_assoc; reflexivity|]. simpl.
    split; [constructor; [exact I|constructor]|].
    repeat (split; [reflexivity|]). reflexivity.
Qed.

(** Lines 217-239, for the runs that return. *)
Lemma lc_record_spikes_inv c i s net t t' s' :
  0 < LogReg.update_interval c →
  LogReg.len (LogReg.spike_record s) = LogReg.update_interval c →
  0 ≤ i →
  LogReg.record_spikes c i s net t = (t', Ok s') →
  i < LogReg.len (LogReg.full_spike_record s)
  ∧ t' = t ++ [EvRecord (i mod LogReg.update_interval c) i (lc_spikes net)]
  ∧ s' = LogReg.State (lc_reset net) (LogReg.logreg_model s)
           (<[Z.to_nat (i mod LogReg.update_interval c) := lc_spikes net]> (LogReg.spike_record s))
           (<[Z.to_nat i := spikes_sum0 (lc_spikes net)]> (LogReg.full_spike_record s))
           (LogReg.curves s) (LogReg.predictions s) (LogReg.best_accuracy s) (Some i).
Proof.
  intros Hui Hlen Hi E.
  assert (Hlt : i < LogReg.len (LogReg.full_spike_record s)).
  { unfold LogReg.record_spikes in E.
    apply bind_ok_inv in E as (slot & t1 & _ & E).
    apply bind_ok_inv in E as (sr & t2 & _ & E).
    apply bind_ok_inv in E as ([] & t3 & _ & E).
    apply bind_ok_inv in E as (full & t4 & E4 & E).
    apply lift_ok_inv in E4 as [_ E4]. apply setitem_inv in E4 as [Hlt _]; assumption. }
  split; [exact Hlt|].
  rewrite lc_record_spikes_eq in E by (assumption || lia).
  injection E as <- <-. auto.
Qed.

(** Lines 158-239, for the runs that return. *)
Lemma lc_step_inv fuel c images labels i s t t' s' :
  LogReg.step fuel c images labels i s t = (t', Ok s') →
  ∃ s1 t1 t2 retries x net,
    LogReg.update_interval c ≠ 0
    ∧ (if (i mod LogReg.update_interval c =? 0) && (0 <? i)
       then LogReg.evaluate c labels i s t = (t1, Ok s1)
       else t1 = t ∧ s1 = s)
    ∧ LogReg.present fuel c images i (LogReg.network s1) t1 = (t2, Ok (retries, x, net))
    ∧ LogReg.record_spikes c i s1 net t2 = (t', Ok s').
Proof.
  unfold LogReg.step. intros E.
  apply bind_ok_inv in E as (r0 & t0 & E0 & E). apply lift_ok_inv in E0 as [-> _].
  apply bind_ok_inv in E as (r & t0 & E0 & E). apply lift_ok_inv in E0 as [-> Er].
  apply mod_ok_inv in Er as [Hui ->].
  apply bind_ok_inv in E as (s1 & t1 & E1 & E).
  apply bind_ok_inv in E as ([[retries x] net] & t2 & E2 & E).
  exists s1, t1, t2, retries, x, net.
  split; [exact Hui|]. split; [|split; assumption].
  destruct (_ && _); [exact E1|]. injection E1 as <- <-. auto.
Qed.

End LogRegSteps.


(** ** The circular buffer and the evaluation points *)

Section Buffer.
Context `{Env}.

Lemma last_record_snoc slot (t : trace) s i d :
  last_record slot (t ++ [EvRecord s i d]) =
  if s =? slot then Some (i, d) else last_record slot t.
Proof.
  unfold last_record. rewrite records_app. simpl. rewrite omap_app. simpl.
  destruct (s =? slot); simpl.
  - apply last_snoc.
  - rewrite app_nil_r. reflexivity.
Qed.

Lemma last_record_bookkeeping slot (t new : trace) :
  Forall bookkeeping new → last_record slot (t ++ new) = last_record slot t.
Proof.
  intros F. unfold last_record. rewrite records_app, (bookkeeping_records _ F), app_nil_r.
  reflexivity.
Qed.

Lemma last_record_evaluate slot (t new : trace) i :
  Forall bookkeeping new →
  last_record slot (t ++ EvEvaluate i :: new) = last_record slot t.
Proof.
  intros F. unfold last_record. rewrite records_app. simpl.
  rewrite (bookkeeping_records _ F), app_nil_r. reflexivity.
Qed.

(** Events that are not buffer writes do not change what the buffer holds. *)
Lemma buffer_holds_frame ui k buffer (t new : trace) :
  records new = [] → buffer_holds ui k buffer t → buffer_holds ui k buffer (t ++ new).
Proof.
  intros Hnew (Hlen & Hrec & Hslots). split; [exact Hlen|]. split.
  - rewrite records_app, Hnew, app_nil_r. exact Hrec.
  - intros slot Hs. specialize (Hslots slot Hs).
    assert (E : last_record slot (t ++ new) = last_record slot t).
    { unfold last_record. rewrite records_app, Hnew, app_nil_r. reflexivity. }
    rewrite E. destruct (last_record slot t) as [[j d]|]; [|exact Hslots].
    destruct Hslots as (? & Hin & ?). split; [assumption|]. split; [|assumption].
    apply elem_of_app. left. exact Hin.
Qed.

(** Writing example [k] into slot [k % ui] keeps the buffer in step. *)
Lemma buffer_holds_write ui k buffer (t : trace) d :
  0 < ui → 0 ≤ k →
  buffer_holds ui k buffer t →
  buffer_holds ui (k + 1) (<[Z.to_nat (k mod ui) := d]> buffer)
    (t ++ [EvRecord (k mod ui) k d]).
Proof.
  intros Hui Hk (Hlen & Hrec & Hslots).
  pose proof (Z.mod_pos_bound k ui Hui) as Hm.
  split; [rewrite length_insert; exact Hlen|]. split.
  - rewrite records_app, fmap_app, Hrec, range_succ, fmap_app by assumption. reflexivity.
  - intros slot Hs. rewrite last_record_snoc. specialize (Hslots slot Hs).
    destruct (Z.eqb_spec (k mod ui) slot) as [<-|Hne].
    + split; [apply list_lookup_insert_eq; lia|].
      split; [apply elem_of_app; right; left|]. lia.
    + assert (Hne' : Z.to_nat (k mod ui) ≠ Z.to_nat slot) by lia.
      rewrite list_lookup_insert_ne by exact Hne'.
      destruct (last_record slot t) as [[j d']|].
      * destruct Hslots as (Hl & Hin & Hj & Hjm & Hrecent).
        split; [exact Hl|]. split; [apply elem_of_app; left; exact Hin|].
        split; [lia|]. split; [exact Hjm|].
        assert (j ≠ k - ui); [|lia].
        intros ->. apply Hne. rewrite <- Hjm.
        replace k with (k - ui + 1 * ui) at 1 by lia. apply Z.mod_add. lia.
      * destruct Hslots as [Hl Hle]. split; [exact Hl|].
        assert (k ≠ slot); [|lia].
        intros ->. apply Hne. apply Z.mod_small. lia.
Qed.

(** Before the first example the buffer is all zeros. *)
Lemma buffer_holds_init ui (t : trace) :
  0 ≤ ui → records t = [] →
  buffer_holds ui 0 (replicate (Z.to_nat ui) spikes_zero) t.
Proof.
  intros Hui Hrec. split; [rewrite length_replicate; lia|]. split.
  - rewrite Hrec. reflexivity.
  - intros slot Hs. unfold last_record. rewrite Hrec. simpl.
    split; [|lia]. apply lookup_replicate_2. lia.
Qed.

Lemma filter_boundary_succ ui k :
  0 ≤ k →
  filter (λ i, boundary ui i = true) (Py.range (k + 1)) =
  filter (λ i, boundary ui i = true) (Py.range k) ++ (if boundary ui k then [k] else []).
Proof.
  intros Hk. rewrite range_succ, filter_app by assumption. f_equal.
  rewrite filter_cons, filter_nil. destruct (boundary ui k); reflexivity.
Qed.

(** There are [(k - 1) / ui] evaluation points among the first [k] indices. *)
Lemma count_boundaries ui k :
  0 < ui → 1 ≤ k →
  Z.of_nat (length (filter (λ i, boundary ui i = true) (Py.range k))) = (k - 1) / ui.
Proof.
  intros Hui Hk. replace k with (Z.succ (k - 1)) at 1 by lia.
  assert (Hk1 : 0 ≤ k - 1) by lia. revert Hk1. generalize (k - 1). clear k Hk.
  intros k Hk. pattern k. apply natlike_ind; [| |exact Hk]; clear k Hk.
  - change (Z.succ 0) with (0 + 1). rewrite filter_boundary_succ by lia.
    replace (boundary ui 0) with false
      by (unfold boundary; rewrite Z.ltb_irrefl, andb_false_r; reflexivity).
    rewrite Z.div_0_l by lia. reflexivity.
  - intros k Hk IH. unfold Z.succ in *. rewrite filter_boundary_succ by lia.
    rewrite length_app, Nat2Z.inj_add, IH. replace (k + 1 - 1) with k by lia.
    replace (k + 1 + 1 - 1) with (k + 1) by lia.
    unfold boundary.
    destruct (Z.eqb_spec ((k + 1) mod ui) 0) as [E|E].
    + replace (0 <? k + 1) with true by (symmetry; apply Z.ltb_lt; lia). simpl.
      apply Z.mod_divide in E as [q Hq]; [|lia].
      rewrite Hq, Z.div_mul by lia.
      replace k with ((q - 1) * ui + (ui - 1)) by lia.
      rewrite Z.div_add_l, (Z.div_small (ui - 1)) by lia. lia.
    + simpl. rewrite Z.add_0_r.
      pose proof (Z.div_mod (k + 1) ui ltac:(lia)) as D.
      pose proof (Z.mod_pos_bound (k + 1) ui Hui) as B.
      symmetry. apply (Z.div_unique k ui ((k + 1) / ui) ((k + 1) mod ui - 1)); lia.
Qed.

Lemma ceil_div_eq n ui : 0 < ui → ceil_div n ui = (n - 1) / ui + 1.
Proof.
  intros Hui. unfold ceil_div.
  pose proof (Z.div_mod (n - 1) ui ltac:(lia)) as D.
  pose proof (Z.mod_pos_bound (n - 1) ui Hui) as B.
  rewrite <- (Z.div_unique (- n) ui (- ((n - 1) / ui + 1)) (ui - 1 - (n - 1) mod ui)); lia.
Qed.

End Buffer.


(** ** The run of the logistic-regression driver, example by example *)

Section LogRegRun.
Context `{Env}.

Lemma zeros_ok_inv {A} dims (z : A) (t t' : trace) l :
  zeros dims z t = (t', Ok l) →
  t' = t ∧ Forall (λ d, 0 ≤ d) dims ∧ l = replicate (Z.to_nat (default 0 (head dims))) z.
Proof.
  unfold zeros. destruct (existsb _ dims) eqn:E; [discriminate|]. intros [= <- <-].
  split; [reflexivity|]. split; [|reflexivity].
  apply Forall_forall. intros d Hd. destruct (Z.ltb_spec d 0) as [Hneg|]; [|assumption].
  exfalso. apply not_true_iff_false in E. apply E, existsb_exists.
  exists d. split; [apply list_elem_of_In; exact Hd | apply Z.ltb_lt; exact Hneg].
Qed.

Lemma lc_buffers_inv c net (t t' : trace) sr fr :
  LogReg.buffers c net t = (t', Ok (sr, fr)) →
  t' = t ∧ 0 ≤ LogReg.update_interval c ∧ 0 ≤ LogReg.time c ∧ 0 ≤ LogReg.n_examples c
  ∧ sr = replicate (Z.to_nat (LogReg.update_interval c)) spikes_zero
  ∧ fr = replicate (Z.to_nat (LogReg.n_examples c)) row_zero.
Proof.
  unfold LogReg.buffers. intros E.
  apply bind_ok_inv in E as (sr' & t1 & Esr & E).
  apply zeros_ok_inv in Esr as (-> & Hd & ->).
  apply bind_ok_inv in E as (fr' & t2 & Efr & E).
  apply zeros_ok_inv in Efr as (-> & Hd' & ->).
  injection E as <- <- <-.
  inversion Hd as [|? ? Hu Hd1]; subst. inversion Hd1 as [|? ? Ht _]; subst.
  inversion Hd' as [|? ? Hn _]; subst. simpl. auto 10.
Qed.

Lemma lc_setup_bookkeeping c : emits bookkeeping (LogReg.setup c).
Proof.
  unfold LogReg.setup, LogReg.check_divisible, LogReg.provision, LogReg.load_data,
    LogReg.load_classifier, LogReg.buffers.
  emits_auto.
Qed.

(** What [main] has established when the loop starts. *)
Lemma lc_setup_inv c t t' images labels s :
  LogReg.setup c t = (t', Ok (images, labels, s)) →
  0 < LogReg.update_interval c
  ∧ 0 ≤ LogReg.n_examples c
  ∧ LogReg.spike_record s = replicate (Z.to_nat (LogReg.update_interval c)) spikes_zero
  ∧ LogReg.full_spike_record s = replicate (Z.to_nat (LogReg.n_examples c)) row_zero
  ∧ LogReg.curves s = [("logreg", [])]
  ∧ LogReg.best_accuracy s = (if LogReg.train c then Some (acc_int 0) else None)
  ∧ LogReg.var_i s = None
  ∧ (LogReg.train c = false →
     ∃ net0, load_lc_network (LogReg.network_file c) = Ok (Some net0)
             ∧ LogReg.network s = LogReg.freeze net0).
Proof.
  unfold LogReg.setup. intros E.
  apply bind_ok_inv in E as ([] & t1 & E1 & E).
  rewrite lc_check_divisible_eq in E1.
  destruct (Z.eqb_spec (LogReg.update_interval c) 0) as [|Hui]; [discriminate|]. clear E1.
  apply bind_ok_inv in E as ([] & t2 & _ & E).
  apply bind_ok_inv in E as (net & t3 & Enet & E).
  apply bind_ok_inv in E as ([ims lbs] & t4 & _ & E).
  apply bind_ok_inv in E as ([sr fr] & t5 & Ebuf & E).
  apply lc_buffers_inv in Ebuf as (-> & Hui0 & _ & Hn & -> & ->).
  apply bind_ok_inv in E as (m & t6 & _ & E).
  injection E as _ _ _ <-. unfold LogReg.init. simpl.
  split; [lia|]. split; [exact Hn|]. repeat (split; [reflexivity|]).
  intros Ht. unfold LogReg.provision in Enet. rewrite Ht in Enet.
  apply bind_ok_inv in Enet as ([] & t9 & _ & Enet).
  apply bind_ok_inv in Enet as (loaded & t10 & Eload & Enet).
  apply lift_ok_inv in Eload as [-> Hload].
  apply bind_ok_inv in Enet as (net0 & t11 & Eread & Enet).
  apply read_ok_inv in Eread as [_ ->]. injection Enet as _ <-.
  exists net0. auto.
Qed.

Lemma curves_grow (cs : list (string * list Acc)) a n :
  Forall (λ kv : string * list Acc, length kv.2 = n) cs →
  Forall (λ kv : string * list Acc, length kv.2 = S n)
    ((λ kv : string * list Acc, (kv.1, kv.2 ++ [a])) <$> cs).
Proof.
  intros F. apply Forall_fmap. eapply Forall_impl; [exact F|].
  intros kv E. simpl. rewrite length_app, E. simpl. lia.
Qed.

Lemma lc_step_preserves fuel c images labels k s t s' t' :
  0 < LogReg.update_interval c → 0 ≤ k →
  lc_inv c k s t →
  LogReg.step fuel c images labels k s t = (t', Ok s') →
  lc_inv c (k + 1) s' t'.
Proof.
  intros Hui Hk (Hbuf & Hev & Hcur & Hvar & Hfull) E.
  apply lc_step_inv in E as (s1 & t1 & t2 & retries & x & net & _ & Eev & Epres & Erec).
  fold (boundary (LogReg.update_interval c) k) in Eev.
  assert (Hmid : buffer_holds (LogReg.update_interval c) k (LogReg.spike_record s1) t1
                 ∧ evaluations t1 = evaluations t
                                    ++ (if boundary (LogReg.update_interval c) k then [k] else [])
                 ∧ Forall (λ kv : string * list Acc, length kv.2 = length (evaluations t1))
                     (LogReg.curves s1)
                 ∧ LogReg.len (LogReg.full_spike_record s1) = LogReg.n_examples c).
  { destruct (boundary (LogReg.update_interval c) k).
    - apply lc_evaluate_inv in Eev
        as (a & new & ? & ? & ? & ? & -> & F & _ & Hsr & Hfr & _ & Hc & _).
      rewrite Hsr, Hfr, Hc.
      assert (Hr : records (EvEvaluate k :: new) = [])
        by (simpl; apply bookkeeping_records; exact F).
      assert (He : evaluations (t ++ EvEvaluate k :: new) = evaluations t ++ [k]).
      { rewrite evaluations_app. simpl. rewrite (bookkeeping_evaluations _ F). reflexivity. }
      split; [apply buffer_holds_frame; assumption|]. split; [exact He|].
      split; [|exact Hfull].
      rewrite He, length_app. simpl. rewrite Nat.add_1_r. apply curves_grow. exact Hcur.
    - destruct Eev as [-> ->]. rewrite app_nil_r. auto. }
  destruct Hmid as (Hbuf1 & Hev1 & Hcur1 & Hfull1).
  destruct (lc_present_bookkeeping fuel c images k _ _ _ _ Epres) as (new & -> & F).
  apply lc_record_spikes_inv in Erec as (_ & -> & ->); [|exact Hui|apply Hbuf1|exact Hk].
  assert (Hev2 : evaluations ((t1 ++ new) ++ [EvRecord (k mod LogReg.update_interval c) k (lc_spikes net)])
                 = evaluations t1).
  { rewrite !evaluations_app, (bookkeeping_evaluations _ F). simpl. rewrite !app_nil_r. reflexivity. }
  split; [|split; [|split; [|split]]]; simpl.
  - apply buffer_holds_write; [exact Hui | exact Hk |].
    apply buffer_holds_frame; [apply bookkeeping_records; exact F | exact Hbuf1].
  - rewrite Hev2, Hev1, Hev. symmetry. apply filter_boundary_succ. exact Hk.
  - rewrite Hev2. exact Hcur1.
  - destruct (Z.eqb_spec (k + 1) 0); [lia|]. f_equal. lia.
  - unfold LogReg.len in *. rewrite length_insert. exact Hfull1.
Qed.

(** The invariant holds after every number of examples of a run. *)
Lemma lc_examples_inv fuel c k t images labels s :
  0 ≤ k →
  LogReg.examples fuel c k [] = (t, Ok (images, labels, s)) →
  0 < LogReg.update_interval c ∧ lc_inv c k s t.
Proof.
  intros Hk E. unfold LogReg.examples in E.
  apply bind_ok_inv in E as ([[ims lbs] s0] & t0 & Esetup & E).
  apply bind_ok_inv in E as (s1 & t1 & Eloop & E). injection E as <- <- <- <-.
  pose proof (lc_setup_inv _ _ _ _ _ _ Esetup) as (Hui & Hn & Hsr & Hfr & Hcs & _ & Hvar & _).
  destruct (emits_bookkeeping _ _ _ _ (lc_setup_bookkeeping c) Esetup) as [Hr0 He0].
  split; [exact Hui|].
  unfold LogReg.loop in Eloop.
  apply (for_each_range_inv _ (λ k s t, lc_inv c k s t) k s0 t0 _ _ Hk Eloop).
  - split; [|split; [|split; [|split]]].
    + rewrite Hsr. apply buffer_holds_init; [lia | exact Hr0].
    + rewrite He0. reflexivity.
    + rewrite Hcs, He0. constructor; [reflexivity | constructor].
    + exact Hvar.
    + unfold LogReg.len. rewrite Hfr, length_replicate. lia.
  - intros j s2 t2 s3 t3 Hj Hinv Estep. eapply lc_step_preserves; eauto. lia.
Qed.

End LogRegRun.


(** ** The steps of the Diehl and Cook script *)

Section DiehlCookSteps.
Context `{Env}.

Lemma dc_checkpoint_bookkeeping c s : emits bookkeeping (DiehlCook.checkpoint c s).
Proof. unfold DiehlCook.checkpoint. emits_auto. Qed.

(** Lines 141-153, case by case. *)
Lemma dc_checkpoint_inv c s t t' s' :
  DiehlCook.checkpoint c s t = (t', Ok s') →
  ∃ xs best,
    lasts (DiehlCook.accuracy_ s) t = (t, Ok xs)
    ∧ DiehlCook.best_accuracy s = Some best
    ∧ ((any_gt xs best = true
        ∧ t' = t ++ [EvSaveNetwork (DiehlCook.network_file c); EvSaveAux DiehlCook.auxiliary_file]
        ∧ ∃ m, max_ xs t' = (t', Ok m) ∧ s' = dc_with_best s (Some m))
       ∨ (any_gt xs best = false ∧ t' = t ∧ s' = s)).
Proof.
  unfold DiehlCook.checkpoint. intros E.
  destruct (lasts_pure (DiehlCook.accuracy_ s)) as [r Hr].
  apply bind_ok_inv in E as (xs & t1 & E1 & E). rewrite Hr in E1. injection E1 as <- ->.
  apply bind_ok_inv in E as (best & t1 & E1 & E). apply read_ok_inv in E1 as [-> Hb].
  exists xs, best. split; [apply Hr|]. split; [exact Hb|].
  destruct (any_gt xs best).
  - left. split; [reflexivity|].
    apply bind_ok_inv in E as ([] & t1 & E1 & E). rewrite emit_eq in E1. injection E1 as <-.
    apply bind_ok_inv in E as ([] & t1 & E1 & E). rewrite emit_eq in E1. injection E1 as <-.
    apply bind_ok_inv in E as (m & t1 & E1 & E).
    assert (t1 = (t ++ [EvSaveNetwork (DiehlCook.network_file c)]) ++ [EvSaveAux DiehlCook.auxiliary_file])
      as -> by (destruct xs; [discriminate | injection E1 as <- _; reflexivity]).
    injection E as <- <-. rewrite <- app_assoc. simpl. rewrite <- app_assoc in E1. simpl in E1.
    split; [reflexivity|]. exists m. split; [exact E1 | reflexivity].
  - right. injection E as <- <-. auto.
Qed.

(** Lines 129-132: one accuracy is appended to each of the two curves. *)
Lemma dc_update_accuracy_grows c labels i s n :
  fst <$> DiehlCook.accuracy_ s = ["all"; "proportion"] →
  Forall (λ kv : string * list Acc, length kv.2 = n) (DiehlCook.accuracy_ s) →
  fst <$> DiehlCook.update_accuracy c labels i s = ["all"; "proportion"]
  ∧ Forall (λ kv : string * list Acc, length kv.2 = S n) (DiehlCook.update_accuracy c labels i s).
Proof.
  unfold DiehlCook.update_accuracy. intros Hk F.
  destruct (DiehlCook.accuracy_ s) as [|[k1 v1] [|[k2 v2] [|? ?]]]; try discriminate.
  injection Hk as -> ->. apply Forall_cons in F as [F1 F]. apply Forall_cons in F as [F2 _].
  simpl in *. split; [reflexivity|].
  repeat constructor; simpl; rewrite length_app; simpl; lia.
Qed.

(** Lines 124-156: what an evaluation changes. *)
Lemma dc_evaluate_inv c labels i s t t' s' :
  DiehlCook.evaluate c labels i s t = (t', Ok s') →
  ∃ new s1 t1 s2 t2,
    t' = t ++ EvEvaluate i :: new ∧ Forall bookkeeping new
    ∧ DiehlCook.network s' = DiehlCook.network s
    ∧ DiehlCook.spike_record s' = DiehlCook.spike_record s
    ∧ DiehlCook.data_loader s' = DiehlCook.data_loader s
    ∧ DiehlCook.var_i s' = DiehlCook.var_i s
    ∧ DiehlCook.accuracy_ s' = DiehlCook.update_accuracy c labels i s
    ∧ DiehlCook.best_accuracy s1 = DiehlCook.best_accuracy s
    ∧ DiehlCook.accuracy_ s1 = DiehlCook.accuracy_ s'
    ∧ DiehlCook.best_accuracy s' = DiehlCook.best_accuracy s2
    ∧ (if DiehlCook.train c then DiehlCook.checkpoint c s1 t1 = (t2, Ok s2) else s2 = s1).
Proof.
  unfold DiehlCook.evaluate. intros E.
  apply bind_ok_inv in E as ([] & t1 & E1 & E). rewrite emit_eq in E1. injection E1 as <-.
  destruct (DiehlCook.train c).
  - apply bind_ok_inv in E as (s2 & t2 & E2 & E).
    apply bind_ok_inv in E as ([] & t3 & E3 & E). rewrite emit_eq in E3. injection E3 as <-.
    injection E as <- <-.
    destruct (dc_checkpoint_bookkeeping c _ _ _ _ E2) as (new & -> & F).
    match type of E2 with DiehlCook.checkpoint _ ?s1 ?t1 = _ =>
      exists (new ++ [EvRefit i]), s1, t1, s2, (t1 ++ new)
    end.
    assert (Hframe : DiehlCook.network s2 = DiehlCook.network s
                     ∧ DiehlCook.spike_record s2 = DiehlCook.spike_record s
                     ∧ DiehlCook.data_loader s2 = DiehlCook.data_loader s
                     ∧ DiehlCook.var_i s2 = DiehlCook.var_i s
                     ∧ DiehlCook.accuracy_ s2 = DiehlCook.update_accuracy c labels i s).
    { apply dc_checkpoint_inv in E2 as (xs & best & _ & _ & [(_ & _ & m & _ & ->)|(_ & _ & ->)]);
        simpl; auto. }
    destruct Hframe as (F1 & F2 & F3 & F4 & F5). simpl.
    split; [rewrite <- !app_assoc; reflexivity|].
    split.
    { apply Forall_app. split; [exact F|]. constructor; [exact I|constructor]. }
    split; [exact F1|]. split; [exact F2|]. split; [exact F3|]. split; [exact F4|].
    split; [exact F5|]. split; [reflexivity|]. split; [symmetry; exact F5|].
    split; [reflexivity | exact E2].
  - injection E as Et Es.
    exists [], s', t, s', t. subst t' s'. simpl.
    split; [reflexivity|]. split; [constructor|].
    repeat (split; [reflexivity|]). reflexivity.
Qed.

(** Lines 119-199, for the runs that return. *)
Lemma dc_step_inv c labels i s t t' s' :
  0 < DiehlCook.update_interval c → 0 ≤ i →
  DiehlCook.step c labels i s t = (t', Ok s') →
  ∃ s1 t1 datum rest,
    (if boundary (DiehlCook.update_interval c) i
     then DiehlCook.evaluate c labels i s t = (t1, Ok s1)
     else t1 = t ∧ s1 = s)
    ∧ DiehlCook.data_loader s1 = datum :: rest
    ∧ (Z.of_nat (length (DiehlCook.spike_record s1)) = DiehlCook.update_interval c →
       let net := dc_run (DiehlCook.network s1) datum (DiehlCook.time c) in
       t' = t1 ++ [EvRun i datum; EvRecord (i mod DiehlCook.update_interval c) i (dc_spikes net)]
       ∧ s' = DiehlCook.State (dc_reset net) (DiehlCook.classifier s1)
                (<[Z.to_nat (i mod DiehlCook.update_interval c) := dc_spikes net]>
                   (DiehlCook.spike_record s1))
                (DiehlCook.accuracy_ s1) (DiehlCook.best_accuracy s1) rest (Some i)).
Proof.
  unfold DiehlCook.step. intros Hui Hi E.
  apply bind_ok_inv in E as (r0 & t0 & E0 & E). apply lift_ok_inv in E0 as [-> _].
  apply bind_ok_inv in E as (r & t0 & E0 & E). apply lift_ok_inv in E0 as [-> Er].
  apply mod_ok_inv in Er as [_ ->].
  apply bind_ok_inv in E as (s1 & t1 & E1 & E).
  apply bind_ok_inv in E as ([datum rest] & t2 & E2 & E).
  assert (t2 = t1 ∧ DiehlCook.data_loader s1 = datum :: rest) as [-> Hloader].
  { unfold DiehlCook.next in E2. destruct (DiehlCook.data_loader s1); [discriminate|].
    injection E2 as <- <- <-. auto. }
  exists s1, t1, datum, rest. split; [|split; [exact Hloader|]].
  { unfold boundary. destruct (_ && _); [exact E1|]. injection E1 as <- <-. auto. }
  intros Hlen.
  apply bind_ok_inv in E as ([] & t3 & E3 & E). rewrite emit_eq in E3. injection E3 as <-.
  erewrite bind_ok in E by (unfold lift; rewrite mod_ok by lia; reflexivity).
  erewrite bind_ok in E; cycle 1.
  { unfold lift. rewrite setitem_ok; [reflexivity|].
    rewrite Hlen. apply Z.mod_pos_bound. exact Hui. }
  erewrite bind_ok in E by reflexivity.
  injection E as <- <-. rewrite <- app_assoc. auto.
Qed.

End DiehlCookSteps.

(** ** The run of the Diehl and Cook script, example by example *)

Section DiehlCookRun.
Context `{Env}.

Lemma dc_setup_bookkeeping c : emits bookkeeping (DiehlCook.setup c).
Proof.
  unfold DiehlCook.setup, DiehlCook.check_divisible, DiehlCook.provision, DiehlCook.freeze,
    DiehlCook.load_data, DiehlCook.load_classifier, DiehlCook.buffers.
  emits_auto.
Qed.

(** What the script has established when the loop starts. *)
Lemma dc_setup_inv c t t' labels s :
  DiehlCook.setup c t = (t', Ok (labels, s)) →
  0 < DiehlCook.update_interval c
  ∧ DiehlCook.spike_record s = replicate (Z.to_nat (DiehlCook.update_interval c)) spikes_zero
  ∧ DiehlCook.accuracy_ s = [("all", []); ("proportion", [])]
  ∧ DiehlCook.best_accuracy s = (if DiehlCook.train c then Some (acc_int 0) else None)
  ∧ DiehlCook.var_i s = None
  ∧ labels = (mnist TrainSplit).2
  ∧ length (DiehlCook.data_loader s) = length (mnist TrainSplit).1
  ∧ (DiehlCook.train c = false →
     ∃ net0, load_dc_network (DiehlCook.network_file c) = Ok (Some net0)
             ∧ DiehlCook.freeze net0 t = (t, Ok (DiehlCook.network s))).
Proof.
  unfold DiehlCook.setup. intros E.
  apply bind_ok_inv in E as ([] & t1 & E1 & E).
  rewrite dc_check_divisible_eq in E1.
  destruct (Z.eqb_spec (DiehlCook.update_interval c) 0) as [|Hui]; [discriminate|]. clear E1.
  apply bind_ok_inv in E as ([] & t2 & _ & E).
  apply bind_ok_inv in E as ([] & t2' & _ & E).
  apply bind_ok_inv in E as (net & t3 & Enet & E).
  apply bind_ok_inv in E as ([ims lbs] & t4 & Edata & E).
  rewrite dc_load_data_eq in Edata. injection Edata as _ <- <-.
  apply bind_ok_inv in E as (sr & t5 & Esr & E).
  unfold DiehlCook.buffers in Esr.
  apply zeros_ok_inv in Esr as (-> & Hd & ->).
  assert (Hui0 : 0 ≤ DiehlCook.update_interval c) by (inversion Hd; assumption).
  apply bind_ok_inv in E as (a & t6 & _ & E).
  injection E as _ <- <-. unfold DiehlCook.init. simpl.
  split; [lia|]. repeat (split; [reflexivity|]).
  split; [rewrite !length_fmap; reflexivity|].
  intros Ht. unfold DiehlCook.provision in Enet. rewrite Ht in Enet.
  apply bind_ok_inv in Enet as ([] & t9 & _ & Enet).
  apply bind_ok_inv in Enet as (loaded & t10 & Eload & Enet).
  apply lift_ok_inv in Eload as [-> Hload].
  apply bind_ok_inv in Enet as (net0 & t11 & Eread & Enet).
  apply read_ok_inv in Eread as [-> ->].
  exists net0. split; [exact Hload|].
  unfold DiehlCook.freeze in *. destruct (dc_Ae net0); [|discriminate].
  injection Enet as _ <-. reflexivity.
Qed.

Lemma dc_step_preserves c labels k s t s' t' :
  0 < DiehlCook.update_interval c → 0 ≤ k →
  dc_inv c k s t →
  DiehlCook.step c labels k s t = (t', Ok s') →
  dc_inv c (k + 1) s' t'.
Proof.
  intros Hui Hk (Hbuf & Hev & Hkeys & Hcur & Hvar) E.
  apply dc_step_inv in E as (s1 & t1 & datum & rest & Eev & _ & Hrest); [|exact Hui|exact Hk].
  assert (Hmid : buffer_holds (DiehlCook.update_interval c) k (DiehlCook.spike_record s1) t1
                 ∧ evaluations t1 = evaluations t
                                    ++ (if boundary (DiehlCook.update_interval c) k then [k] else [])
                 ∧ fst <$> DiehlCook.accuracy_ s1 = ["all"; "proportion"]
                 ∧ Forall (λ kv : string * list Acc, length kv.2 = length (evaluations t1))
                     (DiehlCook.accuracy_ s1)).
  { destruct (boundary (DiehlCook.update_interval c) k).
    - apply dc_evaluate_inv in Eev
        as (new & ? & ? & ? & ? & -> & F & _ & Hsr & _ & _ & Hc & _).
      rewrite Hsr, Hc.
      assert (Hr : records (EvEvaluate k :: new) = [])
        by (simpl; apply bookkeeping_records; exact F).
      assert (He : evaluations (t ++ EvEvaluate k :: new) = evaluations t ++ [k]).
      { rewrite evaluations_app. simpl. rewrite (bookkeeping_evaluations _ F). reflexivity. }
      split; [apply buffer_holds_frame; assumption|]. split; [exact He|].
      rewrite He, length_app. simpl. rewrite Nat.add_1_r.
      apply dc_update_accuracy_grows; assumption.
    - destruct Eev as [-> ->]. rewrite app_nil_r. auto. }
  destruct Hmid as (Hbuf1 & Hev1 & Hkeys1 & Hcur1).
  destruct (Hrest (proj1 Hbuf1)) as [-> ->].
  set (net := dc_run (DiehlCook.network s1) datum (DiehlCook.time c)).
  assert (Hev2 : evaluations (t1 ++ [EvRun k datum;
                   EvRecord (k mod DiehlCook.update_interval c) k (dc_spikes net)])
                 = evaluations t1).
  { rewrite evaluations_app. simpl. rewrite app_nil_r. reflexivity. }
  split; [|split; [|split; [|split]]]; simpl.
  - change [EvRun k datum; EvRecord (k mod DiehlCook.update_interval c) k (dc_spikes net)]
      with ([EvRun k datum] ++ [EvRecord (k mod DiehlCook.update_interval c) k (dc_spikes net)]).
    rewrite app_assoc.
    apply buffer_holds_write; [exact Hui | exact Hk |].
    apply buffer_holds_frame; [reflexivity | exact Hbuf1].
  - rewrite Hev2, Hev1, Hev. symmetry. apply filter_boundary_succ. exact Hk.
  - exact Hkeys1.
  - rewrite Hev2. exact Hcur1.
  - destruct (Z.eqb_spec (k + 1) 0); [lia|]. f_equal. lia.
Qed.

(** The invariant holds after every number of examples of a run. *)
Lemma dc_examples_inv c k t labels s :
  0 ≤ k →
  DiehlCook.examples c k [] = (t, Ok (labels, s)) →
  0 < DiehlCook.update_interval c ∧ dc_inv c k s t.
Proof.
  intros Hk E. unfold DiehlCook.examples in E.
  apply bind_ok_inv in E as ([lbs s0] & t0 & Esetup & E).
  apply bind_ok_inv in E as (s1 & t1 & Eloop & E). injection E as <- <- <-.
  pose proof (dc_setup_inv _ _ _ _ _ Esetup) as (Hui & Hsr & Hcs & _ & Hvar & _).
  destruct (emits_bookkeeping _ _ _ _ (dc_setup_bookkeeping c) Esetup) as [Hr0 He0].
  split; [exact Hui|].
  unfold DiehlCook.loop in Eloop.
  apply (for_each_range_inv _ (λ k s t, dc_inv c k s t) k s0 t0 _ _ Hk Eloop).
  - split; [|split; [|split; [|split]]].
    + rewrite Hsr. apply buffer_holds_init; [lia | exact Hr0].
    + rewrite He0. reflexivity.
    + rewrite Hcs. reflexivity.
    + rewrite Hcs, He0. repeat constructor.
    + exact Hvar.
  - intros j s2 t2 s3 t3 Hj Hinv Estep. eapply dc_step_preserves; eauto. lia.
Qed.

End DiehlCookRun.


(** ** The end of a run *)

Section Finish.
Context `{Env}.

(** Lines 243-270 of the logistic-regression driver. *)
Lemma lc_final_flush_inv c labels s t t' s' :
  LogReg.final_flush c labels s t = (t', Ok s') →
  ∃ i0 a new,
    LogReg.var_i s = Some i0
    ∧ t' = t ++ EvEvaluate (i0 + 1) :: new ∧ Forall bookkeeping new
    ∧ LogReg.curves s' = (λ kv, (kv.1, kv.2 ++ [a])) <$> LogReg.curves s
    ∧ LogReg.spike_record s' = LogReg.spike_record s
    ∧ LogReg.network s' = LogReg.network s
    ∧ LogReg.best_accuracy s' = LogReg.best_accuracy s.
Proof.
  unfold LogReg.final_flush. intros E.
  apply bind_ok_inv in E as (i0 & t0 & E0 & E). apply read_ok_inv in E0 as [-> Hi].
  apply bind_ok_inv in E as ([cur_labels cur_record] & t0 & E0 & E).
  assert (t0 = t) as ->.
  { unfold LogReg.current_interval in E0.
    apply bind_ok_inv in E0 as (r & tr & Er & E0). apply lift_ok_inv in Er as [-> _].
    destruct (r =? 0); injection E0 as <- _; reflexivity. }
  unfold LogReg.update_curves in E.
  apply bind_ok_inv in E as ([] & t1 & E1 & E). rewrite emit_eq in E1. injection E1 as <-.
  apply bind_ok_inv in E as ([] & t2 & E2 & E). injection E as <- <-.
  assert (Hb : emits bookkeeping
            (if LogReg.train c
             then xs ← lasts ((λ kv, (kv.1, kv.2 ++ [accuracy cur_labels
                      (logreg_predict cur_record (LogReg.logreg_model s))])) <$> LogReg.curves s);
                  best ← read (UnboundLocalError "best_accuracy") (LogReg.best_accuracy s);
                  (if any_gt xs best
                   then emit (EvSaveNetwork (LogReg.network_file c));;
                        emit (EvSaveAux (LogReg.auxiliary_file c))
                   else mret ())
             else mret () : M unit)) by emits_auto.
  destruct (Hb _ _ _ E2) as (new & -> & F).
  exists i0, (accuracy cur_labels (logreg_predict cur_record (LogReg.logreg_model s))), new.
  simpl. split; [exact Hi|]. split; [rewrite <- app_assoc; reflexivity|]. auto.
Qed.

Lemma lc_report_bookkeeping c s : emits bookkeeping (LogReg.report c s).
Proof. unfold LogReg.report. emits_auto. Qed.

(** The reporting after the final flush leaves the state alone. *)
Lemma lc_before_confusion_inv fuel c t t' s' labels' :
  LogReg.before_confusion fuel c t = (t', Ok (s', labels')) →
  ∃ images labels s1 t1 t2 new,
    LogReg.examples fuel c (LogReg.n_examples c) t = (t1, Ok (images, labels, s1))
    ∧ LogReg.final_flush c labels s1 t1 = (t2, Ok s')
    ∧ t' = t2 ++ new ∧ Forall bookkeeping new
    ∧ LogReg.adjust_labels fuel (LogReg.n_examples c) labels t' = (t', Ok labels').
Proof.
  unfold LogReg.before_confusion. intros E.
  apply bind_ok_inv in E as ([[images labels] s1] & t1 & E1 & E).
  apply bind_ok_inv in E as (s2 & t2 & E2 & E).
  apply bind_ok_inv in E as ([] & t3 & E3 & E).
  apply bind_ok_inv in E as ([] & t4 & E4 & E).
  apply bind_ok_inv in E as (l & t5 & E5 & E). injection E as <- <- <-.
  assert (H3 : emits bookkeeping
            (if LogReg.train c then emit (EvSaveCurves (LogReg.curves_file c)) else mret ()))
    by emits_auto.
  destruct (H3 _ _ _ E3) as (n3 & -> & F3).
  destruct (lc_report_bookkeeping c s2 _ _ _ E4) as (n4 & -> & F4).
  assert (t5 = (t2 ++ n3) ++ n4) as ->.
  { pose proof E5 as E5'. unfold LogReg.adjust_labels in E5'. destruct (_ >? _).
    - injection E5' as <- _. reflexivity.
    - apply (while_inv _ _ (λ _ t, t = (t2 ++ n3) ++ n4)) in E5' as [-> _];
        [reflexivity | reflexivity |].
      intros l0 t0 l1 t6 -> _ Eb. unfold LogReg.extend_body in Eb.
      destruct (_ >? _); injection Eb as <- _; reflexivity. }
  exists images, labels, s1, t1, t2, (n3 ++ n4).
  split; [exact E1|]. split; [exact E2|]. split; [rewrite app_assoc; reflexivity|].
  split; [apply Forall_app; auto | exact E5].
Qed.

(** [main] is the loop over all the examples, the final flush, and
    reporting that leaves the state alone. *)
Lemma lc_main_inv fuel c t t' s' labels' :
  LogReg.main fuel c t = (t', Ok (s', labels')) →
  ∃ images labels s1 t1 t2 new,
    LogReg.examples fuel c (LogReg.n_examples c) t = (t1, Ok (images, labels, s1))
    ∧ LogReg.final_flush c labels s1 t1 = (t2, Ok s')
    ∧ t' = t2 ++ new ∧ Forall bookkeeping new.
Proof.
  unfold LogReg.main. intros E.
  apply bind_ok_inv in E as ([s2 l2] & t3 & E1 & E).
  apply bind_ok_inv in E as ([] & t4 & E2 & E).
  apply bind_ok_inv in E as ([] & t5 & E3 & E). injection E as <- <- <-.
  apply lc_before_confusion_inv in E1
    as (images & labels & s1 & t1 & t2 & n1 & Eex & Eff & -> & F1 & _).
  destruct (emits_confusions bookkeeping _ _ _ _ _ E2) as (n2 & -> & F2).
  rewrite emit_eq in E3. injection E3 as <-.
  exists images, labels, s1, t1, t2, (n1 ++ n2 ++ [EvSaveConfusion (LogReg.confusion_file c)]).
  split; [exact Eex|]. split; [exact Eff|].
  split; [rewrite <- !app_assoc; reflexivity|].
  repeat (apply Forall_app; split); auto. constructor; [exact I | constructor].
Qed.

(** Lines 203-213 of the Diehl and Cook script. *)
Lemma dc_final_flush_inv c labels s t t' s' :
  DiehlCook.final_flush c labels s t = (t', Ok s') →
  ∃ i0,
    DiehlCook.var_i s = Some i0
    ∧ t' = t ++ [EvEvaluate (i0 + 1)]
    ∧ DiehlCook.accuracy_ s' = DiehlCook.update_accuracy c labels (i0 + 1) s
    ∧ DiehlCook.spike_record s' = DiehlCook.spike_record s
    ∧ DiehlCook.network s' = DiehlCook.network s
    ∧ DiehlCook.best_accuracy s' = DiehlCook.best_accuracy s.
Proof.
  unfold DiehlCook.final_flush. intros E.
  apply bind_ok_inv in E as (i0 & t0 & E0 & E). apply read_ok_inv in E0 as [-> Hi].
  apply bind_ok_inv in E as ([] & t1 & E1 & E). rewrite emit_eq in E1. injection E1 as <-.
  injection E as <- <-. exists i0. simpl.
  split; [exact Hi|]. repeat (split; [reflexivity|]). reflexivity.
Qed.

Lemma dc_report_bookkeeping c s : emits bookkeeping (DiehlCook.report c s).
Proof. unfold DiehlCook.report. emits_auto. Qed.

Lemma dc_script_inv c t t' s' :
  DiehlCook.script c t = (t', Ok s') →
  ∃ labels s1 t1 t2 new,
    DiehlCook.examples c (DiehlCook.n_examples c) t = (t1, Ok (labels, s1))
    ∧ DiehlCook.final_flush c labels s1 t1 = (t2, Ok s')
    ∧ t' = t2 ++ new ∧ Forall bookkeeping new.
Proof.
  unfold DiehlCook.script. intros E.
  apply bind_ok_inv in E as ([labels s1] & t1 & E1 & E).
  apply bind_ok_inv in E as (s2 & t2 & E2 & E).
  apply bind_ok_inv in E as ([] & t3 & E3 & E). injection E as <- <-.
  destruct (dc_report_bookkeeping c s2 _ _ _ E3) as (new & -> & F).
  exists labels, s1, t1, t2, new. auto.
Qed.

(** Whenever the driver returns, the accuracies were computed exactly at
    the boundaries of the loop and once more at [n_examples], and every
    curve has [ceil(n_examples / update_interval)] entries. *)
Lemma lc_curves_of_returning_run
    (fuel : nat) (c : LogReg.config) (t : trace) (s : LogReg.state) (labels' : list Z) :
  LogReg.main fuel c [] = (t, Ok (s, labels')) →
  evaluations t =
    filter (λ i, boundary (LogReg.update_interval c) i = true)
      (Py.range (LogReg.n_examples c)) ++ [LogReg.n_examples c]
  ∧ Forall (λ kv : string * list Acc,
      Z.of_nat (length kv.2) = ceil_div (LogReg.n_examples c) (LogReg.update_interval c))
      (LogReg.curves s).
Proof.
  intros El.
  apply lc_main_inv in El as (images & labels & s1 & t1 & t2 & new & Eex & Eff & -> & F).
  pose proof Eex as Eex'. unfold LogReg.examples in Eex'.
  apply bind_ok_inv in Eex' as ([[? ?] s0] & t0 & Esetup & _).
  apply lc_setup_inv in Esetup as (_ & Hn & _).
  apply lc_examples_inv in Eex as (Hui & _ & Hev & Hcur & Hvar & _); [|exact Hn].
  apply lc_final_flush_inv in Eff as (i0 & a & new' & Hi & -> & F' & Hc & _).
  rewrite Hvar in Hi. destruct (Z.eqb_spec (LogReg.n_examples c) 0); [discriminate|].
  injection Hi as <-. replace (LogReg.n_examples c - 1 + 1) with (LogReg.n_examples c) by lia.
  split.
  - rewrite !evaluations_app. simpl.
    rewrite (bookkeeping_evaluations _ F), (bookkeeping_evaluations _ F'), Hev, app_nil_r.
    reflexivity.
  - rewrite Hc. apply Forall_fmap. eapply Forall_impl; [exact Hcur|].
    intros kv E. simpl. rewrite length_app, E, Hev. simpl.
    rewrite Nat2Z.inj_add, count_boundaries, ceil_div_eq by lia. reflexivity.
Qed.

(** The same for the script, whose curves are the two of line 101. *)
Lemma dc_curves_of_returning_run (c : DiehlCook.config) (t : trace) (s : DiehlCook.state) :
  DiehlCook.script c [] = (t, Ok s) →
  evaluations t =
    filter (λ i, boundary (DiehlCook.update_interval c) i = true)
      (Py.range (DiehlCook.n_examples c)) ++ [DiehlCook.n_examples c]
  ∧ fst <$> DiehlCook.accuracy_ s = ["all"; "proportion"]
  ∧ Forall (λ kv : string * list Acc,
      Z.of_nat (length kv.2) = ceil_div (DiehlCook.n_examples c) (DiehlCook.update_interval c))
      (DiehlCook.accuracy_ s).
Proof.
  intros Ed.
  apply dc_script_inv in Ed as (labels & s1 & t1 & t2 & new & Eex & Eff & -> & F).
  assert (Hn : 0 ≤ DiehlCook.n_examples c).
  { destruct (Z.le_gt_cases 0 (DiehlCook.n_examples c)) as [|Hneg]; [assumption|].
    exfalso. unfold DiehlCook.examples in Eex.
    apply bind_ok_inv in Eex as ([? s0] & t0 & Esetup & Eex).
    apply bind_ok_inv in Eex as (s2 & t3 & Eloop & Eex). injection Eex as <- <- <-.
    unfold DiehlCook.loop in Eloop. rewrite for_each_range_0 in Eloop by lia.
    injection Eloop as <- <-.
    apply dc_setup_inv in Esetup as (_ & _ & _ & _ & Hvar & _).
    apply dc_final_flush_inv in Eff as (i0 & Hi & _). congruence. }
  apply dc_examples_inv in Eex as (Hui & _ & Hev & Hkeys & Hcur & Hvar); [|exact Hn].
  apply dc_final_flush_inv in Eff as (i0 & Hi & -> & Hc & _).
  rewrite Hvar in Hi. destruct (Z.eqb_spec (DiehlCook.n_examples c) 0); [discriminate|].
  injection Hi as <-.
  replace (DiehlCook.n_examples c - 1 + 1) with (DiehlCook.n_examples c) in * by lia.
  destruct (dc_update_accuracy_grows c labels (DiehlCook.n_examples c) s1 _ Hkeys Hcur)
    as [Hkeys' Hgrow].
  split; [|split].
  - rewrite !evaluations_app. simpl.
    rewrite (bookkeeping_evaluations _ F), Hev, app_nil_r. reflexivity.
  - rewrite Hc. exact Hkeys'.
  - rewrite Hc. eapply Forall_impl; [exact Hgrow|].
    intros kv E. simpl in E. rewrite E, Hev.
    rewrite Nat2Z.inj_succ, count_boundaries, ceil_div_eq by lia. reflexivity.
Qed.

End Finish.


(** ** What a step leaves alone *)

Section Frames.
Context `{Env}.

(** A property of the state that every iteration keeps holds at the end. *)
Lemma for_each_keeps {S} (body : Z → S → M S) (P : S → Prop) l s (t : trace) s' t' :
  for_each body l s t = (t', Ok s') →
  P s →
  (∀ i s1 t1 s2 t2, P s1 → body i s1 t1 = (t2, Ok s2) → P s2) →
  P s'.
Proof.
  intros E P0 Hstep. revert s t E P0. induction l as [|i l IH]; intros s t E P0; simpl in E.
  - injection E as <- <-. exact P0.
  - apply bind_ok_inv in E as (s1 & t1 & E1 & E). eapply IH; eauto.
Qed.

(** The iterations [j], ..., [k - 1] lead from the state after [j] examples
    to the state after [k] examples. *)
Lemma for_each_range_split {S} (body : Z → S → M S) j k s (t : trace) sj tj sk tk :
  0 ≤ j ≤ k →
  for_each body (Py.range j) s t = (tj, Ok sj) →
  for_each body (Py.range k) s t = (tk, Ok sk) →
  for_each body (seqZ j (k - j)) sj tj = (tk, Ok sk).
Proof.
  intros Hjk Ej Ek. unfold Py.range in *.
  replace k with (j + (k - j)) in Ek at 1 by lia.
  rewrite seqZ_app, for_each_app in Ek by lia.
  erewrite bind_ok in Ek by exact Ej. exact Ek.
Qed.

Lemma lc_record_spikes_frame c i s net t t' s' :
  LogReg.record_spikes c i s net t = (t', Ok s') →
  LogReg.network s' = lc_reset net
  ∧ LogReg.best_accuracy s' = LogReg.best_accuracy s
  ∧ LogReg.curves s' = LogReg.curves s.
Proof.
  unfold LogReg.record_spikes. intros E.
  apply bind_ok_inv in E as (slot & t1 & _ & E).
  apply bind_ok_inv in E as (sr & t2 & _ & E).
  apply bind_ok_inv in E as ([] & t3 & _ & E).
  apply bind_ok_inv in E as (full & t4 & _ & E).
  injection E as _ <-. auto.
Qed.

Lemma dc_step_frame c labels i s t t' s' :
  DiehlCook.step c labels i s t = (t', Ok s') →
  ∃ s1 t1 datum,
    (if boundary (DiehlCook.update_interval c) i
     then DiehlCook.evaluate c labels i s t = (t1, Ok s1)
     else t1 = t ∧ s1 = s)
    ∧ DiehlCook.network s' = dc_reset (dc_run (DiehlCook.network s1) datum (DiehlCook.time c))
    ∧ DiehlCook.best_accuracy s' = DiehlCook.best_accuracy s1.
Proof.
  unfold DiehlCook.step. intros E.
  apply bind_ok_inv in E as (r0 & t0 & E0 & E). apply lift_ok_inv in E0 as [-> _].
  apply bind_ok_inv in E as (r & t0 & E0 & E). apply lift_ok_inv in E0 as [-> Er].
  apply mod_ok_inv in Er as [_ ->].
  apply bind_ok_inv in E as (s1 & t1 & E1 & E).
  apply bind_ok_inv in E as ([datum rest] & t2 & _ & E).
  apply bind_ok_inv in E as ([] & t3 & _ & E).
  apply bind_ok_inv in E as (slot & t4 & _ & E).
  apply bind_ok_inv in E as (sr & t5 & _ & E).
  apply bind_ok_inv in E as ([] & t6 & _ & E).
  injection E as _ <-. exists s1, t1, datum. simpl.
  split; [|auto].
  unfold boundary. destruct (_ && _); [exact E1|]. injection E1 as <- <-. auto.
Qed.

End Frames.

(** ** The watermark along a run *)

Section WatermarkRun.
Context `{Env}.
Context {order : AccOrder}.

(** The watermark after a checkpoint decision is not below the one before. *)
Lemma lc_checkpoint_best c s t t' s' b :
  LogReg.checkpoint c s t = (t', Ok s') →
  LogReg.best_accuracy s = Some b →
  ∃ b', LogReg.best_accuracy s' = Some b' ∧ acc_gt b b' = false.
Proof.
  intros E Hb.
  apply lc_checkpoint_inv in E as (xs & best & _ & Hbest & [(Hany & _ & m & Em & ->)|(_ & _ & ->)]).
  - rewrite Hb in Hbest. injection Hbest as <-.
    apply max_spec in Em as (_ & Hin & Hmax).
    exists m. split; [reflexivity|]. eapply max_above; eauto.
  - exists b. split; [exact Hb | apply acc_gt_irrefl].
Qed.

Lemma dc_checkpoint_best c s t t' s' b :
  DiehlCook.checkpoint c s t = (t', Ok s') →
  DiehlCook.best_accuracy s = Some b →
  ∃ b', DiehlCook.best_accuracy s' = Some b' ∧ acc_gt b b' = false.
Proof.
  intros E Hb.
  apply dc_checkpoint_inv in E as (xs & best & _ & Hbest & [(Hany & _ & m & Em & ->)|(_ & _ & ->)]).
  - rewrite Hb in Hbest. injection Hbest as <-.
    apply max_spec in Em as (_ & Hin & Hmax).
    exists m. split; [reflexivity|]. eapply max_above; eauto.
  - exists b. split; [exact Hb | apply acc_gt_irrefl].
Qed.

Lemma lc_step_best fuel c images labels i s t t' s' b :
  LogReg.step fuel c images labels i s t = (t', Ok s') →
  not_below b (LogReg.best_accuracy s) → not_below b (LogReg.best_accuracy s').
Proof.
  intros E (b1 & Hb1 & Hle).
  apply lc_step_inv in E as (s1 & t1 & t2 & retries & x & net & _ & Eev & _ & Erec).
  apply lc_record_spikes_frame in Erec as (_ & -> & _).
  destruct (_ && _).
  - apply lc_evaluate_inv in Eev
      as (a & new & s3 & t3 & s4 & t4 & _ & _ & _ & _ & _ & _ & _ & Hb3 & _ & -> & Echk).
    rewrite <- Hb3 in Hb1. destruct (LogReg.train c).
    + destruct (lc_checkpoint_best _ _ _ _ _ _ Echk Hb1) as (b' & Hb' & Hle').
      exists b'. split; [exact Hb'|]. eapply acc_not_gt_trans; eauto.
    + subst s4. exists b1. auto.
  - destruct Eev as [_ ->]. exists b1. auto.
Qed.

Lemma dc_step_best c labels i s t t' s' b :
  DiehlCook.step c labels i s t = (t', Ok s') →
  not_below b (DiehlCook.best_accuracy s) → not_below b (DiehlCook.best_accuracy s').
Proof.
  intros E (b1 & Hb1 & Hle).
  apply dc_step_frame in E as (s1 & t1 & datum & Eev & _ & ->).
  destruct (boundary _ _).
  - apply dc_evaluate_inv in Eev
      as (new & s3 & t3 & s4 & t4 & _ & _ & _ & _ & _ & _ & _ & Hb3 & _ & -> & Echk).
    rewrite <- Hb3 in Hb1. destruct (DiehlCook.train c).
    + destruct (dc_checkpoint_best _ _ _ _ _ _ Echk Hb1) as (b' & Hb' & Hle').
      exists b'. split; [exact Hb'|]. eapply acc_not_gt_trans; eauto.
    + subst s4. exists b1. auto.
  - destruct Eev as [_ ->]. exists b1. auto.
Qed.

End WatermarkRun.


(** ** When the steps of the drivers return *)

Section Totality.
Context `{Env}.

(** A [for] loop over a range returns when every iteration does. *)
Lemma for_each_range_total {S} (body : Z → S → M S) (J : Z → S → Prop) n s (t : trace) :
  0 ≤ n →
  J 0 s →
  (∀ k s1 t1, 0 ≤ k < n → J k s1 → ∃ s2 t2, body k s1 t1 = (t2, Ok s2) ∧ J (k + 1) s2) →
  ∃ s' t', for_each body (Py.range n) s t = (t', Ok s') ∧ J n s'.
Proof.
  intros Hn J0. pattern n. apply natlike_ind; [| |exact Hn]; clear n Hn.
  - intros _. exists s, t. rewrite for_each_range_0 by lia. auto.
  - intros n Hn IH Hstep. unfold Z.succ in *.
    destruct IH as (s1 & t1 & E1 & J1); [intros k; intros; apply Hstep; [lia | assumption]|].
    destruct (Hstep n s1 t1) as (s2 & t2 & E2 & J2); [lia | exact J1 |].
    exists s2, t2. rewrite for_each_range_succ by assumption.
    erewrite bind_ok by exact E1. auto.
Qed.

Lemma lasts_ok (cs : list (string * list Acc)) :
  Forall (λ kv : string * list Acc, kv.2 ≠ []) cs →
  ∃ xs, (∀ t : trace, lasts cs t = (t, Ok xs)) ∧ length xs = length cs.
Proof.
  unfold lasts. induction 1 as [|kv cs Hkv _ (xs & IH & Hlen)]; simpl.
  - exists []. auto.
  - destruct (getitem_ok kv.2 (-1 + Z.of_nat (length kv.2))) as (x & Hx & _).
    { destruct kv.2; [congruence | simpl; lia]. }
    assert (G : Py.getitem kv.2 (-1) = Ok x).
    { unfold Py.getitem, Py.index in *. simpl (-1 <? 0).
      destruct (-1 + Z.of_nat (length kv.2) <? 0) eqn:E;
        [apply Z.ltb_lt in E; destruct kv.2; [congruence | simpl in E; lia]|].
      exact Hx. }
    exists (x :: xs). split; [|simpl; congruence].
    intros t. erewrite bind_ok by (unfold lift; rewrite G; reflexivity).
    erewrite bind_ok by apply IH. reflexivity.
Qed.

Lemma appended_nonempty (cs : list (string * list Acc)) a :
  Forall (λ kv : string * list Acc, kv.2 ≠ [])
    ((λ kv : string * list Acc, (kv.1, kv.2 ++ [a])) <$> cs).
Proof.
  apply Forall_fmap, Forall_forall. intros kv _. simpl. destruct kv.2; discriminate.
Qed.

Lemma lc_current_interval_ok {A} c labels (record : list A) i (t : trace) :
  labels ≠ [] →
  ∃ x, LogReg.current_interval c labels record i t = (t, Ok x).
Proof.
  intros Hne. unfold LogReg.current_interval.
  erewrite bind_ok; cycle 1.
  { unfold lift. rewrite mod_ok; [reflexivity|].
    unfold LogReg.len. destruct labels; [congruence | simpl; lia]. }
  destruct (_ =? 0); eexists; reflexivity.
Qed.

End Totality.

Section LogRegReturns.
Context `{Env}.

Lemma zeros_ok {A} dims (z : A) (t : trace) :
  Forall (λ d, 0 ≤ d) dims →
  zeros dims z t = (t, Ok (replicate (Z.to_nat (default 0 (head dims))) z)).
Proof.
  intros Hd. unfold zeros. destruct (existsb _ dims) eqn:E; [|reflexivity].
  apply existsb_exists in E as (d & Hin & Hneg). apply Z.ltb_lt in Hneg.
  apply list_elem_of_In in Hin. rewrite Forall_forall in Hd. specialize (Hd d Hin). lia.
Qed.

Lemma lc_check_ok c (t : trace) :
  0 < LogReg.update_interval c →
  (LogReg.update_interval c | LogReg.n_train c) →
  (LogReg.update_interval c | LogReg.n_test c) →
  LogReg.check_divisible c t = (t, Ok tt).
Proof.
  intros Hui D1 D2. rewrite lc_check_divisible_eq.
  assert (Hne : LogReg.update_interval c ≠ 0) by lia.
  rewrite (proj2 (Z.eqb_neq _ 0) Hne).
  rewrite (proj2 (check_cases _ _ _ Hne) (conj D1 D2)). reflexivity.
Qed.

End LogRegReturns.

Section DiehlCookReturns.
Context `{Env}.

Lemma dc_update_accuracy_nonempty c labels i s :
  fst <$> DiehlCook.accuracy_ s = ["all"; "proportion"] →
  fst <$> DiehlCook.update_accuracy c labels i s = ["all"; "proportion"]
  ∧ Forall (λ kv : string * list Acc, kv.2 ≠ []) (DiehlCook.update_accuracy c labels i s).
Proof.
  unfold DiehlCook.update_accuracy. intros Hk.
  destruct (DiehlCook.accuracy_ s) as [|[k1 v1] [|[k2 v2] [|? ?]]]; try discriminate.
  injection Hk as -> ->. simpl. split; [reflexivity|].
  repeat constructor; simpl; [destruct v1 | destruct v2]; discriminate.
Qed.

Lemma dc_checkpoint_ok c s (t : trace) :
  Forall (λ kv : string * list Acc, kv.2 ≠ []) (DiehlCook.accuracy_ s) →
  is_Some (DiehlCook.best_accuracy s) →
  ∃ t' s', DiehlCook.checkpoint c s t = (t', Ok s').
Proof.
  intros Hcs [best Hb]. unfold DiehlCook.checkpoint.
  destruct (lasts_ok _ Hcs) as (xs & Hl & _).
  erewrite bind_ok by apply Hl. rewrite Hb.
  erewrite bind_ok by reflexivity.
  destruct (any_gt xs best) eqn:Hany; [|eexists _, _; reflexivity].
  erewrite bind_ok by reflexivity. erewrite bind_ok by reflexivity.
  destruct xs as [|x xs]; [discriminate|].
  erewrite bind_ok by reflexivity. eexists _, _. reflexivity.
Qed.

Lemma dc_evaluate_ok c labels i s (t : trace) :
  fst <$> DiehlCook.accuracy_ s = ["all"; "proportion"] →
  (DiehlCook.train c = true → is_Some (DiehlCook.best_accuracy s)) →
  ∃ t' s', DiehlCook.evaluate c labels i s t = (t', Ok s').
Proof.
  intros Hk Hbest. unfold DiehlCook.evaluate.
  erewrite bind_ok by reflexivity.
  destruct (DiehlCook.train c) eqn:Ht; [|eexists _, _; reflexivity].
  match goal with |- context [DiehlCook.checkpoint c ?s1] =>
    destruct (dc_checkpoint_ok c s1 (t ++ [EvEvaluate i])) as (t2 & s2 & E2)
  end.
  { simpl. apply dc_update_accuracy_nonempty. exact Hk. }
  { simpl. auto. }
  erewrite bind_ok by exact E2. erewrite bind_ok by reflexivity.
  eexists _, _. reflexivity.
Qed.

Lemma dc_evaluate_going c labels i k s t t' s' :
  DiehlCook.evaluate c labels i s t = (t', Ok s') → dc_going c k s → dc_going c k s'.
Proof.
  intros E (Hsr & Hb & Hk & Hld).
  apply dc_evaluate_inv in E
    as (new & s1 & t1 & s2 & t2 & _ & _ & _ & Hsr' & Hld' & _ & Hc & Hb1 & _ & Hb2 & Echk).
  split; [rewrite Hsr'; exact Hsr|]. split; [|split; [|rewrite Hld'; exact Hld]].
  - intros Ht. rewrite Hb2. rewrite Ht in Echk.
    apply dc_checkpoint_inv in Echk as (xs & best & _ & Hbest & [(_ & _ & m & _ & ->)|(_ & _ & ->)]).
    + simpl. eauto.
    + rewrite Hbest. eauto.
  - rewrite Hc. apply dc_update_accuracy_nonempty. exact Hk.
Qed.

Lemma dc_step_ok c labels i s (t : trace) :
  0 < DiehlCook.update_interval c → DiehlCook.progress_interval c ≠ 0 →
  0 ≤ i < Z.of_nat (length (mnist TrainSplit).1) →
  dc_going c i s →
  ∃ s' t', DiehlCook.step c labels i s t = (t', Ok s') ∧ dc_going c (i + 1) s'.
Proof.
  intros Hui Hpi Hi Hgo. unfold DiehlCook.step.
  erewrite bind_ok by (unfold lift; rewrite mod_ok by assumption; reflexivity).
  erewrite bind_ok by (unfold lift; rewrite mod_ok by lia; reflexivity).
  assert (Hev : ∃ s1 t1,
            (if (i mod DiehlCook.update_interval c =? 0) && (0 <? i)
             then DiehlCook.evaluate c labels i s else mret s) t = (t1, Ok s1)
            ∧ dc_going c i s1).
  { destruct (_ && _).
    - destruct (dc_evaluate_ok c labels i s t) as (t1 & s1 & E); [apply Hgo | apply Hgo |].
      exists s1, t1. split; [exact E|]. eapply dc_evaluate_going; eauto.
    - exists s, t. auto. }
  destruct Hev as (s1 & t1 & E1 & (Hsr & Hb & Hk & Hld)).
  erewrite bind_ok by exact E1.
  destruct (DiehlCook.data_loader s1) as [|datum rest] eqn:Hloader; [simpl in Hld; lia|].
  erewrite bind_ok by reflexivity. lazy beta iota.
  erewrite bind_ok by reflexivity.
  erewrite bind_ok by (unfold lift; rewrite mod_ok by lia; reflexivity).
  erewrite bind_ok; cycle 1.
  { unfold lift. rewrite setitem_ok; [reflexivity|].
    rewrite Hsr. apply Z.mod_pos_bound. exact Hui. }
  erewrite bind_ok by reflexivity.
  eexists _, _. split; [reflexivity|].
  unfold dc_going. simpl. rewrite length_insert.
  split; [exact Hsr|]. split; [exact Hb|]. split; [exact Hk|].
  simpl in Hld. lia.
Qed.

Lemma dc_check_ok c (t : trace) :
  0 < DiehlCook.update_interval c →
  (DiehlCook.update_interval c | DiehlCook.n_train c) →
  (DiehlCook.update_interval c | DiehlCook.n_test c) →
  DiehlCook.check_divisible c t = (t, Ok tt).
Proof.
  intros Hui D1 D2. rewrite dc_check_divisible_eq.
  assert (Hne : DiehlCook.update_interval c ≠ 0) by lia.
  rewrite (proj2 (Z.eqb_neq _ 0) Hne).
  rewrite (proj2 (check_cases _ _ _ Hne) (conj D1 D2)). reflexivity.
Qed.

End DiehlCookReturns.

(** ** The checkpoint decision, evaluation by evaluation *)

Section CheckpointDecision.
Context `{Env}.
Context {order : AccOrder}.

Lemma getitem_last {A} (l : list A) :
  Py.getitem l (-1) = match last l with Some x => Ok x | None => Raise IndexError end.
Proof.
  unfold Py.getitem, Py.index. change (-1 <? 0) with true. lazy iota.
  destruct l as [|a l] using rev_ind; [reflexivity|].
  rewrite last_snoc, length_app. simpl length.
  assert (E : (0 <=? -1 + Z.of_nat (length l + 1)) && (-1 + Z.of_nat (length l + 1) <? Z.of_nat (length l + 1)) = true).
  { apply andb_true_iff. split; [apply Z.leb_le | apply Z.ltb_lt]; lia. }
  rewrite E. replace (Z.to_nat (-1 + Z.of_nat (length l + 1))) with (length l) by lia.
  rewrite lookup_app_r by lia. rewrite Nat.sub_diag. reflexivity.
Qed.

(** [[x[-1] for x in curves.values()]] are the latest accuracies. *)
Lemma lasts_latest cs xs (t : trace) : latest cs xs → lasts cs t = (t, Ok xs).
Proof.
  unfold latest, lasts. induction 1 as [|kv x cs xs Hx _ IH]; [reflexivity|].
  simpl. erewrite bind_ok by (unfold lift; rewrite getitem_last, Hx; reflexivity).
  erewrite bind_ok by exact IH. reflexivity.
Qed.

Lemma latest_appended (cs : list (string * list Acc)) a :
  latest ((λ kv : string * list Acc, (kv.1, kv.2 ++ [a])) <$> cs) ((λ _, a) <$> cs).
Proof.
  unfold latest. induction cs as [|kv cs IH]; [constructor|].
  rewrite !fmap_cons. constructor; [|exact IH]. simpl. apply last_snoc.
Qed.

Lemma any_gt_exceeds xs best : any_gt xs best = true ↔ exceeds xs best.
Proof.
  unfold any_gt, exceeds. rewrite existsb_exists. split.
  - intros (x & Hin & Hx). exists x. split; [apply list_elem_of_In; exact Hin | exact Hx].
  - intros (x & Hin & Hx). exists x. split; [apply list_elem_of_In; exact Hin | exact Hx].
Qed.

(** The largest of accuracies of which one exceeds the watermark. *)
Lemma max_exceeding xs best (t : trace) :
  exceeds xs best →
  ∃ m, max_ xs t = (t, Ok m) ∧ largest xs m ∧ acc_gt m best = true.
Proof.
  intros Hex. pose proof (proj2 (any_gt_exceeds xs best) Hex) as Hany.
  destruct xs as [|x xs]; [discriminate|].
  destruct (max_ (x :: xs) t) as [t' r] eqn:E.
  assert (∃ m, r = Ok m ∧ t' = t) as (m & -> & ->).
  { unfold max_ in E. injection E as <- <-. eauto. }
  exists m. split; [reflexivity|].
  apply max_spec in E as (_ & Hin & Hmax).
  split; [split; assumption|]. eapply max_above; eauto.
Qed.

(** Lines 185-194 of the driver, forwards. *)
Lemma lc_checkpoint_cases c s xs best (t : trace) :
  latest (LogReg.curves s) xs →
  LogReg.best_accuracy s = Some best →
  (exceeds xs best
   ∧ ∃ m, largest xs m ∧ acc_gt m best = true
          ∧ LogReg.checkpoint c s t =
              (t ++ [EvSaveNetwork (LogReg.network_file c); EvSaveAux (LogReg.auxiliary_file c)],
               Ok (lc_with_best s (Some m))))
  ∨ (¬ exceeds xs best ∧ LogReg.checkpoint c s t = (t, Ok s)).
Proof.
  intros Hl Hb. unfold LogReg.checkpoint.
  erewrite bind_ok by (apply lasts_latest; exact Hl). rewrite Hb.
  erewrite bind_ok by reflexivity.
  destruct (any_gt xs best) eqn:Hany.
  - left. apply any_gt_exceeds in Hany. split; [exact Hany|].
    destruct (max_exceeding xs best
                ((t ++ [EvSaveNetwork (LogReg.network_file c)])
                 ++ [EvSaveAux (LogReg.auxiliary_file c)]) Hany) as (m & Em & Hm & Hgt).
    exists m. split; [exact Hm|]. split; [exact Hgt|].
    erewrite bind_ok by reflexivity. erewrite bind_ok by reflexivity.
    erewrite bind_ok by exact Em. rewrite <- app_assoc. reflexivity.
  - right. split; [|reflexivity].
    intros Hex. apply any_gt_exceeds in Hex. congruence.
Qed.

(** Lines 141-153 of the script, forwards. *)
Lemma dc_checkpoint_cases c s xs best (t : trace) :
  latest (DiehlCook.accuracy_ s) xs →
  DiehlCook.best_accuracy s = Some best →
  (exceeds xs best
   ∧ ∃ m, largest xs m ∧ acc_gt m best = true
          ∧ DiehlCook.checkpoint c s t =
              (t ++ [EvSaveNetwork (DiehlCook.network_file c); EvSaveAux DiehlCook.auxiliary_file],
               Ok (dc_with_best s (Some m))))
  ∨ (¬ exceeds xs best ∧ DiehlCook.checkpoint c s t = (t, Ok s)).
Proof.
  intros Hl Hb. unfold DiehlCook.checkpoint.
  erewrite bind_ok by (apply lasts_latest; exact Hl). rewrite Hb.
  erewrite bind_ok by reflexivity.
  destruct (any_gt xs best) eqn:Hany.
  - left. apply any_gt_exceeds in Hany. split; [exact Hany|].
    destruct (max_exceeding xs best
                ((t ++ [EvSaveNetwork (DiehlCook.network_file c)])
                 ++ [EvSaveAux DiehlCook.auxiliary_file]) Hany) as (m & Em & Hm & Hgt).
    exists m. split; [exact Hm|]. split; [exact Hgt|].
    erewrite bind_ok by reflexivity. erewrite bind_ok by reflexivity.
    erewrite bind_ok by exact Em. rewrite <- app_assoc. reflexivity.
  - right. split; [|reflexivity].
    intros Hex. apply any_gt_exceeds in Hex. congruence.
Qed.

(** An evaluation of the loop of the driver in training mode. *)
Lemma lc_evaluate_training c labels i s best (t : trace) :
  LogReg.train c = true → labels ≠ [] → LogReg.best_accuracy s = Some best →
  ∃ s' xs,
    latest (LogReg.curves s') xs
    ∧ ((exceeds xs best
        ∧ LogReg.evaluate c labels i s t =
            (t ++ [EvEvaluate i; EvSaveCurves (LogReg.curves_file c);
                   EvSaveNetwork (LogReg.network_file c);
                   EvSaveAux (LogReg.auxiliary_file c); EvRefit i], Ok s')
        ∧ ∃ m, largest xs m ∧ LogReg.best_accuracy s' = Some m ∧ acc_gt m best = true)
       ∨ (¬ exceeds xs best
          ∧ LogReg.evaluate c labels i s t =
              (t ++ [EvEvaluate i; EvSaveCurves (LogReg.curves_file c); EvRefit i], Ok s')
          ∧ LogReg.best_accuracy s' = Some best)).
Proof.
  intros Ht Hne Hb. unfold LogReg.evaluate.
  destruct (lc_current_interval_ok c labels (LogReg.full_spike_record s) i t Hne) as ([cl cr] & E).
  erewrite bind_ok by exact E. unfold LogReg.update_curves. lazy beta iota zeta.
  erewrite bind_ok by reflexivity. erewrite bind_ok by reflexivity. rewrite Ht.
  set (a := accuracy cl (logreg_predict cr (LogReg.logreg_model s))).
  set (s1 := LogReg.State _ _ _ _ _ _ _ _).
  set (t1 := (t ++ [EvEvaluate i]) ++ [EvSaveCurves (LogReg.curves_file c)]).
  pose proof (latest_appended (LogReg.curves s) a) as Hl.
  destruct (lc_checkpoint_cases c s1 _ best t1 Hl Hb)
    as [(Hex & m & Hm & Hgt & Echk)|(Hex & Echk)].
  - eexists _, _. split; [|left; split; [exact Hex|]; split].
    2:{ erewrite bind_ok by exact Echk. erewrite bind_ok by reflexivity.
        subst t1. rewrite <- !app_assoc. reflexivity. }
    + exact Hl.
    + exists m. simpl. auto.
  - eexists _, _. split; [|right; split; [exact Hex|]; split].
    2:{ erewrite bind_ok by exact Echk. erewrite bind_ok by reflexivity.
        subst t1. rewrite <- !app_assoc. reflexivity. }
    + exact Hl.
    + exact Hb.
Qed.

(** The evaluation after the loop of the driver in training mode. *)
Lemma lc_final_flush_training c labels s best i0 (t : trace) :
  LogReg.train c = true → labels ≠ [] →
  LogReg.best_accuracy s = Some best → LogReg.var_i s = Some i0 →
  ∃ s' xs,
    latest (LogReg.curves s') xs
    ∧ LogReg.best_accuracy s' = Some best
    ∧ ((exceeds xs best
        ∧ LogReg.final_flush c labels s t =
            (t ++ [EvEvaluate (i0 + 1); EvSaveNetwork (LogReg.network_file c);
                   EvSaveAux (LogReg.auxiliary_file c)], Ok s'))
       ∨ (¬ exceeds xs best
          ∧ LogReg.final_flush c labels s t = (t ++ [EvEvaluate (i0 + 1)], Ok s'))).
Proof.
  intros Ht Hne Hb Hi. unfold LogReg.final_flush. rewrite Hi.
  erewrite bind_ok by reflexivity. lazy beta iota zeta.
  destruct (lc_current_interval_ok c labels (LogReg.full_spike_record s) (i0 + 1) t Hne)
    as ([cl cr] & E).
  erewrite bind_ok by exact E. unfold LogReg.update_curves. lazy beta iota zeta.
  erewrite bind_ok by reflexivity. rewrite Ht.
  set (a := accuracy cl (logreg_predict cr (LogReg.logreg_model s))).
  pose proof (latest_appended (LogReg.curves s) a) as Hl.
  eexists _, ((λ _, a) <$> LogReg.curves s).
  destruct (any_gt ((λ _, a) <$> LogReg.curves s) best) eqn:Hany.
  - split; [|split; [|left; split; [apply any_gt_exceeds; exact Hany|]]].
    3:{ erewrite bind_ok; cycle 1.
        { cbn [LogReg.curves LogReg.best_accuracy].
          erewrite bind_ok by (apply lasts_latest; exact Hl). rewrite Hb.
          erewrite bind_ok by reflexivity. rewrite Hany.
          erewrite bind_ok by reflexivity. reflexivity. }
        rewrite <- !app_assoc. reflexivity. }
    + exact Hl.
    + exact Hb.
  - split; [|split; [|right; split]].
    4:{ erewrite bind_ok; cycle 1.
        { cbn [LogReg.curves LogReg.best_accuracy].
          erewrite bind_ok by (apply lasts_latest; exact Hl). rewrite Hb.
          erewrite bind_ok by reflexivity. rewrite Hany. reflexivity. }
        reflexivity. }
    + exact Hl.
    + exact Hb.
    + intros Hex. apply any_gt_exceeds in Hex. congruence.
Qed.

(** The two curves of the script after an evaluation. *)
Lemma dc_latest_updated c labels i s :
  fst <$> DiehlCook.accuracy_ s = ["all"; "proportion"] →
  latest (DiehlCook.update_accuracy c labels i s)
    [percent (Py.slice labels (Some (i - DiehlCook.update_interval c)) (Some i))
       (all_activity (DiehlCook.spike_record s) (DiehlCook.classifier s))
       (DiehlCook.update_interval c);
     percent (Py.slice labels (Some (i - DiehlCook.update_interval c)) (Some i))
       (proportion_weighting (DiehlCook.spike_record s) (DiehlCook.classifier s))
       (DiehlCook.update_interval c)].
Proof.
  unfold DiehlCook.update_accuracy, latest. intros Hk.
  destruct (DiehlCook.accuracy_ s) as [|[k1 v1] [|[k2 v2] [|? ?]]]; try discriminate.
  injection Hk as -> ->. simpl.
  repeat constructor; simpl; apply last_snoc.
Qed.

(** An evaluation of the loop of the script in training mode. *)
Lemma dc_evaluate_training c labels i s best (t : trace) :
  DiehlCook.train c = true →
  fst <$> DiehlCook.accuracy_ s = ["all"; "proportion"] →
  DiehlCook.best_accuracy s = Some best →
  ∃ s' xs,
    latest (DiehlCook.accuracy_ s') xs
    ∧ ((exceeds xs best
        ∧ DiehlCook.evaluate c labels i s t =
            (t ++ [EvEvaluate i; EvSaveNetwork (DiehlCook.network_file c);
                   EvSaveAux DiehlCook.auxiliary_file; EvRefit i], Ok s')
        ∧ ∃ m, largest xs m ∧ DiehlCook.best_accuracy s' = Some m ∧ acc_gt m best = true)
       ∨ (¬ exceeds xs best
          ∧ DiehlCook.evaluate c labels i s t = (t ++ [EvEvaluate i; EvRefit i], Ok s')
          ∧ DiehlCook.best_accuracy s' = Some best)).
Proof.
  intros Ht Hk Hb. unfold DiehlCook.evaluate.
  erewrite bind_ok by reflexivity. rewrite Ht.
  set (s1 := DiehlCook.State _ _ _ _ _ _ _).
  pose proof (dc_latest_updated c labels i s Hk) as Hl.
  destruct (dc_checkpoint_cases c s1 _ best (t ++ [EvEvaluate i]) Hl Hb)
    as [(Hex & m & Hm & Hgt & Echk)|(Hex & Echk)].
  - eexists _, _. split; [|left; split; [exact Hex|]; split].
    2:{ erewrite bind_ok by exact Echk. erewrite bind_ok by reflexivity.
        rewrite <- !app_assoc. reflexivity. }
    + exact Hl.
    + exists m. simpl. auto.
  - eexists _, _. split; [|right; split; [exact Hex|]; split].
    2:{ erewrite bind_ok by exact Echk. erewrite bind_ok by reflexivity.
        rewrite <- !app_assoc. reflexivity. }
    + exact Hl.
    + exact Hb.
Qed.

(** The watermark of a training run is bound from the set-up on. *)
Lemma lc_loop_best fuel c images labels j k s (t : trace) sj tj sk tk b :
  0 ≤ j ≤ k →
  LogReg.loop fuel c images labels j s t = (tj, Ok sj) →
  LogReg.loop fuel c images labels k s t = (tk, Ok sk) →
  LogReg.best_accuracy s = Some b →
  ∃ bj bk, LogReg.best_accuracy sj = Some bj ∧ LogReg.best_accuracy sk = Some bk
           ∧ acc_gt bj bk = false.
Proof.
  intros Hjk Ej Ek Hb. unfold LogReg.loop in *.
  assert (Hj : not_below b (LogReg.best_accuracy sj)).
  { apply (for_each_keeps _ (λ s, not_below b (LogReg.best_accuracy s)) _ _ _ _ _ Ej).
    - exists b. split; [exact Hb | apply acc_gt_irrefl].
    - intros i s1 t2 s2 t3 P1 Estep. eapply lc_step_best; eauto. }
  destruct Hj as (bj & Hbj & _).
  pose proof (for_each_range_split _ _ _ _ _ _ _ _ _ Hjk Ej Ek) as Erest.
  assert (Hk : not_below bj (LogReg.best_accuracy sk)).
  { apply (for_each_keeps _ (λ s, not_below bj (LogReg.best_accuracy s)) _ _ _ _ _ Erest).
    - exists bj. split; [exact Hbj | apply acc_gt_irrefl].
    - intros i s1 t2 s2 t3 P1 Estep. eapply lc_step_best; eauto. }
  destruct Hk as (bk & Hbk & Hle). exists bj, bk. auto.
Qed.

Lemma dc_loop_best c labels j k s (t : trace) sj tj sk tk b :
  0 ≤ j ≤ k →
  DiehlCook.loop c labels j s t = (tj, Ok sj) →
  DiehlCook.loop c labels k s t = (tk, Ok sk) →
  DiehlCook.best_accuracy s = Some b →
  ∃ bj bk, DiehlCook.best_accuracy sj = Some bj ∧ DiehlCook.best_accuracy sk = Some bk
           ∧ acc_gt bj bk = false.
Proof.
  intros Hjk Ej Ek Hb. unfold DiehlCook.loop in *.
  assert (Hj : not_below b (DiehlCook.best_accuracy sj)).
  { apply (for_each_keeps _ (λ s, not_below b (DiehlCook.best_accuracy s)) _ _ _ _ _ Ej).
    - exists b. split; [exact Hb | apply acc_gt_irrefl].
    - intros i s1 t2 s2 t3 P1 Estep. eapply dc_step_best; eauto. }
  destruct Hj as (bj & Hbj & _).
  pose proof (for_each_range_split _ _ _ _ _ _ _ _ _ Hjk Ej Ek) as Erest.
  assert (Hk : not_below bj (DiehlCook.best_accuracy sk)).
  { apply (for_each_keeps _ (λ s, not_below bj (DiehlCook.best_accuracy s)) _ _ _ _ _ Erest).
    - exists bj. split; [exact Hbj | apply acc_gt_irrefl].
    - intros i s1 t2 s2 t3 P1 Estep. eapply dc_step_best; eauto. }
  destruct Hk as (bk & Hbk & Hle). exists bj, bk. auto.
Qed.

(** C2. In a training run the best-accuracy watermark is
    bound from the start and never decreases from one point of the loop to
    a later one.  At every evaluation of the loop the checkpoint (network
    and classifier state) is written exactly when the latest accuracy of
    some scheme exceeds the watermark, and the watermark then becomes the
    largest of the latest accuracies, which exceeds its previous value;
    otherwise neither the files nor the watermark change.  The evaluation
    after the loop never raises the watermark: the logistic-regression
    driver then writes the checkpoint under the same condition and leaves
    the watermark as it is, and the Diehl and Cook script writes nothing. *)
Theorem C2_watermark_never_decreases :
  (∀ fuel (c : LogReg.config) j k t0 tj tk imj imk lj lk sj sk,
     LogReg.train c = true → 0 ≤ j ≤ k →
     LogReg.examples fuel c j t0 = (tj, Ok (imj, lj, sj)) →
     LogReg.examples fuel c k t0 = (tk, Ok (imk, lk, sk)) →
     ∃ bj bk, LogReg.best_accuracy sj = Some bj ∧ LogReg.best_accuracy sk = Some bk
              ∧ acc_gt bj bk = false)
  ∧ (∀ (c : LogReg.config) labels i s best (t : trace),
       LogReg.train c = true → labels ≠ [] → LogReg.best_accuracy s = Some best →
       ∃ s' xs,
         latest (LogReg.curves s') xs
         ∧ ((exceeds xs best
             ∧ LogReg.evaluate c labels i s t =
                 (t ++ [EvEvaluate i; EvSaveCurves (LogReg.curves_file c);
                        EvSaveNetwork (LogReg.network_file c);
                        EvSaveAux (LogReg.auxiliary_file c); EvRefit i], Ok s')
             ∧ ∃ m, largest xs m ∧ LogReg.best_accuracy s' = Some m ∧ acc_gt m best = true)
            ∨ (¬ exceeds xs best
               ∧ LogReg.evaluate c labels i s t =
                   (t ++ [EvEvaluate i; EvSaveCurves (LogReg.curves_file c); EvRefit i], Ok s')
               ∧ LogReg.best_accuracy s' = Some best)))
  ∧ (∀ (c : LogReg.config) labels s best i0 (t : trace),
       LogReg.train c = true → labels ≠ [] →
       LogReg.best_accuracy s = Some best → LogReg.var_i s = Some i0 →
       ∃ s' xs,
         latest (LogReg.curves s') xs
         ∧ LogReg.best_accuracy s' = Some best
         ∧ ((exceeds xs best
             ∧ LogReg.final_flush c labels s t =
                 (t ++ [EvEvaluate (i0 + 1); EvSaveNetwork (LogReg.network_file c);
                        EvSaveAux (LogReg.auxiliary_file c)], Ok s'))
            ∨ (¬ exceeds xs best
               ∧ LogReg.final_flush c labels s t = (t ++ [EvEvaluate (i0 + 1)], Ok s'))))
  ∧ (∀ (c : DiehlCook.config) j k t0 tj tk lj lk sj sk,
       DiehlCook.train c = true → 0 ≤ j ≤ k →
       DiehlCook.examples c j t0 = (tj, Ok (lj, sj)) →
       DiehlCook.examples c k t0 = (tk, Ok (lk, sk)) →
       ∃ bj bk, DiehlCook.best_accuracy sj = Some bj ∧ DiehlCook.best_accuracy sk = Some bk
                ∧ acc_gt bj bk = false)
  ∧ (∀ (c : DiehlCook.config) labels i s best (t : trace),
       DiehlCook.train c = true →
       fst <$> DiehlCook.accuracy_ s = ["all"; "proportion"] →
       DiehlCook.best_accuracy s = Some best →
       ∃ s' xs,
         latest (DiehlCook.accuracy_ s') xs
         ∧ ((exceeds xs best
             ∧ DiehlCook.evaluate c labels i s t =
                 (t ++ [EvEvaluate i; EvSaveNetwork (DiehlCook.network_file c);
                        EvSaveAux DiehlCook.auxiliary_file; EvRefit i], Ok s')
             ∧ ∃ m, largest xs m ∧ DiehlCook.best_accuracy s' = Some m
                    ∧ acc_gt m best = true)
            ∨ (¬ exceeds xs best
               ∧ DiehlCook.evaluate c labels i s t = (t ++ [EvEvaluate i; EvRefit i], Ok s')
               ∧ DiehlCook.best_accuracy s' = Some best)))
  ∧ (∀ (c : DiehlCook.config) labels s i0 (t : trace),
       DiehlCook.var_i s = Some i0 →
       ∃ s', DiehlCook.final_flush c labels s t = (t ++ [EvEvaluate (i0 + 1)], Ok s')
             ∧ DiehlCook.accuracy_ s' = DiehlCook.update_accuracy c labels (i0 + 1) s
             ∧ DiehlCook.best_accuracy s' = DiehlCook.best_accuracy s).
Proof.
  split; [|split; [|split; [|split; [|split]]]].
  - intros fuel c j k t0 tj tk imj imk lj lk sj sk Ht Hjk Ej Ek.
    unfold LogReg.examples in Ej, Ek.
    apply bind_ok_inv in Ej as ([[ims lbs] s0] & t1 & Esetup & Ej).
    erewrite bind_ok in Ek by exact Esetup.
    apply bind_ok_inv in Ej as (sj' & tj' & Eloopj & Ej). injection Ej as <- <- <- <-.
    apply bind_ok_inv in Ek as (sk' & tk' & Eloopk & Ek). injection Ek as <- <- <- <-.
    apply lc_setup_inv in Esetup as (_ & _ & _ & _ & _ & Hb & _). rewrite Ht in Hb.
    eapply lc_loop_best; eauto.
  - intros c labels i s best t. apply lc_evaluate_training.
  - intros c labels s best i0 t. apply lc_final_flush_training.
  - intros c j k t0 tj tk lj lk sj sk Ht Hjk Ej Ek.
    unfold DiehlCook.examples in Ej, Ek.
    apply bind_ok_inv in Ej as ([lbs s0] & t1 & Esetup & Ej).
    erewrite bind_ok in Ek by exact Esetup.
    apply bind_ok_inv in Ej as (sj' & tj' & Eloopj & Ej). injection Ej as <- <- <-.
    apply bind_ok_inv in Ek as (sk' & tk' & Eloopk & Ek). injection Ek as <- <- <-.
    apply dc_setup_inv in Esetup as (_ & _ & _ & Hb & _). rewrite Ht in Hb.
    eapply dc_loop_best; eauto.
  - intros c labels i s best t. apply dc_evaluate_training.
  - intros c labels s i0 t Hi. unfold DiehlCook.final_flush. rewrite Hi.
    eexists. split; [reflexivity|]. split; reflexivity.
Qed.

End CheckpointDecision.


(** * The runs in detail *)

(** ** Runs that end in an exception *)

Section Failures.
Context `{Env}.

Lemma range_cons n : 0 < n → Py.range n = 0 :: seqZ 1 (n - 1).
Proof.
  intros Hn. unfold Py.range. rewrite seqZ_cons by assumption.
  replace (Z.pred n) with (n - 1) by lia. reflexivity.
Qed.

Lemma lc_main_setup_raise fuel c t t' e :
  LogReg.setup c t = (t', Raise e) → LogReg.main fuel c t = (t', Raise e).
Proof.
  intros E. unfold LogReg.main, LogReg.before_confusion, LogReg.examples.
  do 3 (erewrite bind_raise; [reflexivity|]). exact E.
Qed.

Lemma dc_script_setup_raise c t t' e :
  DiehlCook.setup c t = (t', Raise e) → DiehlCook.script c t = (t', Raise e).
Proof.
  intros E. unfold DiehlCook.script, DiehlCook.examples.
  erewrite bind_raise; [reflexivity|]. erewrite bind_raise; [reflexivity | exact E].
Qed.

Lemma lc_main_loop_raise fuel c t t1 images labels s t' e :
  LogReg.setup c t = (t1, Ok (images, labels, s)) →
  LogReg.loop fuel c images labels (LogReg.n_examples c) s t1 = (t', Raise e) →
  LogReg.main fuel c t = (t', Raise e).
Proof.
  intros E1 E2. unfold LogReg.main, LogReg.before_confusion, LogReg.examples.
  do 2 (erewrite bind_raise; [reflexivity|]).
  erewrite bind_ok by exact E1. lazy beta iota.
  erewrite bind_raise; [reflexivity | exact E2].
Qed.

Lemma dc_script_loop_raise c t t1 labels s t' e :
  DiehlCook.setup c t = (t1, Ok (labels, s)) →
  DiehlCook.loop c labels (DiehlCook.n_examples c) s t1 = (t', Raise e) →
  DiehlCook.script c t = (t', Raise e).
Proof.
  intros E1 E2. unfold DiehlCook.script, DiehlCook.examples.
  erewrite bind_raise; [reflexivity|].
  erewrite bind_ok by exact E1. lazy beta iota.
  erewrite bind_raise; [reflexivity | exact E2].
Qed.

(** X1. With [update_interval = 0] both drivers end in the
    [ZeroDivisionError] of the [%] of their first statement, before the
    assertion can fail and before anything else is done. *)
Theorem X1_zero_update_interval_is_a_division_by_zero
    fuel (lc : LogReg.config) (dc : DiehlCook.config) (t : trace) :
  LogReg.update_interval lc = 0 →
  DiehlCook.update_interval dc = 0 →
  LogReg.main fuel lc t = (t, Raise ZeroDivisionError)
  ∧ DiehlCook.script dc t = (t, Raise ZeroDivisionError).
Proof.
  intros El Ed. split.
  - apply lc_main_setup_raise. unfold LogReg.setup.
    erewrite bind_raise; [reflexivity|].
    rewrite lc_check_divisible_eq, El. reflexivity.
  - apply dc_script_setup_raise. unfold DiehlCook.setup.
    erewrite bind_raise; [reflexivity|].
    rewrite dc_check_divisible_eq, Ed. reflexivity.
Qed.

(** X2. [progress_interval] is not validated: with [progress_interval = 0]
    and at least one example, both drivers complete their set-up (the
    network is provisioned and the data loaded) and then end in the
    [ZeroDivisionError] of [i % progress_interval] at the first example,
    which is never presented. *)
Theorem X2_zero_progress_interval_fails_at_the_first_example
    fuel (lc : LogReg.config) (dc : DiehlCook.config)
    (lt : trace) limages llabels ls (dt : trace) dlabels ds :
  LogReg.progress_interval lc = 0 → 0 < LogReg.n_examples lc →
  DiehlCook.progress_interval dc = 0 → 0 < DiehlCook.n_examples dc →
  LogReg.setup lc [] = (lt, Ok (limages, llabels, ls)) →
  DiehlCook.setup dc [] = (dt, Ok (dlabels, ds)) →
  (LogReg.main fuel lc [] = (lt, Raise ZeroDivisionError) ∧ runs lt = [])
  ∧ (DiehlCook.script dc [] = (dt, Raise ZeroDivisionError) ∧ runs dt = []).
Proof.
  intros Hlp Hln Hdp Hdn El Ed. split; split.
  - eapply lc_main_loop_raise; [exact El|].
    unfold LogReg.loop. rewrite range_cons by assumption. simpl.
    erewrite bind_raise; [reflexivity|]. unfold LogReg.step.
    erewrite bind_raise; [reflexivity|]. rewrite Hlp. reflexivity.
  - assert (Hq : emits not_run (LogReg.setup lc)).
    { unfold LogReg.setup, LogReg.check_divisible, LogReg.provision, LogReg.load_data,
        LogReg.load_classifier, LogReg.buffers. emits_auto. }
    destruct (Hq _ _ _ El) as (new & -> & F). simpl.
    clear El. induction F as [|e new He _ IH]; [reflexivity|].
    destruct e; simpl in *; try contradiction; exact IH.
  - eapply dc_script_loop_raise; [exact Ed|].
    unfold DiehlCook.loop. rewrite range_cons by assumption. simpl.
    erewrite bind_raise; [reflexivity|]. unfold DiehlCook.step.
    erewrite bind_raise; [reflexivity|]. rewrite Hdp. reflexivity.
  - assert (Hq : emits not_run (DiehlCook.setup dc)).
    { unfold DiehlCook.setup, DiehlCook.check_divisible, DiehlCook.provision,
        DiehlCook.freeze, DiehlCook.load_data, DiehlCook.load_classifier, DiehlCook.buffers.
      emits_auto. }
    destruct (Hq _ _ _ Ed) as (new & -> & F). simpl.
    clear Ed. induction F as [|e new He _ IH]; [reflexivity|].
    destruct e; simpl in *; try contradiction; exact IH.
Qed.

(** X3. With [n_examples = 0] the loop body never runs and the loop
    variable is never bound: after the set-up the logistic-regression
    driver ends in [UnboundLocalError] and the script in [NameError], both
    at [i += 1], and nothing is evaluated or written. *)
Theorem X3_no_examples_leaves_the_loop_variable_unbound
    fuel (lc : LogReg.config) (dc : DiehlCook.config)
    (lt : trace) limages llabels ls (dt : trace) dlabels ds :
  LogReg.n_examples lc = 0 →
  DiehlCook.n_examples dc = 0 →
  LogReg.setup lc [] = (lt, Ok (limages, llabels, ls)) →
  DiehlCook.setup dc [] = (dt, Ok (dlabels, ds)) →
  LogReg.main fuel lc [] = (lt, Raise (UnboundLocalError "i"))
  ∧ DiehlCook.script dc [] = (dt, Raise (NameError "i")).
Proof.
  intros Hl Hd El Ed. split.
  - pose proof (lc_setup_inv _ _ _ _ _ _ El) as (_ & _ & _ & _ & _ & _ & Hi & _).
    unfold LogReg.main, LogReg.before_confusion, LogReg.examples.
    erewrite bind_raise; [reflexivity|].
    erewrite bind_ok; cycle 1.
    { erewrite bind_ok by exact El. lazy beta iota.
      unfold LogReg.loop. rewrite Hl. simpl. reflexivity. }
    lazy beta iota. erewrite bind_raise; [reflexivity|].
    unfold LogReg.final_flush. erewrite bind_raise; [reflexivity|].
    rewrite Hi. reflexivity.
  - pose proof (dc_setup_inv _ _ _ _ _ Ed) as (_ & _ & _ & _ & Hi & _).
    unfold DiehlCook.script, DiehlCook.examples.
    erewrite bind_ok; cycle 1.
    { erewrite bind_ok by exact Ed. lazy beta iota.
      unfold DiehlCook.loop. rewrite Hd. simpl. reflexivity. }
    lazy beta iota. erewrite bind_raise; [reflexivity|].
    unfold DiehlCook.final_flush. erewrite bind_raise; [reflexivity|].
    rewrite Hi. reflexivity.
Qed.

Lemma seed_all_ok seed (t : trace) :
  0 ≤ seed < 2 ^ 32 → seed_all seed t = (t ++ [EvSeed seed], Ok tt).
Proof.
  intros [Hl Hu]. unfold seed_all.
  rewrite (proj2 (Z.leb_le _ _) Hl), (proj2 (Z.ltb_lt _ _) Hu). reflexivity.
Qed.

(** X4. A test run needs the checkpoint of a training run with the same
    parameters.  When [load_network] raises for the network file, both
    drivers end in its exception right after seeding, before the data is
    read; when it reports the missing file and returns [None], they end in
    the [AttributeError] of [network.connections] at the same point.  When
    the network is there and only the classifier file is missing (and the
    buffers allocated before it is read have non-negative sizes), they end
    in [FileNotFoundError] for it after the network and the data were
    loaded.  Nothing is presented in any of these cases.  (The seed is
    one [numpy] accepts, and [n_neurons] of the script not negative.) *)
Theorem X4_test_mode_needs_the_checkpoint_files :
  (∀ fuel (c : LogReg.config),
     LogReg.train c = false →
     0 ≤ LogReg.seed c < 2 ^ 32 →
     0 < LogReg.update_interval c →
     (LogReg.update_interval c | LogReg.n_train c) →
     (LogReg.update_interval c | LogReg.n_test c) →
     (∀ e, load_lc_network (LogReg.network_file c) = Raise e →
        LogReg.main fuel c [] =
          ([EvSeed (LogReg.seed c); EvLoadNetwork (LogReg.network_file c)], Raise e))
     ∧ (load_lc_network (LogReg.network_file c) = Ok None →
        LogReg.main fuel c [] =
          ([EvSeed (LogReg.seed c); EvLoadNetwork (LogReg.network_file c)],
           Raise (AttributeError "connections")))
     ∧ (∀ net0,
          load_lc_network (LogReg.network_file c) = Ok (Some net0) →
          0 ≤ LogReg.n_test c → 0 ≤ LogReg.time c →
          0 ≤ LogReg.n_filters c * lc_conv_prod (LogReg.freeze net0) →
          disk_model (LogReg.auxiliary_file c) = None →
          LogReg.main fuel c [] =
            ([EvSeed (LogReg.seed c); EvLoadNetwork (LogReg.network_file c);
              EvLoadData TestSplit; EvLoadAux (LogReg.auxiliary_file c)],
             Raise (FileNotFoundError (LogReg.auxiliary_file c)))))
  ∧ (∀ (c : DiehlCook.config),
       DiehlCook.train c = false →
       0 ≤ DiehlCook.seed c < 2 ^ 32 →
       0 ≤ DiehlCook.n_neurons c →
       0 < DiehlCook.update_interval c →
       (DiehlCook.update_interval c | DiehlCook.n_train c) →
       (DiehlCook.update_interval c | DiehlCook.n_test c) →
       (∀ e, load_dc_network (DiehlCook.network_file c) = Raise e →
          DiehlCook.script c [] =
            ([EvSeed (DiehlCook.seed c); EvLoadNetwork (DiehlCook.network_file c)], Raise e))
       ∧ (load_dc_network (DiehlCook.network_file c) = Ok None →
          DiehlCook.script c [] =
            ([EvSeed (DiehlCook.seed c); EvLoadNetwork (DiehlCook.network_file c)],
             Raise (AttributeError "connections")))
       ∧ (∀ net0 n thresh theta tp td,
            load_dc_network (DiehlCook.network_file c) = Ok (Some net0) →
            dc_Ae net0 = DiehlAndCookNodes n thresh theta tp td →
            0 ≤ DiehlCook.time c →
            disk_assign DiehlCook.auxiliary_file = None →
            DiehlCook.script c [] =
              ([EvSeed (DiehlCook.seed c); EvLoadNetwork (DiehlCook.network_file c);
                EvLoadData TrainSplit; EvLoadAux DiehlCook.auxiliary_file],
               Raise (FileNotFoundError DiehlCook.auxiliary_file)))).
Proof.
  split.
  - intros fuel c Tl Hseed Hu L1 L2.
    assert (Cl : ∀ t : trace, LogReg.check_divisible c t = (t, Ok tt))
      by (intros t; apply lc_check_ok; assumption).
    split; [|split].
    + intros e Hnet. apply lc_main_setup_raise. unfold LogReg.setup.
      erewrite bind_ok by apply Cl. erewrite bind_ok by (apply seed_all_ok; exact Hseed).
      erewrite bind_raise; [reflexivity|].
      unfold LogReg.provision. rewrite Tl.
      erewrite bind_ok by reflexivity. erewrite bind_raise; [reflexivity|].
      rewrite Hnet. reflexivity.
    + intros Hnet. apply lc_main_setup_raise. unfold LogReg.setup.
      erewrite bind_ok by apply Cl. erewrite bind_ok by (apply seed_all_ok; exact Hseed).
      erewrite bind_raise; [reflexivity|].
      unfold LogReg.provision. rewrite Tl.
      erewrite bind_ok by reflexivity. rewrite Hnet.
      erewrite bind_ok by reflexivity. erewrite bind_raise; reflexivity.
    + intros net0 Hnet Hn Ht Hf Haux. apply lc_main_setup_raise. unfold LogReg.setup.
      erewrite bind_ok by apply Cl. erewrite bind_ok by (apply seed_all_ok; exact Hseed).
      erewrite bind_ok; cycle 1.
      { unfold LogReg.provision. rewrite Tl.
        erewrite bind_ok by reflexivity. rewrite Hnet.
        erewrite bind_ok by reflexivity. erewrite bind_ok by reflexivity. reflexivity. }
      erewrite bind_ok by apply lc_load_data_eq. lazy beta iota zeta.
      erewrite bind_ok; cycle 1.
      { unfold LogReg.buffers.
        erewrite bind_ok by (apply zeros_ok; repeat constructor; (assumption || lia)).
        erewrite bind_ok; [reflexivity|].
        apply zeros_ok. unfold LogReg.n_examples. rewrite Tl.
        repeat constructor; assumption. }
      lazy beta iota.
      erewrite bind_raise; cycle 1.
      { unfold LogReg.load_classifier. rewrite Tl.
        erewrite bind_ok by reflexivity. rewrite Haux. reflexivity. }
      reflexivity.
  - intros c Td Hseed Hn Hu D1 D2.
    assert (Cd : ∀ t : trace, DiehlCook.check_divisible c t = (t, Ok tt))
      by (intros t; apply dc_check_ok; assumption).
    assert (Cn : ∀ t : trace, DiehlCook.n_sqrt c t = (t, Ok tt)).
    { intros t. unfold DiehlCook.n_sqrt.
      rewrite (proj2 (Z.ltb_ge _ _) Hn). reflexivity. }
    split; [|split].
    + intros e Hnet. apply dc_script_setup_raise. unfold DiehlCook.setup.
      erewrite bind_ok by apply Cd. erewrite bind_ok by (apply seed_all_ok; exact Hseed).
      erewrite bind_ok by apply Cn.
      erewrite bind_raise; [reflexivity|].
      unfold DiehlCook.provision. rewrite Td.
      erewrite bind_ok by reflexivity. erewrite bind_raise; [reflexivity|].
      rewrite Hnet. reflexivity.
    + intros Hnet. apply dc_script_setup_raise. unfold DiehlCook.setup.
      erewrite bind_ok by apply Cd. erewrite bind_ok by (apply seed_all_ok; exact Hseed).
      erewrite bind_ok by apply Cn.
      erewrite bind_raise; [reflexivity|].
      unfold DiehlCook.provision. rewrite Td.
      erewrite bind_ok by reflexivity. rewrite Hnet.
      erewrite bind_ok by reflexivity. erewrite bind_raise; reflexivity.
    + intros net0 n thresh theta tp td Hnet HAe Ht Haux.
      apply dc_script_setup_raise. unfold DiehlCook.setup.
      erewrite bind_ok by apply Cd. erewrite bind_ok by (apply seed_all_ok; exact Hseed).
      erewrite bind_ok by apply Cn.
      erewrite bind_ok; cycle 1.
      { unfold DiehlCook.provision. rewrite Td.
        erewrite bind_ok by reflexivity. rewrite Hnet.
        erewrite bind_ok by reflexivity. erewrite bind_ok by reflexivity.
        unfold DiehlCook.freeze. rewrite HAe. reflexivity. }
      erewrite bind_ok by apply dc_load_data_eq. lazy beta iota zeta.
      erewrite bind_ok; cycle 1.
      { unfold DiehlCook.buffers. apply zeros_ok. repeat constructor; (assumption || lia). }
      erewrite bind_raise; [reflexivity|].
      unfold DiehlCook.load_classifier. rewrite Td.
      erewrite bind_ok by reflexivity. rewrite Haux. reflexivity.
Qed.

End Failures.


(** ** Presenting an example *)

Section Presenting.
Context `{Env}.

Lemma app_snoc2 {A} (t : list A) x y : (t ++ [x]) ++ [y] = t ++ [x; y].
Proof. rewrite <- app_assoc. reflexivity. Qed.

(** The retry loop of lines 209-215, from its first test on. *)
Lemma retry_run fuel c i x net (t : trace) :
  (3 ≤ fuel)%nat →
  let T := LogReg.time c in
  ∃ r : nat,
    (r ≤ 3)%nat
    ∧ while_ fuel LogReg.retry_cond (LogReg.retry_body c i) (0, x, lc_run net x T)
        (t ++ [EvRun i x])
      = (t ++ (EvRun i <$> attempts x r),
         Ok (Z.of_nat r, Nat.iter r double x, after T net (attempts x r)))
    ∧ (∀ j, (j < r)%nat → spikes_sum (lc_spikes (after T net (attempts x j))) < 5)
    ∧ (r = 3%nat ∨ 5 ≤ spikes_sum (lc_spikes (after T net (attempts x r)))).
Proof.
  intros Hf T.
  destruct fuel as [|[|[|fuel]]]; try lia. clear Hf.
  set (n0 := lc_run net x T).
  destruct (Z.lt_ge_cases (spikes_sum (lc_spikes n0)) 5) as [L0|G0]; cycle 1.
  { exists 0%nat. split; [lia|]. split; [apply retry_stop; left; exact G0|].
    split; [intros j Hj; lia | right; exact G0]. }
  rewrite retry_once by (assumption || lia). fold T.
  set (n1 := lc_run n0 (double x) T).
  destruct (Z.lt_ge_cases (spikes_sum (lc_spikes n1)) 5) as [L1|G1]; cycle 1.
  { exists 1%nat. split; [lia|]. rewrite app_snoc2.
    split; [apply retry_stop; left; exact G1|].
    split; [|right; exact G1].
    intros [|j] Hj; [exact L0 | lia]. }
  rewrite retry_once by (assumption || lia). fold T.
  set (n2 := lc_run n1 (double (double x)) T).
  destruct (Z.lt_ge_cases (spikes_sum (lc_spikes n2)) 5) as [L2|G2]; cycle 1.
  { exists 2%nat. split; [lia|]. rewrite !app_snoc2, <- app_assoc.
    split; [apply retry_stop; left; exact G2|].
    split; [|right; exact G2].
    intros [|[|j]] Hj; [exact L0 | exact L1 | lia]. }
  rewrite retry_once by (assumption || lia). fold T.
  exists 3%nat. split; [lia|]. rewrite !app_snoc2, <- !app_assoc.
  split; [apply retry_stop; right; lia|].
  split; [|left; reflexivity].
  intros [|[|[|j]]] Hj; [exact L0 | exact L1 | exact L2 | lia].
Qed.

(** X7. An example is presented once and then again, with the image
    doubled each time, while the output layer gave fewer than 5 spikes and
    fewer than 3 retries were made: the number of retries [r] is at most 3,
    every attempt before the last gave fewer than 5 spikes, and the last
    one gave at least 5 unless it was the third retry.  With no image at
    all the subscript [i % len(images)] is a division by zero. *)
Theorem X7_retries_stop_at_the_first_attempt_with_five_spikes
    fuel (c : LogReg.config) (images : list image) (i : Z) (net : lc_network) (t : trace) :
  (3 ≤ fuel)%nat →
  let T := LogReg.time c in
  (images = [] → LogReg.present fuel c images i net t = (t, Raise ZeroDivisionError))
  ∧ (∀ im, Py.getitem images (i mod LogReg.len images) = Ok im →
       let x := flatten im in
       ∃ r : nat,
         (r ≤ 3)%nat
         ∧ LogReg.present fuel c images i net t =
             (t ++ (EvRun i <$> attempts x r),
              Ok (Z.of_nat r, Nat.iter r double x, after T net (attempts x r)))
         ∧ (∀ j, (j < r)%nat → spikes_sum (lc_spikes (after T net (attempts x j))) < 5)
         ∧ (r = 3%nat ∨ 5 ≤ spikes_sum (lc_spikes (after T net (attempts x r))))).
Proof.
  intros Hf T. split.
  - intros ->. unfold LogReg.present. erewrite bind_raise; reflexivity.
  - intros im Him x.
    destruct (retry_run fuel c i x net t Hf) as (r & Hr & E & Hlow & Hlast).
    exists r. split; [exact Hr|]. split; [|split; assumption].
    rewrite (present_eq _ _ _ _ _ _ _ Him). exact E.
Qed.

End Presenting.

(** ** Cropping *)

Section Cropping.
Context `{Env}.

Lemma slice_none_at_zero {A} (l : list A) : Py.slice l (Some 0) (Some 0) = [].
Proof.
  unfold Py.slice, Py.adjust. cbn [from_option].
  change (0 <? 0) with false. cbn iota.
  rewrite Z.min_l by lia. reflexivity.
Qed.

Lemma slice_centre {A} (l : list A) k :
  0 < k →
  Py.slice l (Some k) (Some (- k)) =
  take (Z.to_nat (Z.of_nat (length l) - 2 * k)) (drop (Z.to_nat k) l).
Proof.
  intros Hk. unfold Py.slice, Py.adjust. simpl.
  destruct (Z.ltb_spec k 0); [lia|]. destruct (Z.ltb_spec (- k) 0); [|lia].
  destruct (Z.le_gt_cases k (Z.of_nat (length l))).
  - f_equal; [lia|]. f_equal. lia.
  - rewrite !drop_ge by lia. rewrite !take_nil. reflexivity.
Qed.

Lemma length_flatten (m : Z) (im : image) :
  0 ≤ m → Forall (λ row, Z.of_nat (length row) = m) im →
  Z.of_nat (length (flatten im)) = Z.of_nat (length im) * m.
Proof.
  intros Hm F. unfold flatten. induction F as [|row im Hrow _ IH]; [reflexivity|].
  simpl. rewrite length_app. lia.
Qed.

(** X8. Cropping by [crop > 0] keeps the centre of a square image: the
    result has [n - 2 * crop] rows and columns, its pixel [(r, c)] is the
    pixel [(r + crop, c + crop)] of the image, and flattened it has
    [(n - 2 * crop) ** 2] entries, the [n_inpt] the network is built for.
    With [crop = 0] the bounds [crop:-crop] are [0:0], and what is left of
    every image is empty. *)
Theorem X8_cropping_keeps_the_centre_and_a_zero_crop_nothing
    (n k : Z) (im : image) :
  square n im →
  LogReg.crop_image 0 im = []
  ∧ (0 < k → n ≤ 2 * k → flatten (LogReg.crop_image k im) = [])
  ∧ (0 < k → 2 * k < n →
     square (n - 2 * k) (LogReg.crop_image k im)
     ∧ Z.of_nat (length (flatten (LogReg.crop_image k im))) = (n - 2 * k) ^ 2
     ∧ ∀ r c, 0 ≤ r < n - 2 * k → 0 ≤ c < n - 2 * k →
         pixel (LogReg.crop_image k im) r c = pixel im (r + k) (c + k)).
Proof.
  intros [Hrows Hcols]. split; [|split].
  - unfold LogReg.crop_image. change (- 0) with 0.
    rewrite (slice_none_at_zero im). reflexivity.
  - intros Hk Hn. unfold LogReg.crop_image.
    rewrite slice_centre by assumption. rewrite Hrows.
    replace (Z.to_nat (n - 2 * k)) with 0%nat by lia. reflexivity.
  - intros Hk Hn. unfold LogReg.crop_image.
    rewrite slice_centre by assumption. rewrite Hrows.
    set (rows := take (Z.to_nat (n - 2 * k)) (drop (Z.to_nat k) im)).
    assert (Hlen : Z.of_nat (length rows) = n - 2 * k).
    { subst rows. rewrite length_take, length_drop. lia. }
    assert (Hsub : Forall (λ row, Z.of_nat (length row) = n) rows).
    { subst rows. apply Forall_take, Forall_drop. exact Hcols. }
    assert (Hsq : square (n - 2 * k) ((λ row, Py.slice row (Some k) (Some (- k))) <$> rows)).
    { split; [rewrite length_fmap; exact Hlen|].
      apply Forall_fmap. eapply Forall_impl; [exact Hsub|].
      intros row Hrow. simpl in *. rewrite slice_centre by assumption.
      rewrite length_take, length_drop. lia. }
    split; [exact Hsq|]. split.
    + rewrite (length_flatten (n - 2 * k)); [|lia|apply Hsq].
      destruct Hsq as [-> _]. lia.
    + intros r c Hr Hc. unfold pixel. subst rows. unfold image in *.
      rewrite (list_lookup_fmap (λ row : list Q, Py.slice row (Some k) (Some (- k)))).
      rewrite lookup_take_lt by lia. rewrite lookup_drop.
      replace (Z.to_nat k + Z.to_nat r)%nat with (Z.to_nat (r + k)) by lia.
      destruct (lookup_lt_is_Some_2 im (Z.to_nat (r + k))) as [row Hrow]; [lia|].
      rewrite !Hrow. simpl. rewrite slice_centre by assumption.
      assert (Hl : Z.of_nat (length row) = n).
      { eapply Forall_forall in Hcols; [exact Hcols|].
        eapply list_elem_of_lookup_2. exact Hrow. }
      rewrite Hl. rewrite lookup_take_lt by lia. rewrite lookup_drop.
      replace (Z.to_nat k + Z.to_nat c)%nat with (Z.to_nat (c + k)) by lia. reflexivity.
Qed.

End Cropping.


(** ** The examples of the logistic-regression driver *)

Section LogRegExamples.
Context `{Env}.

Lemma runs_app (t1 t2 : trace) : runs (t1 ++ t2) = runs t1 ++ runs t2.
Proof. unfold runs. apply omap_app. Qed.

Lemma runs_not_run (new : trace) : Forall not_run new → runs new = [].
Proof.
  induction 1 as [|e new He _ IH]; [reflexivity|].
  destruct e; simpl in *; try contradiction; exact IH.
Qed.

Lemma runs_of_attempts i (xs : list (list Q)) :
  runs (EvRun i <$> xs) = (λ x, (i, x)) <$> xs.
Proof. induction xs as [|x xs IH]; [reflexivity|]. simpl. f_equal. exact IH. Qed.

Lemma fmap_pointwise {A B} (f g : A → B) (l : list A) :
  (∀ x, f x = g x) → f <$> l = g <$> l.
Proof.
  intros E. induction l as [|x l IH]; [reflexivity|].
  rewrite !fmap_cons, E, IH. reflexivity.
Qed.

Lemma getitem_inv {A} (l : list A) k x :
  0 ≤ k → Py.getitem l k = Ok x → l !! Z.to_nat k = Some x.
Proof.
  intros Hk. unfold Py.getitem, Py.index.
  destruct (Z.ltb_spec k 0); [lia|].
  destruct ((0 <=? k) && (k <? Z.of_nat (length l))); [|discriminate].
  destruct (l !! Z.to_nat k); [|discriminate]. congruence.
Qed.

(** The data of a run are the images and labels of the split of its
    mode, the images scaled and cropped. *)
Lemma lc_setup_data c (t t' : trace) images labels s :
  LogReg.setup c t = (t', Ok (images, labels, s)) →
  images = lc_images c ∧ labels = (mnist (lc_split c)).2.
Proof.
  unfold LogReg.setup. intros E.
  apply bind_ok_inv in E as ([] & t1 & _ & E).
  apply bind_ok_inv in E as ([] & t2 & _ & E).
  apply bind_ok_inv in E as (net & t3 & _ & E).
  apply bind_ok_inv in E as ([ims lbs] & t4 & Edata & E).
  apply bind_ok_inv in E as ([sr fr] & t5 & _ & E).
  apply bind_ok_inv in E as (m & t6 & _ & E).
  injection E as _ <- <- _.
  rewrite lc_load_data_eq in Edata. injection Edata as _ <- <-.
  split; reflexivity.
Qed.

(** Induction on the number of examples of the runs that return. *)
Lemma lc_examples_ind (P : Z → trace → LogReg.state → Prop) fuel c :
  (∀ t images labels s, LogReg.setup c [] = (t, Ok (images, labels, s)) → P 0 t s) →
  (∀ k t images labels s t' s',
     0 ≤ k → LogReg.examples fuel c k [] = (t, Ok (images, labels, s)) → P k t s →
     LogReg.step fuel c images labels k s t = (t', Ok s') → P (k + 1) t' s') →
  ∀ k t images labels s,
    0 ≤ k → LogReg.examples fuel c k [] = (t, Ok (images, labels, s)) → P k t s.
Proof.
  intros Hbase Hstep k t images labels s Hk E.
  pose proof E as E'. unfold LogReg.examples in E'.
  apply bind_ok_inv in E' as ([[ims lbs] s0] & t0 & Esetup & E').
  apply bind_ok_inv in E' as (s1 & t1 & Eloop & E'). injection E' as <- <- <- <-.
  assert (Hex : ∀ k' s' t', LogReg.loop fuel c ims lbs k' s0 t0 = (t', Ok s') →
                  LogReg.examples fuel c k' [] = (t', Ok (ims, lbs, s'))).
  { intros k' s' t' El. unfold LogReg.examples.
    erewrite bind_ok by exact Esetup. lazy beta iota.
    erewrite bind_ok by exact El. reflexivity. }
  refine (proj2 (for_each_range_inv (LogReg.step fuel c ims lbs)
            (λ k' s' t', LogReg.loop fuel c ims lbs k' s0 t0 = (t', Ok s') ∧ P k' t' s')
            k s0 t0 s1 t1 Hk Eloop _ _)).
  - split; [|eapply Hbase; exact Esetup].
    unfold LogReg.loop. apply for_each_range_0. lia.
  - intros k' s2 t2 s3 t3 Hk' [El HP] Es. split.
    + unfold LogReg.loop in *. rewrite for_each_range_succ by lia.
      erewrite bind_ok by exact El. exact Es.
    + eapply Hstep; [lia | apply Hex; exact El | exact HP | exact Es].
Qed.

(** One iteration writes the spikes of its example to both buffers. *)
Lemma lc_step_writes fuel c images labels k s (t : trace) t' s' :
  0 < LogReg.update_interval c → 0 ≤ k →
  LogReg.len (LogReg.spike_record s) = LogReg.update_interval c →
  LogReg.step fuel c images labels k s t = (t', Ok s') →
  ∃ d, records t' = records t ++ [(k mod LogReg.update_interval c, k, d)]
       ∧ k < LogReg.len (LogReg.full_spike_record s)
       ∧ LogReg.full_spike_record s' =
           <[Z.to_nat k := spikes_sum0 d]> (LogReg.full_spike_record s).
Proof.
  intros Hui Hk Hlen E.
  apply lc_step_inv in E as (s1 & t1 & t2 & retries & x & net & _ & Eev & Epr & Erec).
  assert (Hs1 : records t1 = records t
                ∧ LogReg.spike_record s1 = LogReg.spike_record s
                ∧ LogReg.full_spike_record s1 = LogReg.full_spike_record s).
  { destruct (_ && _).
    - apply lc_evaluate_inv in Eev
        as (a & new & ? & ? & ? & ? & -> & F & _ & Hsr & Hfull & _).
      split; [|split; assumption].
      rewrite records_app. simpl. rewrite (bookkeeping_records _ F), app_nil_r. reflexivity.
    - destruct Eev as [-> ->]. auto. }
  destruct Hs1 as (Hr1 & Hsr & Hfull).
  destruct (lc_present_bookkeeping fuel c images k _ _ _ _ Epr) as (new & -> & F).
  apply lc_record_spikes_inv in Erec as (Hlt & -> & ->);
    [|assumption|rewrite Hsr; assumption|assumption].
  exists (lc_spikes net). simpl. rewrite Hfull in *.
  split; [|split; [exact Hlt | reflexivity]].
  rewrite !records_app, (bookkeeping_records _ F), Hr1, app_nil_r. reflexivity.
Qed.

(** The cumulative buffer after [k] examples. *)
Lemma lc_examples_full fuel c k t images labels s :
  0 ≤ k →
  LogReg.examples fuel c k [] = (t, Ok (images, labels, s)) →
  k ≤ LogReg.n_examples c
  ∧ LogReg.len (LogReg.full_spike_record s) = LogReg.n_examples c
  ∧ (∀ slot j d, (slot, j, d) ∈ records t →
       0 ≤ j < k ∧ LogReg.full_spike_record s !! Z.to_nat j = Some (spikes_sum0 d))
  ∧ (∀ j, k ≤ j < LogReg.n_examples c →
       LogReg.full_spike_record s !! Z.to_nat j = Some row_zero).
Proof.
  revert k t images labels s.
  apply (lc_examples_ind (λ k t s,
           k ≤ LogReg.n_examples c
           ∧ LogReg.len (LogReg.full_spike_record s) = LogReg.n_examples c
           ∧ (∀ slot j d, (slot, j, d) ∈ records t →
                0 ≤ j < k
                ∧ LogReg.full_spike_record s !! Z.to_nat j = Some (spikes_sum0 d))
           ∧ (∀ j, k ≤ j < LogReg.n_examples c →
                LogReg.full_spike_record s !! Z.to_nat j = Some row_zero))).
  - intros t images labels s Es.
    destruct (lc_setup_bookkeeping c _ _ _ Es) as (new & -> & F).
    apply lc_setup_inv in Es as (_ & Hn & _ & Hfull & _).
    rewrite Hfull. unfold LogReg.len. rewrite length_replicate.
    split; [exact Hn|]. split; [lia|]. split.
    + intros slot j d Hin. simpl in Hin.
      rewrite (bookkeeping_records _ F) in Hin. inversion Hin.
    + intros j Hj. apply lookup_replicate_2. lia.
  - intros k t images labels s t' s' Hk Eex (Hle & Hlen & Hold & Hnew) Es.
    pose proof (lc_examples_inv _ _ _ _ _ _ _ Hk Eex) as (Hui & (Hbuf & _) & _).
    destruct (lc_step_writes _ _ _ _ _ _ _ _ _ Hui Hk Hbuf Es) as (d & Hr & Hlt & Hf).
    rewrite Hf. unfold LogReg.len in *. rewrite length_insert.
    split; [lia|]. split; [exact Hlen|]. split.
    + intros slot j d' Hin. rewrite Hr in Hin.
      apply elem_of_app in Hin as [Hin|Hin].
      * destruct (Hold _ _ _ Hin) as [Hj Hd]. split; [lia|].
        rewrite list_lookup_insert_ne by lia. exact Hd.
      * apply list_elem_of_singleton in Hin. injection Hin as -> -> ->.
        split; [lia|]. apply list_lookup_insert_eq. lia.
    + intros j Hj. rewrite list_lookup_insert_ne by lia. apply Hnew. lia.
Qed.

(** The examples recorded so far, in the order of their records. *)
Lemma lc_examples_recorded fuel c k t images labels s :
  0 ≤ k →
  LogReg.examples fuel c k [] = (t, Ok (images, labels, s)) →
  (λ r : Z * Z * Spikes, r.1.2) <$> records t = Py.range k.
Proof.
  intros Hk E.
  pose proof (lc_examples_inv _ _ _ _ _ _ _ Hk E) as (_ & (_ & Hrec & _) & _).
  apply (f_equal (fmap snd)) in Hrec. rewrite <- !list_fmap_compose in Hrec.
  etrans; [|etrans; [exact Hrec|]].
  - apply fmap_pointwise. intros r. reflexivity.
  - rewrite <- (list_fmap_id (Py.range k)) at 2.
    apply fmap_pointwise. intros i. reflexivity.
Qed.

(** The row of an example presented so far. *)
Lemma lc_examples_row fuel c k t images labels s j :
  0 ≤ k →
  LogReg.examples fuel c k [] = (t, Ok (images, labels, s)) →
  0 ≤ j < k →
  ∃ slot d, (slot, j, d) ∈ records t
            ∧ LogReg.full_spike_record s !! Z.to_nat j = Some (spikes_sum0 d).
Proof.
  intros Hk E Hj.
  destruct (lc_examples_full _ _ _ _ _ _ _ Hk E) as (_ & _ & C & _).
  pose proof (lc_examples_recorded _ _ _ _ _ _ _ Hk E) as Hrange.
  assert (Hin : j ∈ (λ r : Z * Z * Spikes, r.1.2) <$> records t).
  { rewrite Hrange. unfold Py.range. apply elem_of_seqZ. lia. }
  apply list_elem_of_fmap in Hin as ([[slot j'] d] & -> & Hin). simpl.
  exists slot, d. split; [exact Hin|]. exact (proj2 (C _ _ _ Hin)).
Qed.

(** X11. At every point of a run the cumulative buffer has one row per
    example of the run: the row of every example presented so far is the
    spike count, summed over time, of the spikes recorded for that example,
    every example so far has been recorded once, in order, and the rows of
    the examples to come are zero.  The loop cannot get past [n_examples]. *)
Theorem X11_cumulative_record_holds_every_example
    fuel (c : LogReg.config) (k : Z) (t : trace) images labels (s : LogReg.state) :
  0 ≤ k →
  LogReg.examples fuel c k [] = (t, Ok (images, labels, s)) →
  let full := LogReg.full_spike_record s in
  k ≤ LogReg.n_examples c
  ∧ LogReg.len full = LogReg.n_examples c
  ∧ (∀ j, 0 ≤ j < k →
       ∃ slot d, (slot, j, d) ∈ records t ∧ full !! Z.to_nat j = Some (spikes_sum0 d))
  ∧ (∀ slot j d, (slot, j, d) ∈ records t →
       0 ≤ j < k ∧ full !! Z.to_nat j = Some (spikes_sum0 d))
  ∧ (∀ j, k ≤ j < LogReg.n_examples c → full !! Z.to_nat j = Some row_zero).
Proof.
  intros Hk E full. subst full.
  destruct (lc_examples_full _ _ _ _ _ _ _ Hk E) as (A & B & C & D).
  split; [exact A|]. split; [exact B|]. split; [|split; assumption].
  intros j Hj. eapply lc_examples_row; eassumption.
Qed.

(** What one presentation adds to the trace. *)
Lemma lc_present_runs fuel c images i net (t : trace) t' retries x net' :
  (3 ≤ fuel)%nat →
  LogReg.present fuel c images i net t = (t', Ok (retries, x, net')) →
  ∃ r : nat, (r ≤ 3)%nat ∧ images ≠ [] ∧ runs t' = runs t ++ presentations images i r.
Proof.
  intros Hf E. pose proof E as E'. unfold LogReg.present in E'.
  apply bind_ok_inv in E' as (k & t1 & Ek & E').
  apply lift_ok_inv in Ek as [-> Ek]. apply mod_ok_inv in Ek as [Hlen ->].
  apply bind_ok_inv in E' as (im & t1 & Eim & _).
  apply lift_ok_inv in Eim as [_ Eim].
  assert (Hpos : 0 < LogReg.len images) by (unfold LogReg.len in *; lia).
  destruct (retry_run fuel c i (flatten im) net t Hf) as (r & Hr & Ew & _).
  rewrite (present_eq _ _ _ _ _ _ _ Eim), Ew in E.
  apply (f_equal fst) in E. cbn [fst] in E. subst t'.
  exists r. split; [exact Hr|]. split.
  { intros ->. unfold LogReg.len in Hlen. simpl in Hlen. lia. }
  unfold presentations.
  rewrite (getitem_inv _ _ _ (proj1 (Z.mod_pos_bound i _ Hpos)) Eim).
  rewrite runs_app, runs_of_attempts. reflexivity.
Qed.

(** X6. The logistic-regression driver goes through its images
    cyclically: example [i] is presented as image [i % len(images)] of the
    scaled and cropped split of its mode, once and then up to three more
    times doubled, and the presentations of the examples follow each other
    in the order of the examples.  So a run can be longer than the dataset. *)
Theorem X6_examples_cycle_through_the_images
    fuel (c : LogReg.config) (k : Z) (t : trace) images labels (s : LogReg.state) :
  (3 ≤ fuel)%nat →
  0 ≤ k →
  LogReg.examples fuel c k [] = (t, Ok (images, labels, s)) →
  images = lc_images c
  ∧ labels = (mnist (lc_split c)).2
  ∧ (0 < k → images ≠ [])
  ∧ ∃ retries : list nat,
      length retries = Z.to_nat k
      ∧ Forall (λ r, (r ≤ 3)%nat) retries
      ∧ runs t = concat (zip_with (presentations images) (Py.range k) retries).
Proof.
  intros Hf Hk E.
  assert (Hdata : images = lc_images c ∧ labels = (mnist (lc_split c)).2).
  { unfold LogReg.examples in E.
    apply bind_ok_inv in E as ([[ims lbs] s0] & t0 & Es & E).
    apply bind_ok_inv in E as (s1 & t1 & _ & E). injection E as _ <- <- _.
    eapply lc_setup_data. exact Es. }
  destruct Hdata as [Hi Hl]. split; [exact Hi|]. split; [exact Hl|]. clear Hi Hl.
  refine (lc_examples_ind (λ k t s,
    ∀ images labels, LogReg.examples fuel c k [] = (t, Ok (images, labels, s)) →
      (0 < k → images ≠ [])
      ∧ ∃ retries : list nat,
          length retries = Z.to_nat k
          ∧ Forall (λ r, (r ≤ 3)%nat) retries
          ∧ runs t = concat (zip_with (presentations images) (Py.range k) retries))
    fuel c _ _ k t images labels s Hk E images labels E);
    clear k t images labels s Hk E.
  - intros t images labels s Es ims lbs _. split; [lia|].
    exists []. split; [reflexivity|]. split; [constructor|].
    assert (Hq : emits not_run (LogReg.setup c)).
    { unfold LogReg.setup, LogReg.check_divisible, LogReg.provision, LogReg.load_data,
        LogReg.load_classifier, LogReg.buffers. emits_auto. }
    destruct (Hq _ _ _ Es) as (new & -> & F). simpl. apply runs_not_run. exact F.
  - intros k t images labels s t' s' Hk Eex IH Es ims lbs Eex'.
    destruct (IH images labels Eex) as (_ & retries & Hlen & Hle & Hruns).
    assert (Esame : ims = images).
    { assert (G : ∀ j t1 a b s1 t2 a' b' s2,
                LogReg.examples fuel c j [] = (t1, Ok (a, b, s1)) →
                LogReg.examples fuel c (k + 1) [] = (t2, Ok (a', b', s2)) → a' = a).
      { intros j t1 a b s1 t2 a' b' s2 E1 E2. unfold LogReg.examples in E1, E2.
        apply bind_ok_inv in E1 as ([[x1 y1] z1] & u1 & S1 & E1).
        apply bind_ok_inv in E2 as ([[x2 y2] z2] & u2 & S2 & E2).
        rewrite S1 in S2. injection S2 as <- <- <- <-.
        apply bind_ok_inv in E1 as (? & ? & _ & E1). injection E1 as _ <- _ _.
        apply bind_ok_inv in E2 as (? & ? & _ & E2). injection E2 as _ <- _ _.
        reflexivity. }
      eapply G; eassumption. }
    subst ims.
    apply lc_step_inv in Es as (s1 & t1 & t2 & r0 & x & net & _ & Eev & Epr & Erec).
    assert (Hr1 : runs t1 = runs t).
    { destruct (_ && _); [|destruct Eev as [-> _]; reflexivity].
      assert (Hq : emits not_run (LogReg.evaluate c labels k s)).
      { unfold LogReg.evaluate, LogReg.current_interval, LogReg.checkpoint. emits_auto. }
      destruct (Hq _ _ _ Eev) as (new & -> & F).
      rewrite runs_app, (runs_not_run _ F), app_nil_r. reflexivity. }
    destruct (lc_present_runs _ _ _ _ _ _ _ _ _ _ Hf Epr) as (r & Hr & Hne & Hr2).
    assert (Hr3 : runs t' = runs t2).
    { assert (Hq : emits not_run (LogReg.record_spikes c k s1 net)).
      { unfold LogReg.record_spikes. emits_auto. }
      destruct (Hq _ _ _ Erec) as (new & -> & F).
      rewrite runs_app, (runs_not_run _ F), app_nil_r. reflexivity. }
    split; [intros _; exact Hne|].
    exists (retries ++ [r]). split; [rewrite length_app; simpl; lia|].
    split; [apply Forall_app; split; [exact Hle | constructor; [exact Hr | constructor]]|].
    rewrite Hr3, Hr2, Hr1, Hruns, range_succ by assumption.
    rewrite zip_with_app, concat_app; [simpl; rewrite app_nil_r; reflexivity|].
    unfold Py.range. rewrite length_seqZ. lia.
Qed.

End LogRegExamples.


(** ** The examples of the Diehl and Cook script *)

Section DiehlCookExamples.
Context `{Env}.

(** The loader of a run holds the training images, flattened and scaled. *)
Lemma dc_setup_data c (t t' : trace) labels s :
  DiehlCook.setup c t = (t', Ok (labels, s)) →
  DiehlCook.data_loader s = dc_images c ∧ labels = (mnist TrainSplit).2.
Proof.
  unfold DiehlCook.setup. intros E.
  apply bind_ok_inv in E as ([] & t1 & _ & E).
  apply bind_ok_inv in E as ([] & t2 & _ & E).
  apply bind_ok_inv in E as ([] & t2' & _ & E).
  apply bind_ok_inv in E as (net & t3 & _ & E).
  apply bind_ok_inv in E as ([ims lbs] & t4 & Edata & E).
  apply bind_ok_inv in E as (sr & t5 & _ & E).
  apply bind_ok_inv in E as (a & t6 & _ & E).
  injection E as _ <- <-.
  rewrite dc_load_data_eq in Edata. injection Edata as _ <- <-.
  split; reflexivity.
Qed.

(** Induction on the number of examples of the runs that return. *)
Lemma dc_examples_ind (P : Z → trace → DiehlCook.state → Prop) c :
  (∀ t labels s, DiehlCook.setup c [] = (t, Ok (labels, s)) → P 0 t s) →
  (∀ k t labels s t' s',
     0 ≤ k → DiehlCook.examples c k [] = (t, Ok (labels, s)) → P k t s →
     DiehlCook.step c labels k s t = (t', Ok s') → P (k + 1) t' s') →
  ∀ k t labels s,
    0 ≤ k → DiehlCook.examples c k [] = (t, Ok (labels, s)) → P k t s.
Proof.
  intros Hbase Hstep k t labels s Hk E.
  pose proof E as E'. unfold DiehlCook.examples in E'.
  apply bind_ok_inv in E' as ([lbs s0] & t0 & Esetup & E').
  apply bind_ok_inv in E' as (s1 & t1 & Eloop & E'). injection E' as <- <- <-.
  assert (Hex : ∀ k' s' t', DiehlCook.loop c lbs k' s0 t0 = (t', Ok s') →
                  DiehlCook.examples c k' [] = (t', Ok (lbs, s'))).
  { intros k' s' t' El. unfold DiehlCook.examples.
    erewrite bind_ok by exact Esetup. lazy beta iota.
    erewrite bind_ok by exact El. reflexivity. }
  refine (proj2 (for_each_range_inv (DiehlCook.step c lbs)
            (λ k' s' t', DiehlCook.loop c lbs k' s0 t0 = (t', Ok s') ∧ P k' t' s')
            k s0 t0 s1 t1 Hk Eloop _ _)).
  - split; [|eapply Hbase; exact Esetup].
    unfold DiehlCook.loop. apply for_each_range_0. lia.
  - intros k' s2 t2 s3 t3 Hk' [El HP] Es. split.
    + unfold DiehlCook.loop in *. rewrite for_each_range_succ by lia.
      erewrite bind_ok by exact El. exact Es.
    + eapply Hstep; [lia | apply Hex; exact El | exact HP | exact Es].
Qed.

Lemma drop_cons_inv {A} (l : list A) n x rest :
  drop n l = x :: rest → l !! n = Some x ∧ rest = drop (S n) l ∧ (n < length l)%nat.
Proof.
  intros E.
  assert (Hx : l !! n = Some x).
  { rewrite <- (Nat.add_0_r n), <- lookup_drop, E. reflexivity. }
  split; [exact Hx|]. split.
  - rewrite (drop_S _ _ _ Hx) in E. congruence.
  - eapply lookup_lt_Some. exact Hx.
Qed.

Lemma dc_evaluate_not_run c labels i s : emits not_run (DiehlCook.evaluate c labels i s).
Proof. unfold DiehlCook.evaluate, DiehlCook.checkpoint. emits_auto. Qed.

Lemma dc_setup_not_run c : emits not_run (DiehlCook.setup c).
Proof.
  unfold DiehlCook.setup, DiehlCook.check_divisible, DiehlCook.provision,
    DiehlCook.freeze, DiehlCook.load_data, DiehlCook.load_classifier, DiehlCook.buffers.
  emits_auto.
Qed.

(** What the examples of the script have presented and left in the loader. *)
Lemma dc_examples_runs c k t labels s :
  0 ≤ k →
  DiehlCook.examples c k [] = (t, Ok (labels, s)) →
  k ≤ Z.of_nat (length (dc_images c))
  ∧ runs t = zip (Py.range k) (take (Z.to_nat k) (dc_images c))
  ∧ DiehlCook.data_loader s = drop (Z.to_nat k) (dc_images c).
Proof.
  revert k t labels s. apply (dc_examples_ind (λ k t s,
    k ≤ Z.of_nat (length (dc_images c))
    ∧ runs t = zip (Py.range k) (take (Z.to_nat k) (dc_images c))
    ∧ DiehlCook.data_loader s = drop (Z.to_nat k) (dc_images c))).
  - intros t labels s Es.
    destruct (dc_setup_not_run c _ _ _ Es) as (new & -> & F).
    apply dc_setup_data in Es as [-> _].
    split; [lia|]. split; [|reflexivity].
    simpl. apply runs_not_run. exact F.
  - intros k t labels s t' s' Hk Eex (Hle & Hruns & Hload) Es.
    pose proof (dc_examples_inv _ _ _ _ _ Hk Eex) as (Hui & (Hbuf & _) & _).
    apply dc_step_inv in Es as (s1 & t1 & datum & rest & Eev & Hnext & Hrest);
      [|assumption|assumption].
    assert (Hs1 : runs t1 = runs t
                  ∧ DiehlCook.spike_record s1 = DiehlCook.spike_record s
                  ∧ DiehlCook.data_loader s1 = DiehlCook.data_loader s).
    { destruct (boundary _ _); [|destruct Eev as [-> ->]; auto].
      destruct (dc_evaluate_not_run _ _ _ _ _ _ _ Eev) as (new & -> & F).
      apply dc_evaluate_inv in Eev as (? & ? & ? & ? & ? & _ & _ & _ & Hsr & Hld & _).
      rewrite runs_app, (runs_not_run _ F), app_nil_r. auto. }
    destruct Hs1 as (Hr1 & Hsr & Hld).
    rewrite Hsr in Hrest. destruct (Hrest Hbuf) as [-> ->]. clear Hrest.
    rewrite Hld, Hload in Hnext. apply drop_cons_inv in Hnext as (Hx & -> & Hlt).
    split; [lia|]. simpl.
    replace (Z.to_nat (k + 1)) with (S (Z.to_nat k)) by lia.
    split; [|reflexivity].
    rewrite runs_app, Hr1, Hruns, range_succ by assumption.
    rewrite (take_S_r _ _ _ Hx). rewrite zip_with_app; [reflexivity|].
    unfold Py.range. rewrite length_seqZ, length_take. lia.
Qed.

(** X12. The Diehl and Cook script presents the training images in
    their order, flattened and scaled by [intensity], each one once:
    example [i] is image [i], whatever the mode, and after [k] examples the
    loader holds the images from [k] on.  A run cannot present more
    examples than there are training images. *)
Theorem X12_script_presents_each_training_image_once
    (c : DiehlCook.config) (k : Z) (t : trace) labels (s : DiehlCook.state) :
  0 ≤ k →
  DiehlCook.examples c k [] = (t, Ok (labels, s)) →
  k ≤ Z.of_nat (length (mnist TrainSplit).1)
  ∧ labels = (mnist TrainSplit).2
  ∧ (λ r : Z * list Q, r.1) <$> runs t = Py.range k
  ∧ (∀ i x, (i, x) ∈ runs t →
       ∃ im, (mnist TrainSplit).1 !! Z.to_nat i = Some im
             ∧ x = map (Qmult (num_val (DiehlCook.intensity c))) (flatten im))
  ∧ DiehlCook.data_loader s = drop (Z.to_nat k) (dc_images c).
Proof.
  intros Hk E.
  destruct (dc_examples_runs _ _ _ _ _ Hk E) as (Hle & Hruns & Hload).
  assert (HN : length (dc_images c) = length (mnist TrainSplit).1).
  { unfold dc_images. rewrite !length_fmap. reflexivity. }
  assert (Hlen : length (Py.range k) = length (take (Z.to_nat k) (dc_images c))).
  { unfold Py.range. rewrite length_seqZ, length_take. lia. }
  split; [lia|]. split.
  { unfold DiehlCook.examples in E.
    apply bind_ok_inv in E as ([lbs s0] & t0 & Es & E).
    apply bind_ok_inv in E as (s1 & t1 & _ & E). injection E as _ <- _.
    eapply dc_setup_data. exact Es. }
  split; [rewrite Hruns; apply fst_zip; lia|].
  split; [|exact Hload].
  intros i x Hin. rewrite Hruns in Hin.
  apply elem_of_lookup_zip_with in Hin as (j & i' & x' & Heq & Hi & Hx).
  injection Heq as -> ->.
  unfold Py.range in Hi. apply lookup_seqZ in Hi as [-> Hj].
  rewrite lookup_take_lt in Hx by lia.
  unfold dc_images in Hx. rewrite !list_lookup_fmap in Hx.
  replace (Z.to_nat (0 + Z.of_nat j)) with j by lia.
  destruct ((mnist TrainSplit).1 !! j) as [im|]; [|discriminate].
  exists im. split; [reflexivity|]. simpl in Hx. congruence.
Qed.

(** The step at which the loader is exhausted. *)
Lemma dc_step_exhausted c labels i s (t : trace) :
  DiehlCook.update_interval c ≠ 0 → DiehlCook.progress_interval c ≠ 0 →
  fst <$> DiehlCook.accuracy_ s = ["all"; "proportion"] →
  (DiehlCook.train c = true → is_Some (DiehlCook.best_accuracy s)) →
  DiehlCook.data_loader s = [] →
  ∃ t', DiehlCook.step c labels i s t = (t', Raise StopIteration) ∧ runs t' = runs t.
Proof.
  intros Hui Hpi Hkeys Hbest Hload. unfold DiehlCook.step.
  erewrite bind_ok by (unfold lift; rewrite mod_ok by assumption; reflexivity).
  erewrite bind_ok by (unfold lift; rewrite mod_ok by assumption; reflexivity).
  destruct ((i mod DiehlCook.update_interval c =? 0) && (0 <? i)).
  - destruct (dc_evaluate_ok c labels i s t Hkeys Hbest) as (t1 & s1 & E).
    erewrite bind_ok by exact E.
    destruct (dc_evaluate_not_run _ _ _ _ _ _ _ E) as (new & -> & F).
    apply dc_evaluate_inv in E as (? & ? & ? & ? & ? & _ & _ & _ & _ & Hld & _).
    rewrite Hld, Hload. eexists. split; [reflexivity|].
    rewrite runs_app, (runs_not_run _ F), app_nil_r. reflexivity.
  - erewrite bind_ok by reflexivity. rewrite Hload. eexists. split; reflexivity.
Qed.

(** X5. The script does not wrap around: when [n_examples] exceeds the
    number of training images, [next(data_loader)] raises [StopIteration]
    once every image has been presented, and the script ends there,
    without its final evaluation and without a line of results. *)
Theorem X5_script_stops_when_the_images_run_out
    (c : DiehlCook.config) (t0 : trace) labels (s0 : DiehlCook.state) :
  DiehlCook.setup c [] = (t0, Ok (labels, s0)) →
  DiehlCook.progress_interval c ≠ 0 →
  Z.of_nat (length (mnist TrainSplit).1) < DiehlCook.n_examples c →
  ∃ t, DiehlCook.script c [] = (t, Raise StopIteration)
       ∧ (λ r : Z * list Q, r.2) <$> runs t = dc_images c
       ∧ Forall (λ e, match e with EvCsv _ _ => False | _ => True end) t
       ∧ ∀ i, EvEvaluate i ∈ t → i ≤ Z.of_nat (length (mnist TrainSplit).1).
Proof.
  intros Es Hpi Hn.
  set (N := Z.of_nat (length (mnist TrainSplit).1)) in *.
  pose proof (dc_setup_inv _ _ _ _ _ Es) as (Hui & Hsr & Hacc & Hbest & _ & _ & Hlen & _).
  assert (Hgo : dc_going c 0 s0).
  { unfold dc_going. rewrite Hsr, Hacc, Hbest, Hlen, length_replicate.
    split; [lia|]. split; [intros ->; eauto|]. split; [reflexivity|]. lia. }
  destruct (for_each_range_total (DiehlCook.step c labels) (λ k s, dc_going c k s)
              N s0 t0) as (s1 & t1 & Eloop & Hgo1); [lia | exact Hgo | |].
  { intros k s2 t2 Hk Hgo2. apply dc_step_ok; (assumption || lia). }
  assert (Eex : DiehlCook.examples c N [] = (t1, Ok (labels, s1))).
  { unfold DiehlCook.examples. erewrite bind_ok by exact Es. lazy beta iota.
    unfold DiehlCook.loop. erewrite bind_ok by exact Eloop. reflexivity. }
  assert (HN : 0 ≤ N) by lia.
  destruct (dc_examples_runs _ _ _ _ _ HN Eex) as (_ & Hruns & Hload).
  pose proof (dc_examples_inv _ _ _ _ _ HN Eex) as (_ & (_ & Hev & _)).
  assert (HNlen : Z.to_nat N = length (dc_images c)).
  { unfold dc_images, N. rewrite !length_fmap. lia. }
  rewrite HNlen, firstn_all in Hruns. rewrite HNlen, drop_all in Hload.
  destruct Hgo1 as (_ & Hb1 & Hk1 & _).
  destruct (dc_step_exhausted c labels N s1 t1) as (t2 & Estep & Hr2);
    [lia | assumption | assumption | assumption | assumption |].
  exists t2. split; [|split; [|split]].
  - unfold DiehlCook.script, DiehlCook.examples.
    erewrite bind_raise; [reflexivity|].
    erewrite bind_ok by exact Es. lazy beta iota.
    erewrite bind_raise; [reflexivity|]. unfold DiehlCook.loop, Py.range.
    replace (DiehlCook.n_examples c) with (N + (DiehlCook.n_examples c - N)) by lia.
    rewrite seqZ_app by lia. rewrite for_each_app.
    erewrite bind_ok by exact Eloop.
    rewrite seqZ_cons by lia. simpl.
    erewrite bind_raise; [reflexivity | exact Estep].
  - rewrite Hr2, Hruns. apply snd_zip.
    unfold Py.range. rewrite length_seqZ. lia.
  - assert (Hq : emits (λ e, match e with EvCsv _ _ => False | _ => True end)
                   (DiehlCook.examples c N)).
    { unfold DiehlCook.examples, DiehlCook.setup, DiehlCook.check_divisible,
        DiehlCook.provision, DiehlCook.freeze, DiehlCook.load_data,
        DiehlCook.load_classifier, DiehlCook.buffers, DiehlCook.loop, DiehlCook.step,
        DiehlCook.evaluate, DiehlCook.checkpoint, DiehlCook.next.
      emits_auto. }
    assert (Hq' : emits (λ e, match e with EvCsv _ _ => False | _ => True end)
                    (DiehlCook.step c labels N s1)).
    { unfold DiehlCook.step, DiehlCook.evaluate, DiehlCook.checkpoint, DiehlCook.next.
      emits_auto. }
    destruct (Hq _ _ _ Eex) as (new & -> & F).
    destruct (Hq' _ _ _ Estep) as (new' & -> & F').
    apply Forall_app. split; assumption.
  - intros i Hin.
    assert (Hin' : i ∈ evaluations t2).
    { clear -Hin. induction t2 as [|e t2 IH]; [inversion Hin|].
      apply elem_of_cons in Hin as [<-|Hin]; [left|].
      destruct e; simpl; try right; apply IH; exact Hin. }
    assert (He2 : ∃ l, evaluations t2 = evaluations t1 ++ l ∧ ∀ j, j ∈ l → j = N).
    { unfold DiehlCook.step in Estep.
      erewrite bind_ok in Estep
        by (unfold lift; rewrite mod_ok by assumption; reflexivity).
      erewrite bind_ok in Estep
        by (unfold lift; rewrite mod_ok by lia; reflexivity).
      destruct ((N mod DiehlCook.update_interval c =? 0) && (0 <? N)).
      - destruct (dc_evaluate_ok c labels N s1 t1 Hk1 Hb1) as (t3 & s3 & E3).
        erewrite bind_ok in Estep by exact E3.
        pose proof E3 as E3'.
        apply dc_evaluate_inv in E3' as (new & ? & ? & ? & ? & -> & F & _ & _ & Hld & _).
        rewrite Hld, Hload in Estep. injection Estep as <-.
        exists [N]. rewrite evaluations_app. simpl.
        rewrite (bookkeeping_evaluations _ F).
        split; [reflexivity|]. intros j Hj. apply list_elem_of_singleton in Hj. exact Hj.
      - erewrite bind_ok in Estep by reflexivity. rewrite Hload in Estep.
        injection Estep as <-. exists []. rewrite app_nil_r.
        split; [reflexivity|]. intros j Hj. inversion Hj. }
    destruct He2 as (l & Hl & HlN). rewrite Hl, Hev in Hin'.
    apply elem_of_app in Hin' as [Hin'|Hin']; [|rewrite (HlN _ Hin'); lia].
    apply list_elem_of_filter in Hin' as [_ Hin'].
    unfold Py.range in Hin'. apply elem_of_seqZ in Hin'. lia.
Qed.

End DiehlCookExamples.

(** ** The buffer and the network along a run *)

Section Produced.
Context `{Env}.

(** The retry loop of lines 209-215 leaves the network [retried] gives,
    whatever fuel it returned with. *)
Lemma retried_loop fuel c i r x net (t : trace) t' r' x' net' :
  0 ≤ r ≤ 3 →
  while_ fuel LogReg.retry_cond (LogReg.retry_body c i) (r, x, net) t = (t', Ok (r', x', net')) →
  net' = retried (LogReg.time c) (Z.to_nat (3 - r)) x net.
Proof.
  revert r x net t. induction fuel as [|fuel IH]; intros r x net t Hr E.
  - simpl in E.
    destruct ((spikes_sum (lc_spikes net) <? 5) && (r <? 3)) eqn:C; [discriminate|].
    injection E as _ _ _ <-.
    destruct (Z.to_nat (3 - r)) eqn:B; [reflexivity|]. simpl.
    rewrite (proj2 (Z.ltb_lt r 3)) in C by lia. rewrite andb_true_r in C.
    rewrite C. reflexivity.
  - simpl in E.
    destruct ((spikes_sum (lc_spikes net) <? 5) && (r <? 3)) eqn:C.
    + apply andb_true_iff in C as [Cs Cr]. apply Z.ltb_lt in Cr.
      apply bind_ok_inv in E as ([[r1 x1] net1] & t1 & Eb & E).
      apply bind_ok_inv in Eb as ([] & t2 & _ & Eb). injection Eb as _ <- <- <-.
      apply IH in E; [|lia]. rewrite E.
      replace (Z.to_nat (3 - r)) with (S (Z.to_nat (3 - (r + 1)))) by lia.
      simpl. rewrite Cs. reflexivity.
    + injection E as _ _ _ <-.
      destruct (Z.to_nat (3 - r)) eqn:B; [reflexivity|]. simpl.
      rewrite (proj2 (Z.ltb_lt r 3)) in C by lia. rewrite andb_true_r in C.
      rewrite C. reflexivity.
Qed.

(** The network after the presentation of example [i]. *)
Lemma lc_present_network fuel c images i net (t : trace) t' r x net' :
  LogReg.present fuel c images i net t = (t', Ok (r, x, net')) →
  net' = lc_presented (LogReg.time c) net (lc_datum images i).
Proof.
  intros E. pose proof E as E'. unfold LogReg.present in E'.
  apply bind_ok_inv in E' as (k & t1 & Ek & E').
  apply lift_ok_inv in Ek as [-> Ek]. apply mod_ok_inv in Ek as [Hlen ->].
  apply bind_ok_inv in E' as (im & t1 & Eim & _).
  apply lift_ok_inv in Eim as [_ Eim].
  assert (Hpos : 0 < LogReg.len images) by (unfold LogReg.len in *; lia).
  rewrite (present_eq _ _ _ _ _ _ _ Eim) in E.
  apply retried_loop in E; [|lia].
  pose proof (getitem_inv _ _ _ (proj1 (Z.mod_pos_bound i _ Hpos)) Eim) as Hl.
  unfold lc_presented, lc_datum. unfold image in *. rewrite Hl. exact E.
Qed.

(** What an iteration of the driver does to the network and the buffer. *)
Lemma lc_step_produced fuel c images labels k s (t : trace) t' s' :
  0 < LogReg.update_interval c → 0 ≤ k →
  LogReg.len (LogReg.spike_record s) = LogReg.update_interval c →
  LogReg.step fuel c images labels k s t = (t', Ok s') →
  let net := lc_presented (LogReg.time c) (LogReg.network s) (lc_datum images k) in
  LogReg.network s' = lc_reset net
  ∧ LogReg.spike_record s' =
      <[Z.to_nat (k mod LogReg.update_interval c) := lc_spikes net]> (LogReg.spike_record s)
  ∧ records t' = records t ++ [(k mod LogReg.update_interval c, k, lc_spikes net)].
Proof.
  intros Hui Hk Hlen E net.
  apply lc_step_inv in E as (s1 & t1 & t2 & retries & x & net1 & _ & Eev & Epr & Erec).
  assert (Hs1 : records t1 = records t
                ∧ LogReg.spike_record s1 = LogReg.spike_record s
                ∧ LogReg.network s1 = LogReg.network s).
  { destruct (_ && _).
    - apply lc_evaluate_inv in Eev
        as (a & new & ? & ? & ? & ? & -> & F & Hnet & Hsr & _).
      split; [|split; assumption].
      rewrite records_app. simpl. rewrite (bookkeeping_records _ F), app_nil_r. reflexivity.
    - destruct Eev as [-> ->]. auto. }
  destruct Hs1 as (Hr1 & Hsr & Hnet).
  destruct (lc_present_bookkeeping fuel c images k _ _ _ _ Epr) as (new & -> & F).
  apply lc_present_network in Epr. rewrite Hnet in Epr. fold net in Epr. subst net1.
  apply lc_record_spikes_inv in Erec as (_ & -> & ->);
    [|assumption|rewrite Hsr; assumption|assumption].
  simpl. rewrite Hsr.
  split; [reflexivity|]. split; [reflexivity|].
  rewrite !records_app, (bookkeeping_records _ F), Hr1, app_nil_r. reflexivity.
Qed.

Lemma buffer_of_init ui (produced : Z → Spikes) :
  0 ≤ ui → buffer_of ui 0 produced (replicate (Z.to_nat ui) spikes_zero).
Proof.
  intros Hui. split; [rewrite length_replicate; lia|].
  intros slot Hslot. split; [|split; [intros Hlt; lia | intros e He; lia]].
  intros _. apply lookup_replicate_2. lia.
Qed.

(** Two examples congruent modulo [ui] and less than [ui] apart are one. *)
Lemma congruent_close ui e k :
  0 < ui → e mod ui = k mod ui → k - ui < e ≤ k → e = k.
Proof.
  intros Hui Hem Hclose.
  destruct (Z.eq_dec e k) as [|Hek]; [assumption|]. exfalso.
  assert (Hd : (ui | k - e)).
  { apply Z.mod_divide; [lia|]. rewrite Zminus_mod, Hem, Z.sub_diag. reflexivity. }
  destruct Hd as [q Hq].
  assert (q ≤ 0 ∨ 1 ≤ q) as [Hq0|Hq1] by lia; nia.
Qed.

Lemma buffer_of_write ui k (produced : Z → Spikes) buffer :
  0 < ui → 0 ≤ k →
  buffer_of ui k produced buffer →
  buffer_of ui (k + 1) produced (<[Z.to_nat (k mod ui) := produced k]> buffer).
Proof.
  intros Hui Hk [Hlen Hslots]. split; [rewrite length_insert; exact Hlen|].
  intros slot Hslot.
  pose proof (Z.mod_pos_bound k ui Hui) as Hmod.
  destruct (Z.eq_dec slot (k mod ui)) as [->|Hne].
  - assert (Hk' : <[Z.to_nat (k mod ui) := produced k]> buffer !! Z.to_nat (k mod ui)
                 = Some (produced k)) by (apply list_lookup_insert_eq; lia).
    split; [|split].
    + intros Hle. exfalso.
      pose proof (Z.mod_le k ui Hk Hui). lia.
    + intros _. exists k. split; [lia|]. split; [reflexivity|]. split; [lia | exact Hk'].
    + intros e He Hem Hrecent.
      rewrite (congruent_close ui e k Hui Hem) by lia. exact Hk'.
  - rewrite list_lookup_insert_ne by lia.
    destruct (Hslots slot Hslot) as (Hzero & Hsome & Hlast). split; [|split].
    + intros Hle. apply Hzero. lia.
    + intros Hlt.
      assert (Hsk : slot < k).
      { destruct (Z.eq_dec slot k) as [->|]; [|lia].
        exfalso. apply Hne. symmetry. apply Z.mod_small. lia. }
      destruct (Hsome Hsk) as (e & He & Hem & Hrecent & Hl).
      exists e. split; [lia|]. split; [exact Hem|]. split; [|exact Hl].
      destruct (Z.eq_dec e (k - ui)) as [->|]; [|lia].
      exfalso. apply Hne. rewrite <- Hem.
      replace (k - ui) with (k + (-1) * ui) by lia. apply Z.mod_add. lia.
    + intros e He Hem Hrecent.
      assert (e ≠ k) by (intros ->; lia).
      apply Hlast; lia.
Qed.

(** The network, the buffer and the writes after [k] iterations of the
    loop of the driver. *)
Lemma lc_loop_produced fuel c images labels k s0 (t0 : trace) s t :
  0 < LogReg.update_interval c → 0 ≤ k →
  LogReg.spike_record s0 = replicate (Z.to_nat (LogReg.update_interval c)) spikes_zero →
  records t0 = [] →
  LogReg.loop fuel c images labels k s0 t0 = (t, Ok s) →
  let produced := lc_produced (LogReg.time c) images (LogReg.network s0) in
  LogReg.network s = lc_after (LogReg.time c) images (LogReg.network s0) k
  ∧ buffer_of (LogReg.update_interval c) k produced (LogReg.spike_record s)
  ∧ records t = (λ i, (i mod LogReg.update_interval c, i, produced i)) <$> Py.range k.
Proof.
  intros Hui Hk Hsr Hr0 E produced. unfold LogReg.loop in E.
  apply (for_each_range_inv _ (λ k s t,
           LogReg.network s = lc_after (LogReg.time c) images (LogReg.network s0) k
           ∧ buffer_of (LogReg.update_interval c) k produced (LogReg.spike_record s)
           ∧ records t = (λ i, (i mod LogReg.update_interval c, i, produced i)) <$> Py.range k)
           k s0 t0 s t Hk E).
  - split; [reflexivity|]. split; [|exact Hr0].
    rewrite Hsr. apply buffer_of_init. lia.
  - intros j s1 t1 s2 t2 Hj (Hnet & Hbuf & Hrec) Es.
    apply lc_step_produced in Es as (Hnet2 & Hsr2 & Hrec2);
      [|assumption|lia|apply Hbuf].
    rewrite Hnet in Hnet2, Hsr2, Hrec2.
    change (lc_spikes (lc_presented (LogReg.time c)
              (lc_after (LogReg.time c) images (LogReg.network s0) j) (lc_datum images j)))
      with (produced j) in Hsr2, Hrec2.
    split; [|split].
    + rewrite Hnet2. unfold lc_after. rewrite range_succ by lia.
      rewrite foldl_app. reflexivity.
    + rewrite Hsr2. apply buffer_of_write; [assumption | lia | exact Hbuf].
    + rewrite Hrec2, Hrec, range_succ by lia. rewrite fmap_app. reflexivity.
Qed.

(** The same for an iteration of the script. *)
Lemma dc_step_produced c labels k s (t : trace) t' s' data :
  0 < DiehlCook.update_interval c → 0 ≤ k →
  Z.of_nat (length (DiehlCook.spike_record s)) = DiehlCook.update_interval c →
  DiehlCook.data_loader s = drop (Z.to_nat k) data →
  DiehlCook.step c labels k s t = (t', Ok s') →
  let net := dc_run (DiehlCook.network s) (dc_datum data k) (DiehlCook.time c) in
  DiehlCook.network s' = dc_reset net
  ∧ DiehlCook.spike_record s' =
      <[Z.to_nat (k mod DiehlCook.update_interval c) := dc_spikes net]> (DiehlCook.spike_record s)
  ∧ records t' = records t ++ [(k mod DiehlCook.update_interval c, k, dc_spikes net)]
  ∧ DiehlCook.data_loader s' = drop (Z.to_nat (k + 1)) data.
Proof.
  intros Hui Hk Hlen Hload E net.
  apply dc_step_inv in E as (s1 & t1 & datum & rest & Eev & Hnext & Hrest);
    [|assumption|assumption].
  assert (Hs1 : records t1 = records t
                ∧ DiehlCook.spike_record s1 = DiehlCook.spike_record s
                ∧ DiehlCook.data_loader s1 = DiehlCook.data_loader s
                ∧ DiehlCook.network s1 = DiehlCook.network s).
  { destruct (boundary _ _); [|destruct Eev as [-> ->]; auto].
    apply dc_evaluate_inv in Eev as (new & ? & ? & ? & ? & -> & F & Hnet & Hsr & Hld & _).
    rewrite records_app. simpl. rewrite (bookkeeping_records _ F), app_nil_r. auto. }
  destruct Hs1 as (Hr1 & Hsr & Hld & Hnet).
  rewrite Hsr in Hrest. destruct (Hrest Hlen) as [-> ->]. clear Hrest.
  rewrite Hld, Hload in Hnext. apply drop_cons_inv in Hnext as (Hx & -> & _).
  assert (Hd : dc_datum data k = datum) by (unfold dc_datum; rewrite Hx; reflexivity).
  subst net. rewrite Hd, Hnet. simpl.
  split; [reflexivity|]. split; [reflexivity|]. split.
  - rewrite records_app, Hr1. reflexivity.
  - replace (Z.to_nat (k + 1)) with (S (Z.to_nat k)) by lia. reflexivity.
Qed.

Lemma dc_loop_produced c labels k s0 (t0 : trace) s t :
  0 < DiehlCook.update_interval c → 0 ≤ k →
  DiehlCook.spike_record s0 = replicate (Z.to_nat (DiehlCook.update_interval c)) spikes_zero →
  records t0 = [] →
  DiehlCook.loop c labels k s0 t0 = (t, Ok s) →
  let data := DiehlCook.data_loader s0 in
  let produced := dc_produced (DiehlCook.time c) data (DiehlCook.network s0) in
  DiehlCook.network s = dc_after (DiehlCook.time c) data (DiehlCook.network s0) k
  ∧ buffer_of (DiehlCook.update_interval c) k produced (DiehlCook.spike_record s)
  ∧ records t = (λ i, (i mod DiehlCook.update_interval c, i, produced i)) <$> Py.range k.
Proof.
  intros Hui Hk Hsr Hr0 E data produced. unfold DiehlCook.loop in E.
  refine (proj1 (for_each_range_inv _ (λ k s t,
           (DiehlCook.network s = dc_after (DiehlCook.time c) data (DiehlCook.network s0) k
            ∧ buffer_of (DiehlCook.update_interval c) k produced (DiehlCook.spike_record s)
            ∧ records t = (λ i, (i mod DiehlCook.update_interval c, i, produced i)) <$> Py.range k)
           ∧ DiehlCook.data_loader s = drop (Z.to_nat k) data)
           k s0 t0 s t Hk E _ _)).
  - split; [|reflexivity]. split; [reflexivity|]. split; [|exact Hr0].
    rewrite Hsr. apply buffer_of_init. lia.
  - intros j s1 t1 s2 t2 Hj ((Hnet & Hbuf & Hrec) & Hload) Es.
    apply (dc_step_produced _ _ _ _ _ _ _ data) in Es as (Hnet2 & Hsr2 & Hrec2 & Hload2);
      [|assumption|lia|apply Hbuf|exact Hload].
    rewrite Hnet in Hnet2, Hsr2, Hrec2.
    change (dc_spikes (dc_run (dc_after (DiehlCook.time c) data (DiehlCook.network s0) j)
                         (dc_datum data j) (DiehlCook.time c)))
      with (produced j) in Hsr2, Hrec2.
    split; [|exact Hload2]. split; [|split].
    + rewrite Hnet2. unfold dc_after. rewrite range_succ by lia.
      rewrite foldl_app. reflexivity.
    + rewrite Hsr2. apply buffer_of_write; [assumption | lia | exact Hbuf].
    + rewrite Hrec2, Hrec, range_succ by lia. rewrite fmap_app. reflexivity.
Qed.

(** The runs of the two drivers, from their set-up. *)
Lemma lc_examples_produced fuel c k (t0 : trace) images labels s0 t images' labels' s :
  0 ≤ k →
  LogReg.setup c [] = (t0, Ok (images, labels, s0)) →
  LogReg.examples fuel c k [] = (t, Ok (images', labels', s)) →
  let produced := lc_produced (LogReg.time c) (lc_images c) (LogReg.network s0) in
  LogReg.network s = lc_after (LogReg.time c) (lc_images c) (LogReg.network s0) k
  ∧ buffer_of (LogReg.update_interval c) k produced (LogReg.spike_record s)
  ∧ records t = (λ i, (i mod LogReg.update_interval c, i, produced i)) <$> Py.range k.
Proof.
  intros Hk Es E. unfold LogReg.examples in E.
  erewrite bind_ok in E by exact Es. lazy beta iota in E.
  apply bind_ok_inv in E as (s1 & t1 & Eloop & E). injection E as <- _ _ <-.
  pose proof (lc_setup_inv _ _ _ _ _ _ Es) as (Hui & _ & Hsr & _).
  destruct (emits_bookkeeping _ _ _ _ (lc_setup_bookkeeping c) Es) as [Hr0 _].
  destruct (lc_setup_data _ _ _ _ _ _ Es) as [<- _].
  eapply lc_loop_produced; eauto.
Qed.

Lemma dc_examples_produced c k (t0 : trace) labels s0 t labels' s :
  0 ≤ k →
  DiehlCook.setup c [] = (t0, Ok (labels, s0)) →
  DiehlCook.examples c k [] = (t, Ok (labels', s)) →
  let produced := dc_produced (DiehlCook.time c) (dc_images c) (DiehlCook.network s0) in
  DiehlCook.network s = dc_after (DiehlCook.time c) (dc_images c) (DiehlCook.network s0) k
  ∧ buffer_of (DiehlCook.update_interval c) k produced (DiehlCook.spike_record s)
  ∧ records t = (λ i, (i mod DiehlCook.update_interval c, i, produced i)) <$> Py.range k.
Proof.
  intros Hk Es E. unfold DiehlCook.examples in E.
  erewrite bind_ok in E by exact Es. lazy beta iota in E.
  apply bind_ok_inv in E as (s1 & t1 & Eloop & E). injection E as <- _ <-.
  pose proof (dc_setup_inv _ _ _ _ _ Es) as (Hui & Hsr & _).
  destruct (emits_bookkeeping _ _ _ _ (dc_setup_bookkeeping c) Es) as [Hr0 _].
  destruct (dc_setup_data _ _ _ _ _ Es) as [<- _].
  eapply dc_loop_produced; eauto.
Qed.

(** C5. At every point of a run the circular buffer has
    [update_interval] slots.  Every example [i] processed so far was
    written exactly once, into slot [i % update_interval], in the order of
    the examples, and what was written is the spikes the network produced
    for it: those of the output layer after the presentation of image
    [i % len(images)] and its retries in the driver, those of the
    excitatory layer after the run on image [i] in the script, the network
    being the one the examples before have left.  A slot that an example
    has reached holds the spikes of the most recent example congruent to
    it, which is one of the last [update_interval] examples, and a slot no
    example has reached yet holds zeros. *)
Theorem C5_circular_buffer_holds_latest_examples :
  (∀ fuel (c : LogReg.config) k (t0 : trace) images labels s0 t images' labels' s,
     0 ≤ k →
     LogReg.setup c [] = (t0, Ok (images, labels, s0)) →
     LogReg.examples fuel c k [] = (t, Ok (images', labels', s)) →
     let produced := lc_produced (LogReg.time c) (lc_images c) (LogReg.network s0) in
     buffer_of (LogReg.update_interval c) k produced (LogReg.spike_record s)
     ∧ records t = (λ i, (i mod LogReg.update_interval c, i, produced i)) <$> Py.range k)
  ∧ (∀ (c : DiehlCook.config) k (t0 : trace) labels s0 t labels' s,
       0 ≤ k →
       DiehlCook.setup c [] = (t0, Ok (labels, s0)) →
       DiehlCook.examples c k [] = (t, Ok (labels', s)) →
       let produced := dc_produced (DiehlCook.time c) (dc_images c) (DiehlCook.network s0) in
       buffer_of (DiehlCook.update_interval c) k produced (DiehlCook.spike_record s)
       ∧ records t = (λ i, (i mod DiehlCook.update_interval c, i, produced i)) <$> Py.range k).
Proof.
  split.
  - intros fuel c k t0 images labels s0 t images' labels' s Hk Es E.
    exact (proj2 (lc_examples_produced _ _ _ _ _ _ _ _ _ _ _ Hk Es E)).
  - intros c k t0 labels s0 t labels' s Hk Es E.
    exact (proj2 (dc_examples_produced _ _ _ _ _ _ _ _ Hk Es E)).
Qed.

End Produced.

(** ** Test mode: the network that is run *)

Section TestNetwork.
Context `{Env}.




End TestNetwork.

(** ** The data of the Diehl and Cook script *)

Section TrainingData.
Context `{Env}.

Lemma dc_script_train_load c : emits train_load (DiehlCook.script c).
Proof.
  unfold DiehlCook.script, DiehlCook.examples, DiehlCook.setup, DiehlCook.check_divisible,
    DiehlCook.provision, DiehlCook.freeze, DiehlCook.load_data, DiehlCook.data_split,
    DiehlCook.load_classifier, DiehlCook.buffers, DiehlCook.loop, DiehlCook.step,
    DiehlCook.evaluate, DiehlCook.checkpoint, DiehlCook.next, DiehlCook.final_flush,
    DiehlCook.report.
  emits_auto.
Qed.

(** C9. In the Diehl and Cook script the images and labels come from the
    training split of MNIST in training mode and in test mode alike.  Line
    81 reads the training split and yields its images, flattened and scaled
    by [intensity], with its labels; whatever the outcome of a run, no
    other split is ever read, and a run that completes has read the dataset
    exactly once.  The labels the examples are evaluated against are those
    of the training split, and example [i] is presented training image
    [i].  The only thing the mode selects about the data is how many
    examples are presented, [n_train] or [n_test]. *)
Theorem C9_diehl_cook_reads_training_split (c : DiehlCook.config) :
  (∀ t : trace,
     DiehlCook.load_data c t =
       (t ++ [EvLoadData TrainSplit], Ok (dc_images c, (mnist TrainSplit).2)))
  ∧ emits train_load (DiehlCook.script c)
  ∧ (∀ (t t' : trace) s,
       DiehlCook.script c t = (t', Ok s) → loads t' = loads t ++ [TrainSplit])
  ∧ (∀ k (t : trace) labels s,
       0 ≤ k →
       DiehlCook.examples c k [] = (t, Ok (labels, s)) →
       labels = (mnist TrainSplit).2
       ∧ runs t = zip (Py.range k) (take (Z.to_nat k) (dc_images c)))
  ∧ DiehlCook.n_examples c =
      (if DiehlCook.train c then DiehlCook.n_train c else DiehlCook.n_test c).
Proof.
  split; [|split; [|split; [|split]]].
  - intros t. apply dc_load_data_eq.
  - apply dc_script_train_load.
  - intros t t' s. apply dc_script_loads.
  - intros k t labels s Hk E. split.
    + unfold DiehlCook.examples in E.
      apply bind_ok_inv in E as ([lbs s0] & t0 & Es & E).
      apply bind_ok_inv in E as (s1 & t1 & _ & E). injection E as _ <- _.
      eapply dc_setup_data. exact Es.
    + exact (proj1 (proj2 (dc_examples_runs _ _ _ _ _ Hk E))).
  - reflexivity.
Qed.

End TrainingData.

(** ** The length of the accuracy curves *)

Section CurveLengths.
Context `{Env}.

(** The interval of an evaluation: its labels and rows, read without an
    event. *)
Lemma lc_current_interval_inv {A} c labels (record : list A) i (t : trace) t' cl cr :
  LogReg.current_interval c labels record i t = (t', Ok (cl, cr)) →
  t' = t ∧ ∀ t0 : trace, LogReg.current_interval c labels record i t0 = (t0, Ok (cl, cr)).
Proof.
  unfold LogReg.current_interval. intros E.
  apply bind_ok_inv in E as (r & tr & Er & E). apply lift_ok_inv in Er as [-> Er].
  assert (Ht : t' = t) by (destruct (r =? 0); injection E as <- _; reflexivity).
  split; [exact Ht|]. intros t0.
  erewrite bind_ok by (unfold lift; rewrite Er; reflexivity).
  destruct (r =? 0); injection E as _ <- <-; reflexivity.
Qed.

(** The schemes of the driver: the one of line 135, in the curves and in
    the predictions, to which an evaluation appends the predictions for
    the rows of its interval. *)
Lemma lc_evaluate_schemes c labels i s (t : trace) t' s' :
  LogReg.evaluate c labels i s t = (t', Ok s') →
  fst <$> LogReg.curves s' = fst <$> LogReg.curves s
  ∧ ∃ cl cr,
      (∀ t0 : trace,
         LogReg.current_interval c labels (LogReg.full_spike_record s) i t0 = (t0, Ok (cl, cr)))
      ∧ LogReg.predictions s' =
          LogReg.cat_predictions (LogReg.predictions s)
            ((λ kv : string * list Acc, (kv.1, logreg_predict cr (LogReg.logreg_model s)))
               <$> LogReg.curves s).
Proof.
  intros E. pose proof E as E'.
  apply lc_evaluate_inv in E' as (a & new & ? & ? & ? & ? & _ & _ & _ & _ & _ & _ & Hc & _).
  split.
  { rewrite Hc, <- list_fmap_compose. apply fmap_pointwise. intros kv. reflexivity. }
  unfold LogReg.evaluate in E.
  apply bind_ok_inv in E as ([cl cr] & t0 & Eci & E). unfold LogReg.update_curves in E.
  apply lc_current_interval_inv in Eci as [-> Eci].
  apply bind_ok_inv in E as ([] & t1 & _ & E).
  apply bind_ok_inv in E as ([] & t2 & _ & E).
  exists cl, cr. split; [exact Eci|].
  destruct (LogReg.train c).
  - apply bind_ok_inv in E as (s2 & t3 & Echk & E).
    apply bind_ok_inv in E as ([] & t4 & _ & E). injection E as _ <-. simpl.
    apply lc_checkpoint_inv in Echk
      as (xs & best & _ & _ & [(_ & _ & m & _ & ->)|(_ & _ & ->)]); reflexivity.
  - injection E as _ <-. reflexivity.
Qed.

Lemma cat_predictions_schemes (ps : list (string * list Z)) (cs : list (string * list Acc)) p :
  fst <$> ps = ["logreg"] → fst <$> cs = ["logreg"] →
  fst <$> LogReg.cat_predictions ps ((λ kv : string * list Acc, (kv.1, p)) <$> cs) = ["logreg"].
Proof.
  intros Hp Hc.
  destruct ps as [|[k1 v1] [|? ?]]; try discriminate.
  destruct cs as [|[k2 v2] [|? ?]]; try discriminate.
  injection Hp as ->. reflexivity.
Qed.

Lemma lc_examples_schemes fuel c k (t : trace) images labels s :
  0 ≤ k →
  LogReg.examples fuel c k [] = (t, Ok (images, labels, s)) →
  fst <$> LogReg.curves s = ["logreg"] ∧ fst <$> LogReg.predictions s = ["logreg"].
Proof.
  revert k t images labels s.
  apply (lc_examples_ind (λ k t s,
    fst <$> LogReg.curves s = ["logreg"] ∧ fst <$> LogReg.predictions s = ["logreg"])).
  - intros t images labels s Es. unfold LogReg.setup in Es.
    apply bind_ok_inv in Es as ([] & ? & _ & Es).
    apply bind_ok_inv in Es as ([] & ? & _ & Es).
    apply bind_ok_inv in Es as (net & ? & _ & Es).
    apply bind_ok_inv in Es as ([? ?] & ? & _ & Es).
    apply bind_ok_inv in Es as ([? ?] & ? & _ & Es).
    apply bind_ok_inv in Es as (m & ? & _ & Es).
    injection Es as _ _ _ <-. split; reflexivity.
  - intros k t images labels s t' s' Hk _ [Hc Hp] Es.
    apply lc_step_inv in Es as (s1 & t1 & t2 & retries & x & net & _ & Eev & _ & Erec).
    assert (H1 : fst <$> LogReg.curves s1 = ["logreg"]
                 ∧ fst <$> LogReg.predictions s1 = ["logreg"]).
    { destruct (_ && _); [|destruct Eev as [_ ->]; auto].
      apply lc_evaluate_schemes in Eev as (Hc1 & cl & cr & _ & Hp1).
      rewrite Hc1, Hp1. split; [exact Hc|]. apply cat_predictions_schemes; assumption. }
    unfold LogReg.record_spikes in Erec.
    apply bind_ok_inv in Erec as (? & ? & _ & Erec).
    apply bind_ok_inv in Erec as (? & ? & _ & Erec).
    apply bind_ok_inv in Erec as (? & ? & _ & Erec).
    apply bind_ok_inv in Erec as (? & ? & _ & Erec).
    injection Erec as _ <-. exact H1.
Qed.

Lemma lc_final_flush_schemes c labels s (t : trace) t' s' :
  LogReg.final_flush c labels s t = (t', Ok s') →
  fst <$> LogReg.curves s' = fst <$> LogReg.curves s
  ∧ ∃ i0 cl cr,
      LogReg.var_i s = Some i0
      ∧ (∀ t0 : trace,
           LogReg.current_interval c labels (LogReg.full_spike_record s) (i0 + 1) t0
           = (t0, Ok (cl, cr)))
      ∧ LogReg.predictions s' =
          LogReg.cat_predictions (LogReg.predictions s)
            ((λ kv : string * list Acc, (kv.1, logreg_predict cr (LogReg.logreg_model s)))
               <$> LogReg.curves s).
Proof.
  unfold LogReg.final_flush. intros E.
  apply bind_ok_inv in E as (i0 & ? & Ei & E). apply read_ok_inv in Ei as [-> Hi].
  apply bind_ok_inv in E as ([cl cr] & ? & Eci & E). unfold LogReg.update_curves in E.
  apply lc_current_interval_inv in Eci as [-> Eci].
  apply bind_ok_inv in E as ([] & ? & _ & E).
  apply bind_ok_inv in E as ([] & ? & _ & E).
  injection E as _ <-. simpl. split.
  - rewrite <- list_fmap_compose. apply fmap_pointwise. intros kv. reflexivity.
  - exists i0, cl, cr. split; [exact Hi|]. split; [exact Eci | reflexivity].
Qed.

(** The state [main] returns has the one scheme of line 135. *)
Lemma lc_main_schemes fuel c (t : trace) s labels' :
  LogReg.main fuel c [] = (t, Ok (s, labels')) →
  fst <$> LogReg.curves s = ["logreg"] ∧ fst <$> LogReg.predictions s = ["logreg"].
Proof.
  intros E.
  apply lc_main_inv in E as (images & labels & s1 & t1 & t2 & new & Eex & Eff & _ & _).
  assert (Hn : 0 ≤ LogReg.n_examples c).
  { pose proof Eex as Eex'. unfold LogReg.examples in Eex'.
    apply bind_ok_inv in Eex' as ([[? ?] ?] & ? & Es & _).
    apply lc_setup_inv in Es as (_ & Hn & _). exact Hn. }
  destruct (lc_examples_schemes _ _ _ _ _ _ _ Hn Eex) as [Hc Hp].
  apply lc_final_flush_schemes in Eff as (Hc' & i0 & cl & cr & _ & _ & Hp').
  rewrite Hc', Hp'. split; [exact Hc|]. apply cat_predictions_schemes; assumption.
Qed.

(** C6. After a run over [n_examples] examples that returns, the
    accuracies were computed at every index [i] of the loop with
    [i % update_interval == 0] and [i > 0], in order, and once more after
    the loop, at [n_examples]; every curve (the one of the driver, the two
    of the script) has one entry for each of these evaluations, that is
    [ceil(n_examples / update_interval)] entries. *)
Theorem C6_curves_have_one_entry_per_interval :
  (∀ fuel (c : LogReg.config) (t : trace) s labels',
     LogReg.main fuel c [] = (t, Ok (s, labels')) →
     evaluations t =
       filter (λ i, boundary (LogReg.update_interval c) i = true)
         (Py.range (LogReg.n_examples c)) ++ [LogReg.n_examples c]
     ∧ fst <$> LogReg.curves s = ["logreg"]
     ∧ Forall (λ kv : string * list Acc,
         Z.of_nat (length kv.2) = ceil_div (LogReg.n_examples c) (LogReg.update_interval c))
         (LogReg.curves s))
  ∧ (∀ (c : DiehlCook.config) (t : trace) s,
       DiehlCook.script c [] = (t, Ok s) →
       evaluations t =
         filter (λ i, boundary (DiehlCook.update_interval c) i = true)
           (Py.range (DiehlCook.n_examples c)) ++ [DiehlCook.n_examples c]
       ∧ fst <$> DiehlCook.accuracy_ s = ["all"; "proportion"]
       ∧ Forall (λ kv : string * list Acc,
           Z.of_nat (length kv.2)
           = ceil_div (DiehlCook.n_examples c) (DiehlCook.update_interval c))
           (DiehlCook.accuracy_ s)).
Proof.
  split.
  - intros fuel c t s labels' E.
    destruct (lc_curves_of_returning_run _ _ _ _ _ E) as [Hev Hlen].
    destruct (lc_main_schemes _ _ _ _ _ E) as [Hk _]. auto.
  - intros c t s E. apply dc_curves_of_returning_run. exact E.
Qed.

End CurveLengths.

(** ** The labels and the predictions of the confusion matrix *)

Section Confusion.
Context `{Env}.






End Confusion.


(** ** What a mode does and does not do *)

Ltac emits_known :=
  repeat (lazy beta iota; first [emits_step | apply emits_zeros | apply emits_lasts
                                | apply emits_max | apply emits_lookup_key
                                | apply emits_seed_all | apply emits_confusions
                                | apply emits_n_sqrt]);
  try exact I; try reflexivity.

Section Modes.
Context `{Env}.

Lemma emits_from_nil {A} (P : event → Prop) (m : M A) t r :
  emits P m → m [] = (t, r) → Forall P t.
Proof. intros Hm E. destruct (Hm _ _ _ E) as (new & -> & F). exact F. Qed.

Lemma lc_main_evaluation_only fuel c :
  LogReg.train c = false → emits evaluation_only (LogReg.main fuel c).
Proof.
  intros Ht.
  unfold LogReg.main, LogReg.before_confusion, LogReg.examples, LogReg.setup,
    LogReg.check_divisible,
    LogReg.provision, LogReg.load_data, LogReg.load_classifier, LogReg.buffers,
    LogReg.loop, LogReg.step, LogReg.evaluate, LogReg.current_interval,
    LogReg.present, LogReg.retry_body, LogReg.record_spikes, LogReg.final_flush,
    LogReg.report, LogReg.adjust_labels, LogReg.extend_body, LogReg.current_interval.
  rewrite !Ht. emits_known.
Qed.

Lemma lc_main_from_scratch fuel c :
  LogReg.train c = true → emits from_scratch (LogReg.main fuel c).
Proof.
  intros Ht.
  unfold LogReg.main, LogReg.before_confusion, LogReg.examples, LogReg.setup,
    LogReg.check_divisible,
    LogReg.provision, LogReg.load_data, LogReg.load_classifier, LogReg.buffers,
    LogReg.loop, LogReg.step, LogReg.evaluate, LogReg.current_interval,
    LogReg.checkpoint, LogReg.present, LogReg.retry_body, LogReg.record_spikes,
    LogReg.final_flush, LogReg.report, LogReg.adjust_labels, LogReg.extend_body, LogReg.current_interval.
  rewrite !Ht. emits_known.
Qed.

Lemma dc_script_evaluation_only c :
  DiehlCook.train c = false → emits evaluation_only (DiehlCook.script c).
Proof.
  intros Ht.
  unfold DiehlCook.script, DiehlCook.examples, DiehlCook.setup, DiehlCook.check_divisible,
    DiehlCook.provision, DiehlCook.freeze, DiehlCook.load_data, DiehlCook.load_classifier,
    DiehlCook.buffers, DiehlCook.loop, DiehlCook.step, DiehlCook.evaluate, DiehlCook.next,
    DiehlCook.final_flush, DiehlCook.report.
  rewrite !Ht. emits_known.
Qed.

Lemma dc_script_from_scratch c :
  DiehlCook.train c = true → emits from_scratch (DiehlCook.script c).
Proof.
  intros Ht.
  unfold DiehlCook.script, DiehlCook.examples, DiehlCook.setup, DiehlCook.check_divisible,
    DiehlCook.provision, DiehlCook.freeze, DiehlCook.load_data, DiehlCook.load_classifier,
    DiehlCook.buffers, DiehlCook.loop, DiehlCook.step, DiehlCook.evaluate,
    DiehlCook.checkpoint, DiehlCook.next, DiehlCook.final_flush, DiehlCook.report.
  rewrite !Ht. emits_known.
Qed.

(** In test mode the classifier of the logistic-regression driver is the
    one read from the disk, from the set-up to the end. *)
Lemma lc_test_classifier fuel c (t : trace) s labels' :
  LogReg.train c = false →
  LogReg.main fuel c [] = (t, Ok (s, labels')) →
  disk_model (LogReg.auxiliary_file c) = Some (LogReg.logreg_model s).
Proof.
  intros Ht E.
  apply lc_main_inv in E as (images & labels & s1 & t1 & t2 & new & Eex & Eff & _ & _).
  rename s into s2.
  assert (Hff : LogReg.logreg_model s2 = LogReg.logreg_model s1).
  { unfold LogReg.final_flush in Eff.
    apply bind_ok_inv in Eff as (i0 & ? & _ & Eff).
    apply bind_ok_inv in Eff as ([cl cr] & ? & _ & Eff).
    destruct (LogReg.update_curves _ _ _ _) as [cs ps].
    apply bind_ok_inv in Eff as (? & ? & _ & Eff).
    apply bind_ok_inv in Eff as (? & ? & _ & Eff).
    injection Eff as _ <-. reflexivity. }
  rewrite Hff. clear Hff Eff s2 t2.
  unfold LogReg.examples in Eex.
  apply bind_ok_inv in Eex as ([[ims lbs] s0] & t0 & Es & Eex).
  apply bind_ok_inv in Eex as (s3 & t3 & Eloop & Eex). injection Eex as _ _ _ <-.
  assert (H0' : disk_model (LogReg.auxiliary_file c) = Some (LogReg.logreg_model s0)).
  { unfold LogReg.setup in Es.
    apply bind_ok_inv in Es as ([] & ? & _ & Es).
    apply bind_ok_inv in Es as ([] & ? & _ & Es).
    apply bind_ok_inv in Es as (net & ? & _ & Es).
    apply bind_ok_inv in Es as ([? ?] & ? & _ & Es).
    apply bind_ok_inv in Es as ([? ?] & ? & _ & Es).
    apply bind_ok_inv in Es as (m & ? & Em & Es).
    injection Es as _ _ _ <-. simpl.
    unfold LogReg.load_classifier in Em. rewrite Ht in Em.
    apply bind_ok_inv in Em as ([] & ? & _ & Em).
    apply read_ok_inv in Em as [_ Em]. exact Em. }
  rewrite H0'. f_equal. symmetry.
  unfold LogReg.loop in Eloop.
  apply (for_each_keeps _ (λ s, LogReg.logreg_model s = LogReg.logreg_model s0)
           _ _ _ _ _ Eloop eq_refl).
  intros i s4 t4 s5 t5 IH Estep.
  apply lc_step_inv in Estep as (s6 & tE & tP & rP & xP & netP & _ & Eev & _ & Erec).
  assert (H6 : LogReg.logreg_model s6 = LogReg.logreg_model s4).
  { destruct (_ && _); [|destruct Eev as [_ ->]; reflexivity].
    unfold LogReg.evaluate in Eev. rewrite Ht in Eev.
    apply bind_ok_inv in Eev as ([cl cr] & ? & _ & Eev).
    destruct (LogReg.update_curves _ _ _ _) as [cs ps].
    apply bind_ok_inv in Eev as (? & ? & _ & Eev).
    apply bind_ok_inv in Eev as (? & ? & _ & Eev).
    injection Eev as _ <-. reflexivity. }
  unfold LogReg.record_spikes in Erec.
  apply bind_ok_inv in Erec as (? & ? & _ & Erec).
  apply bind_ok_inv in Erec as (? & ? & _ & Erec).
  apply bind_ok_inv in Erec as (? & ? & _ & Erec).
  apply bind_ok_inv in Erec as (? & ? & _ & Erec).
  injection Erec as _ <-. simpl. congruence.
Qed.

(** In test mode the assignments of the script are the ones read from
    the disk, from the set-up to the end. *)
Lemma dc_test_classifier c (t : trace) s :
  DiehlCook.train c = false →
  DiehlCook.script c [] = (t, Ok s) →
  disk_assign DiehlCook.auxiliary_file = Some (DiehlCook.classifier s).
Proof.
  intros Ht E. unfold DiehlCook.script in E.
  apply bind_ok_inv in E as ([labels s1] & t1 & Eex & E).
  apply bind_ok_inv in E as (s2 & t2 & Eff & E).
  apply bind_ok_inv in E as (? & ? & _ & E). injection E as _ <-.
  assert (Hff : DiehlCook.classifier s2 = DiehlCook.classifier s1).
  { unfold DiehlCook.final_flush in Eff.
    apply bind_ok_inv in Eff as (i0 & ? & _ & Eff).
    apply bind_ok_inv in Eff as (? & ? & _ & Eff).
    injection Eff as _ <-. reflexivity. }
  rewrite Hff. clear Hff Eff s2 t2.
  unfold DiehlCook.examples in Eex.
  apply bind_ok_inv in Eex as ([lbs s0] & t0 & Es & Eex).
  apply bind_ok_inv in Eex as (s3 & t3 & Eloop & Eex). injection Eex as _ _ <-.
  assert (H0' : disk_assign DiehlCook.auxiliary_file = Some (DiehlCook.classifier s0)).
  { unfold DiehlCook.setup in Es.
    apply bind_ok_inv in Es as ([] & ? & _ & Es).
    apply bind_ok_inv in Es as ([] & ? & _ & Es).
    apply bind_ok_inv in Es as ([] & ? & _ & Es).
    apply bind_ok_inv in Es as (net & ? & _ & Es).
    apply bind_ok_inv in Es as ([? ?] & ? & _ & Es).
    apply bind_ok_inv in Es as (sr & ? & _ & Es).
    apply bind_ok_inv in Es as (a & ? & Ea & Es).
    injection Es as _ _ <-. simpl.
    unfold DiehlCook.load_classifier in Ea. rewrite Ht in Ea.
    apply bind_ok_inv in Ea as ([] & ? & _ & Ea).
    apply read_ok_inv in Ea as [_ Ea]. exact Ea. }
  rewrite H0'. f_equal. symmetry.
  unfold DiehlCook.loop in Eloop.
  apply (for_each_keeps _ (λ s, DiehlCook.classifier s = DiehlCook.classifier s0)
           _ _ _ _ _ Eloop eq_refl).
  intros i s4 t4 s5 t5 IH Estep.
  unfold DiehlCook.step in Estep.
  apply bind_ok_inv in Estep as (? & ? & _ & Estep).
  apply bind_ok_inv in Estep as (? & ? & _ & Estep).
  apply bind_ok_inv in Estep as (s6 & t6 & Eev & Estep).
  assert (H6 : DiehlCook.classifier s6 = DiehlCook.classifier s4).
  { destruct (_ && _); [|injection Eev as _ <-; reflexivity].
    unfold DiehlCook.evaluate in Eev. rewrite Ht in Eev.
    apply bind_ok_inv in Eev as (? & ? & _ & Eev).
    injection Eev as _ <-. reflexivity. }
  apply bind_ok_inv in Estep as ([datum rest] & ? & _ & Estep).
  apply bind_ok_inv in Estep as (? & ? & _ & Estep).
  apply bind_ok_inv in Estep as (? & ? & _ & Estep).
  apply bind_ok_inv in Estep as (? & ? & _ & Estep).
  apply bind_ok_inv in Estep as (? & ? & _ & Estep).
  injection Estep as _ <-. simpl. congruence.
Qed.

(** X9. A test run only evaluates: it builds no network, writes no
    checkpoint and refits nothing, whatever its outcome, and when it
    returns its classifier is still the one read from the disk.  A
    training run starts from scratch: it reads no checkpoint, neither of
    the network nor of the classifier, so it cannot resume an earlier
    one. *)
Theorem X9_test_runs_only_evaluate_and_training_starts_from_scratch
    fuel (lc : LogReg.config) (dc : DiehlCook.config)
    (lt dt : trace) (lr : result (LogReg.state * list Z)) (dr : result DiehlCook.state) :
  LogReg.main fuel lc [] = (lt, lr) →
  DiehlCook.script dc [] = (dt, dr) →
  (LogReg.train lc = false →
   Forall evaluation_only lt
   ∧ ∀ s labels', lr = Ok (s, labels') →
       disk_model (LogReg.auxiliary_file lc) = Some (LogReg.logreg_model s))
  ∧ (LogReg.train lc = true → Forall from_scratch lt)
  ∧ (DiehlCook.train dc = false →
     Forall evaluation_only dt
     ∧ ∀ s, dr = Ok s → disk_assign DiehlCook.auxiliary_file = Some (DiehlCook.classifier s))
  ∧ (DiehlCook.train dc = true → Forall from_scratch dt).
Proof.
  intros El Ed. split; [|split; [|split]].
  - intros Ht. split.
    + eapply emits_from_nil; [apply lc_main_evaluation_only; exact Ht | exact El].
    + intros s labels' ->. eapply lc_test_classifier; eassumption.
  - intros Ht. eapply emits_from_nil; [apply lc_main_from_scratch; exact Ht | exact El].
  - intros Ht. split.
    + eapply emits_from_nil; [apply dc_script_evaluation_only; exact Ht | exact Ed].
    + intros s ->. eapply dc_test_classifier; eassumption.
  - intros Ht. eapply emits_from_nil; [apply dc_script_from_scratch; exact Ht | exact Ed].
Qed.

End Modes.


(** ** After the last example *)

Section LastInterval.
Context `{Env}.

Lemma emits_bind_lift {A B} (P : event → Prop) (r : result A) (f : A → M B) :
  (∀ a, r = Ok a → emits P (f a)) → emits P (lift r ≫= f).
Proof.
  intros Hf t t' res E. rewrite bind_eq in E. unfold lift in E.
  destruct r as [a|e|].
  - exact (Hf a eq_refl _ _ _ E).
  - injection E as <- _. exists []. rewrite app_nil_r. auto.
  - injection E as <- _. exists []. rewrite app_nil_r. auto.
Qed.

Lemma emits_for_each_in {S} (P : event → Prop) (body : Z → S → M S) l s :
  (∀ i s, i ∈ l → emits P (body i s)) → emits P (for_each body l s).
Proof.
  revert s. induction l as [|i l IH]; intros s Hb; simpl; [apply emits_ret|].
  apply emits_bind; [apply Hb; left|].
  intros s'. apply IH. intros j s'' Hj. apply Hb. right. exact Hj.
Qed.

(** An iteration at which no evaluation is due writes no checkpoint. *)
Lemma dc_step_not_save c labels i s :
  boundary (DiehlCook.update_interval c) i = false →
  emits not_save (DiehlCook.step c labels i s).
Proof.
  intros Hb. unfold DiehlCook.step.
  apply emits_bind; [emits_auto|]. intros _.
  apply emits_bind_lift. intros r Hr. apply mod_ok_inv in Hr as [_ ->].
  unfold boundary in Hb. rewrite Hb.
  unfold DiehlCook.next. emits_auto.
Qed.

Lemma boundary_before_interval ui i : 0 ≤ i < ui → boundary ui i = false.
Proof.
  intros Hi. unfold boundary.
  destruct (Z.ltb_spec 0 i); [|apply andb_false_r].
  rewrite Z.mod_small by lia.
  destruct (Z.eqb_spec i 0); [lia | reflexivity].
Qed.

(** X10. The script never checkpoints its last interval: once the last
    example is recorded it appends the final accuracies and one line of
    results, and leaves the network, the assignments and the watermark as
    the loop left them, whatever the final accuracies are.  A run of at
    most [update_interval] examples therefore writes no checkpoint at
    all. *)
Theorem X10_script_never_checkpoints_the_last_interval
    (c : DiehlCook.config) (t : trace) (r : result DiehlCook.state) :
  DiehlCook.script c [] = (t, r) →
  (DiehlCook.n_examples c ≤ DiehlCook.update_interval c → Forall not_save t)
  ∧ (∀ s, r = Ok s →
       ∃ t1 labels s1 row,
         DiehlCook.examples c (DiehlCook.n_examples c) [] = (t1, Ok (labels, s1))
         ∧ 0 < DiehlCook.n_examples c
         ∧ t = t1 ++ [EvEvaluate (DiehlCook.n_examples c);
                      EvCsv (DiehlCook.results_file c) row]
         ∧ DiehlCook.network s = DiehlCook.network s1
         ∧ DiehlCook.classifier s = DiehlCook.classifier s1
         ∧ DiehlCook.best_accuracy s = DiehlCook.best_accuracy s1).
Proof.
  intros E. split.
  - intros Hn.
    assert (Hq : emits not_save (DiehlCook.script c)).
    { unfold DiehlCook.script, DiehlCook.examples.
      apply emits_bind; [|intros s1; unfold DiehlCook.final_flush, DiehlCook.report;
                          emits_auto].
      apply emits_bind; [|intros [labels s0]].
      - unfold DiehlCook.setup, DiehlCook.check_divisible, DiehlCook.provision,
          DiehlCook.freeze, DiehlCook.load_data, DiehlCook.load_classifier, DiehlCook.buffers.
        emits_auto.
      - apply emits_bind; [|intros s1; emits_auto].
        unfold DiehlCook.loop. apply emits_for_each_in. intros i s1 Hi.
        apply dc_step_not_save, boundary_before_interval.
        unfold Py.range in Hi. apply elem_of_seqZ in Hi. lia. }
    destruct (Hq _ _ _ E) as (new & -> & F). exact F.
  - intros s ->. unfold DiehlCook.script in E.
    apply bind_ok_inv in E as ([labels s1] & t1 & Eex & E).
    apply bind_ok_inv in E as (s2 & t2 & Eff & E).
    apply bind_ok_inv in E as ([] & t3 & Erep & E). injection E as <- <-.
    unfold DiehlCook.final_flush in Eff.
    apply bind_ok_inv in Eff as (i0 & t4 & Ei & Eff).
    apply read_ok_inv in Ei as [-> Hi].
    apply bind_ok_inv in Eff as ([] & t5 & Eemit & Eff).
    rewrite emit_eq in Eemit. injection Eemit as <-. injection Eff as <- <-.
    unfold DiehlCook.report in Erep.
    apply bind_ok_inv in Erep as (all & t6 & Eall & Erep).
    apply bind_ok_inv in Erep as (prop & t7 & Eprop & Erep).
    unfold lookup_key in Eall, Eprop.
    apply read_ok_inv in Eall as [-> _]. apply read_ok_inv in Eprop as [-> _].
    rewrite emit_eq in Erep. injection Erep as <-.
    assert (Hn : 0 < DiehlCook.n_examples c ∧ i0 + 1 = DiehlCook.n_examples c).
    { destruct (Z.le_gt_cases (DiehlCook.n_examples c) 0) as [Hle|Hgt].
      - exfalso. pose proof Eex as Eex'. unfold DiehlCook.examples in Eex'.
        apply bind_ok_inv in Eex' as ([lbs s0] & t0 & Es & Eex').
        apply bind_ok_inv in Eex' as (s3 & t8 & Eloop & Eex'). injection Eex' as <- <- <-.
        unfold DiehlCook.loop in Eloop. rewrite for_each_range_0 in Eloop by lia.
        injection Eloop as <- <-.
        apply dc_setup_inv in Es as (_ & _ & _ & _ & Hv & _). congruence.
      - assert (H0' : 0 ≤ DiehlCook.n_examples c) by lia.
        pose proof (dc_examples_inv _ _ _ _ _ H0' Eex) as (_ & (_ & _ & _ & _ & Hv)).
        rewrite Hi in Hv.
        destruct (Z.eqb_spec (DiehlCook.n_examples c) 0); [lia|].
        injection Hv as ->. split; lia. }
    destruct Hn as [Hpos Hi0].
    eexists t1, labels, s1, _. split; [exact Eex|]. split; [exact Hpos|].
    rewrite Hi0. split; [rewrite <- app_assoc; reflexivity|].
    simpl. auto.
Qed.

End LastInterval.


(** ** What an evaluation compares *)

Section Alignment.
Context `{Env}.

Lemma lookup_window {A} (l : list A) (a m j : nat) :
  (j < m)%nat → take m (drop a l) !! j = l !! (a + j)%nat.
Proof. intros Hj. rewrite lookup_take_lt by assumption. apply lookup_drop. Qed.

(** The example in a slot of the circular buffer at a multiple of the
    interval. *)
Lemma slot_example ui i e slot :
  0 < ui → (ui | i) → 0 ≤ slot < ui → e mod ui = slot → i - ui ≤ e < i →
  e = i - ui + slot.
Proof.
  intros Hui [q ->] Hslot Hmod He.
  pose proof (Z.div_mod e ui ltac:(lia)) as Hdm. rewrite Hmod in Hdm.
  assert (e / ui = q - 1) by nia. nia.
Qed.

(** X13. When the script evaluates, at an index [i] that is a positive
    multiple of [update_interval] (in the loop or after it), the circular
    buffer and the labels [labels[i - update_interval:i]] it is compared
    with are aligned: slot [j] holds the spikes recorded for example
    [i - update_interval + j], and entry [j] of the labels is the label of
    that example; there are [update_interval] of each. *)
Theorem X13_script_evaluates_the_buffer_against_its_own_labels
    (c : DiehlCook.config) (i : Z) (t : trace) labels (s : DiehlCook.state) :
  0 < i →
  (DiehlCook.update_interval c | i) →
  i ≤ Z.of_nat (length labels) →
  DiehlCook.examples c i [] = (t, Ok (labels, s)) →
  let ui := DiehlCook.update_interval c in
  let window := Py.slice labels (Some (i - ui)) (Some i) in
  Z.of_nat (length window) = ui
  ∧ Z.of_nat (length (DiehlCook.spike_record s)) = ui
  ∧ ∀ j, 0 ≤ j < ui →
      window !! Z.to_nat j = labels !! Z.to_nat (i - ui + j)
      ∧ ∃ d, DiehlCook.spike_record s !! Z.to_nat j = Some d
             ∧ EvRecord j (i - ui + j) d ∈ t.
Proof.
  intros Hi Hdiv Hlen E ui window.
  assert (H0i : 0 ≤ i) by lia.
  pose proof (dc_examples_inv _ _ _ _ _ H0i E) as (Hui & (Hbl & _ & Hslots) & _).
  fold ui in Hui, Hbl, Hslots, Hdiv. subst window. clearbody ui.
  assert (Hge : ui ≤ i).
  { apply Z.divide_pos_le; assumption. }
  destruct (slice_inside labels (i - ui) i) as [Hw Hwl]; [lia | lia | lia |].
  split; [rewrite Hwl; lia|]. split; [exact Hbl|].
  intros j Hj. split.
  - rewrite Hw. replace (i - (i - ui)) with ui by lia.
    rewrite lookup_window by lia. f_equal. lia.
  - specialize (Hslots j Hj).
    destruct (last_record j t) as [[e d]|]; [|lia].
    destruct Hslots as (Hd & Hin & He & Hmod & Hlate).
    exists d. split; [exact Hd|].
    rewrite <- (slot_example ui i e j); (assumption || lia).
Qed.

(** X14. As long as the run has not gone through its labels once, the
    logistic-regression driver evaluates the interval just completed: at
    a positive multiple [i] of [update_interval] below [len(labels)], or
    at [i = n_examples = len(labels)] after the loop, the labels selected
    are the labels of the examples [i - update_interval] to [i - 1] and the
    rows selected are the spike counts recorded for these examples. *)
Theorem X14_driver_evaluates_the_interval_just_completed
    fuel (c : LogReg.config) (i : Z) (t t' : trace) images labels (s : LogReg.state) :
  0 < i →
  (LogReg.update_interval c | i) →
  i < LogReg.len labels ∨ (i = LogReg.len labels ∧ i = LogReg.n_examples c) →
  LogReg.examples fuel c i [] = (t, Ok (images, labels, s)) →
  let ui := LogReg.update_interval c in
  ∃ window rows,
    LogReg.current_interval c labels (LogReg.full_spike_record s) i t' = (t', Ok (window, rows))
    ∧ LogReg.len window = ui ∧ LogReg.len rows = ui
    ∧ ∀ j, 0 ≤ j < ui →
        window !! Z.to_nat j = labels !! Z.to_nat (i - ui + j)
        ∧ ∃ slot d, (slot, i - ui + j, d) ∈ records t
                    ∧ rows !! Z.to_nat j = Some (spikes_sum0 d).
Proof.
  intros Hi Hdiv Hcase E ui. subst ui.
  assert (H0i : 0 ≤ i) by lia.
  pose proof (lc_examples_inv _ _ _ _ _ _ _ H0i E) as (Hui & _).
  destruct (lc_examples_full _ _ _ _ _ _ _ H0i E) as (Hle & Hfull & _).
  pose proof (λ j, lc_examples_row _ _ _ _ _ _ _ j H0i E) as Hrow.
  unfold LogReg.current_interval, LogReg.len in *.
  remember (LogReg.update_interval c) as ui eqn:Hu. clear Hu.
  assert (Hge : ui ≤ i).
  { apply Z.divide_pos_le; assumption. }
  destruct Hcase as [Hlt|[Heq Hn]].
  - erewrite bind_ok by (unfold lift; rewrite mod_ok by lia; reflexivity).
    rewrite Z.mod_small by lia.
    destruct (Z.eqb_spec i 0); [lia|].
    destruct (slice_inside labels (i - ui) i) as [Hw Hwl]; [lia | lia | lia |].
    destruct (slice_inside (LogReg.full_spike_record s) (i - ui) i) as [Hr Hrl];
      [lia | lia | lia |].
    eexists _, _. split; [reflexivity|].
    split; [rewrite Hwl; lia|]. split; [rewrite Hrl; lia|].
    intros j Hj. rewrite Hw, Hr. replace (i - (i - ui)) with ui by lia.
    rewrite !lookup_window by lia.
    replace (Z.to_nat (i - ui) + Z.to_nat j)%nat with (Z.to_nat (i - ui + j)) by lia.
    split; [reflexivity|]. apply Hrow. lia.
  - erewrite bind_ok by (unfold lift; rewrite mod_ok by lia; reflexivity).
    rewrite <- Heq, Z.mod_same by lia. simpl.
    rewrite !slice_tail by assumption.
    eexists _, _. split; [reflexivity|].
    rewrite !length_drop.
    split; [lia|]. split; [lia|].
    intros j Hj. rewrite !lookup_drop.
    replace (length labels - Z.to_nat ui + Z.to_nat j)%nat
      with (Z.to_nat (i - ui + j)) by lia.
    replace (length (LogReg.full_spike_record s) - Z.to_nat ui + Z.to_nat j)%nat
      with (Z.to_nat (i - ui + j)) by lia.
    split; [reflexivity|]. apply Hrow. lia.
Qed.

End Alignment.


(** ** When the classifier is fit *)

Section Refits.
Context `{Env}.

Lemma refits_app (t1 t2 : trace) : refits (t1 ++ t2) = refits t1 ++ refits t2.
Proof. unfold refits. apply omap_app. Qed.

Lemma refits_not_refit (new : trace) : Forall not_refit new → refits new = [].
Proof.
  induction 1 as [|e new He _ IH]; [reflexivity|].
  destruct e; simpl in *; try contradiction; exact IH.
Qed.

Lemma emits_not_refit {A} (m : M A) (t t' : trace) r :
  emits not_refit m → m t = (t', r) → refits t' = refits t.
Proof.
  intros Hm E. destruct (Hm _ _ _ E) as (new & -> & F).
  rewrite refits_app, (refits_not_refit _ F), app_nil_r. reflexivity.
Qed.

Lemma lc_checkpoint_not_refit c s : emits not_refit (LogReg.checkpoint c s).
Proof. unfold LogReg.checkpoint. emits_auto. Qed.

Lemma dc_checkpoint_not_refit c s : emits not_refit (DiehlCook.checkpoint c s).
Proof. unfold DiehlCook.checkpoint. emits_auto. Qed.

Lemma lc_evaluate_refits c labels i s (t : trace) t' s' :
  LogReg.evaluate c labels i s t = (t', Ok s') →
  refits t' = refits t ++ (if LogReg.train c then [i] else []).
Proof.
  unfold LogReg.evaluate. intros E.
  apply bind_ok_inv in E as ([cl cr] & t1 & E1 & E).
  assert (R1 : refits t1 = refits t).
  { eapply emits_not_refit; [|exact E1]. unfold LogReg.current_interval. emits_auto. }
  destruct (LogReg.update_curves _ _ _ _) as [cs ps].
  apply bind_ok_inv in E as ([] & t2 & E2 & E). rewrite emit_eq in E2. injection E2 as <-.
  apply bind_ok_inv in E as ([] & t3 & E3 & E). rewrite emit_eq in E3. injection E3 as <-.
  destruct (LogReg.train c).
  - apply bind_ok_inv in E as (s2 & t4 & E4 & E).
    assert (R4 : refits t4 = refits t1).
    { rewrite (emits_not_refit _ _ _ _ (lc_checkpoint_not_refit c _) E4).
      rewrite !refits_app. simpl. rewrite !app_nil_r. reflexivity. }
    apply bind_ok_inv in E as ([] & t5 & E5 & E). rewrite emit_eq in E5. injection E5 as <-.
    injection E as <- _. rewrite refits_app, R4, R1. reflexivity.
  - injection E as <- _. rewrite !refits_app. simpl. rewrite !app_nil_r, R1. reflexivity.
Qed.

Lemma dc_evaluate_refits c labels i s (t : trace) t' s' :
  DiehlCook.evaluate c labels i s t = (t', Ok s') →
  refits t' = refits t ++ (if DiehlCook.train c then [i] else []).
Proof.
  unfold DiehlCook.evaluate. intros E.
  apply bind_ok_inv in E as ([] & t2 & E2 & E). rewrite emit_eq in E2. injection E2 as <-.
  destruct (DiehlCook.train c).
  - apply bind_ok_inv in E as (s2 & t4 & E4 & E).
    assert (R4 : refits t4 = refits t).
    { rewrite (emits_not_refit _ _ _ _ (dc_checkpoint_not_refit c _) E4).
      rewrite !refits_app. simpl. rewrite !app_nil_r. reflexivity. }
    apply bind_ok_inv in E as ([] & t5 & E5 & E). rewrite emit_eq in E5. injection E5 as <-.
    injection E as <- _. rewrite refits_app, R4. reflexivity.
  - injection E as <- _. rewrite !refits_app. simpl. rewrite !app_nil_r. reflexivity.
Qed.

Lemma lc_examples_refits fuel c k t images labels s :
  0 ≤ k →
  LogReg.examples fuel c k [] = (t, Ok (images, labels, s)) →
  refits t = if LogReg.train c
             then filter (λ i, boundary (LogReg.update_interval c) i = true) (Py.range k)
             else [].
Proof.
  revert k t images labels s. apply (lc_examples_ind (λ k t s,
    refits t = if LogReg.train c
               then filter (λ i, boundary (LogReg.update_interval c) i = true) (Py.range k)
               else [])).
  - intros t images labels s Es.
    erewrite emits_not_refit; [| |exact Es].
    + destruct (LogReg.train c); reflexivity.
    + unfold LogReg.setup, LogReg.check_divisible, LogReg.provision, LogReg.load_data,
        LogReg.load_classifier, LogReg.buffers. emits_auto.
  - intros k t images labels s t' s' Hk Eex IH Es.
    apply lc_step_inv in Es as (s1 & t1 & t2 & r & x & net & _ & Eev & Epr & Erec).
    assert (R3 : refits t' = refits t1).
    { erewrite (emits_not_refit _ t2 t'); [| |exact Erec].
      - eapply emits_not_refit; [|exact Epr].
        unfold LogReg.present, LogReg.retry_body. emits_auto.
      - unfold LogReg.record_spikes. emits_auto. }
    rewrite R3, filter_boundary_succ by assumption.
    change ((k mod LogReg.update_interval c =? 0) && (0 <? k))
      with (boundary (LogReg.update_interval c) k) in Eev.
    destruct (boundary (LogReg.update_interval c) k).
    + rewrite (lc_evaluate_refits _ _ _ _ _ _ _ Eev), IH.
      destruct (LogReg.train c); reflexivity.
    + destruct Eev as [-> _]. rewrite IH, app_nil_r. reflexivity.
Qed.

Lemma dc_examples_refits c k t labels s :
  0 ≤ k →
  DiehlCook.examples c k [] = (t, Ok (labels, s)) →
  refits t = if DiehlCook.train c
             then filter (λ i, boundary (DiehlCook.update_interval c) i = true) (Py.range k)
             else [].
Proof.
  revert k t labels s. apply (dc_examples_ind (λ k t s,
    refits t = if DiehlCook.train c
               then filter (λ i, boundary (DiehlCook.update_interval c) i = true) (Py.range k)
               else [])).
  - intros t labels s Es.
    erewrite emits_not_refit; [| |exact Es].
    + destruct (DiehlCook.train c); reflexivity.
    + unfold DiehlCook.setup, DiehlCook.check_divisible, DiehlCook.provision,
        DiehlCook.freeze, DiehlCook.load_data, DiehlCook.load_classifier, DiehlCook.buffers.
      emits_auto.
  - intros k t labels s t' s' Hk Eex IH Es.
    unfold DiehlCook.step in Es.
    apply bind_ok_inv in Es as (? & ? & Ep & Es). apply lift_ok_inv in Ep as [-> _].
    apply bind_ok_inv in Es as (m & ? & Em & Es). apply lift_ok_inv in Em as [-> Em].
    apply mod_ok_inv in Em as [_ ->].
    apply bind_ok_inv in Es as (s1 & t1 & Eev & Es).
    assert (R3 : refits t' = refits t1).
    { eapply emits_not_refit; [|exact Es]. unfold DiehlCook.next. emits_auto. }
    rewrite R3, filter_boundary_succ by assumption.
    change ((k mod DiehlCook.update_interval c =? 0) && (0 <? k))
      with (boundary (DiehlCook.update_interval c) k) in Eev.
    destruct (boundary (DiehlCook.update_interval c) k).
    + rewrite (dc_evaluate_refits _ _ _ _ _ _ _ Eev), IH.
      destruct (DiehlCook.train c); reflexivity.
    + injection Eev as <- _. rewrite IH, app_nil_r. reflexivity.
Qed.

(** X15. In a training run the classifier is fit again at every
    evaluation of the loop (the logistic regression refit, the labels of
    the neurons reassigned), and never after the loop: the last interval of
    a run is evaluated but not learned from.  A test run fits nothing. *)
Theorem X15_classifier_is_never_fit_on_the_last_interval
    fuel (lc : LogReg.config) (dc : DiehlCook.config)
    (lt dt : trace) ls labels' ds :
  LogReg.main fuel lc [] = (lt, Ok (ls, labels')) →
  DiehlCook.script dc [] = (dt, Ok ds) →
  refits lt =
    (if LogReg.train lc
     then filter (λ i, boundary (LogReg.update_interval lc) i = true)
            (Py.range (LogReg.n_examples lc))
     else [])
  ∧ refits dt =
      (if DiehlCook.train dc
       then filter (λ i, boundary (DiehlCook.update_interval dc) i = true)
              (Py.range (DiehlCook.n_examples dc))
       else [])
  ∧ (LogReg.n_examples lc ∉ refits lt)
  ∧ (DiehlCook.n_examples dc ∉ refits dt).
Proof.
  intros El Ed.
  assert (Rl : refits lt =
    (if LogReg.train lc
     then filter (λ i, boundary (LogReg.update_interval lc) i = true)
            (Py.range (LogReg.n_examples lc))
     else [])).
  { unfold LogReg.main in El.
    apply bind_ok_inv in El as ([s2 l2] & t2 & Ebc & El).
    assert (R2 : refits lt = refits t2).
    { eapply emits_not_refit; [|exact El]. emits_known. }
    rewrite R2. clear R2 El. rename Ebc into El. unfold LogReg.before_confusion in El.
    apply bind_ok_inv in El as ([[images labels] s1] & t1 & Eex & El).
    assert (Hn : 0 ≤ LogReg.n_examples lc).
    { pose proof Eex as Eex'. unfold LogReg.examples in Eex'.
      apply bind_ok_inv in Eex' as ([[? ?] ?] & ? & Es & _).
      apply lc_setup_inv in Es as (_ & Hn & _). exact Hn. }
    rewrite <- (lc_examples_refits _ _ _ _ _ _ _ Hn Eex).
    eapply emits_not_refit; [|exact El].
    unfold LogReg.final_flush, LogReg.report, LogReg.adjust_labels, LogReg.extend_body,
      LogReg.current_interval.
    emits_auto. }
  assert (Rd : refits dt =
    (if DiehlCook.train dc
     then filter (λ i, boundary (DiehlCook.update_interval dc) i = true)
            (Py.range (DiehlCook.n_examples dc))
     else [])).
  { unfold DiehlCook.script in Ed.
    apply bind_ok_inv in Ed as ([labels s1] & t1 & Eex & Ed).
    assert (Hn : 0 ≤ DiehlCook.n_examples dc).
    { destruct (Z.le_gt_cases 0 (DiehlCook.n_examples dc)) as [|Hneg]; [assumption|].
      exfalso. unfold DiehlCook.examples in Eex.
      apply bind_ok_inv in Eex as ([? s0] & t0 & Es & Eex).
      apply bind_ok_inv in Eex as (s2 & t3 & Eloop & Eex). injection Eex as <- <- <-.
      unfold DiehlCook.loop in Eloop. rewrite for_each_range_0 in Eloop by lia.
      injection Eloop as <- <-.
      apply dc_setup_inv in Es as (_ & _ & _ & _ & Hv & _).
      apply bind_ok_inv in Ed as (s3 & t4 & Eff & _).
      apply dc_final_flush_inv in Eff as (i0 & Hi0 & _). congruence. }
    rewrite <- (dc_examples_refits _ _ _ _ _ Hn Eex).
    eapply emits_not_refit; [|exact Ed].
    unfold DiehlCook.final_flush, DiehlCook.report. emits_auto. }
  split; [exact Rl|]. split; [exact Rd|]. split.
  - rewrite Rl. destruct (LogReg.train lc); [|apply not_elem_of_nil].
    intros Hin. apply list_elem_of_filter in Hin as [_ Hin].
    unfold Py.range in Hin. apply elem_of_seqZ in Hin. lia.
  - rewrite Rd. destruct (DiehlCook.train dc); [|apply not_elem_of_nil].
    intros Hin. apply list_elem_of_filter in Hin as [_ Hin].
    unfold Py.range in Hin. apply elem_of_seqZ in Hin. lia.
Qed.

End Refits.


(** ** The files of results *)

Section ResultsFiles.
Context `{Env}.

Lemma rows_app (t1 t2 : trace) :
  Results.rows (t1 ++ t2) = Results.rows t1 ++ Results.rows t2.
Proof. unfold Results.rows. apply omap_app. Qed.

Lemma rows_not_row (new : trace) : Forall Results.not_row new → Results.rows new = [].
Proof.
  induction 1 as [|e new He _ IH]; [reflexivity|].
  destruct e; simpl in *; try contradiction; exact IH.
Qed.

Lemma emits_not_row {A} (m : M A) (t t' : trace) r :
  emits Results.not_row m → m t = (t', r) → Results.rows t' = Results.rows t.
Proof.
  intros Hm E. destruct (Hm _ _ _ E) as (new & -> & F).
  rewrite rows_app, (rows_not_row _ F), app_nil_r. reflexivity.
Qed.

(** What writing a row does to the files. *)
Lemma write_row_spec header fs path row :
  Results.write_row header fs path row path =
    Some (default header (fs path) +:+ row +:+ Results.nl)
  ∧ ∀ p, p ≠ path → Results.write_row header fs path row p = fs p.
Proof.
  unfold Results.write_row, Results.write. split.
  - rewrite String.eqb_refl. destruct (fs path) as [old|] eqn:E.
    + rewrite E. reflexivity.
    + rewrite String.eqb_refl. reflexivity.
  - intros p Hp. apply String.eqb_neq in Hp. rewrite Hp.
    destruct (fs path); [reflexivity|]. rewrite Hp. reflexivity.
Qed.

Lemma columns_commas s : Results.columns s = S (Results.commas s).
Proof. induction s as [|a s IH]; simpl; [reflexivity|]. destruct (Ascii.eqb a ","); lia. Qed.

Lemma commas_app a b : Results.commas (a +:+ b) = (Results.commas a + Results.commas b)%nat.
Proof.
  induction a as [|x a IH]; simpl; [reflexivity|].
  change (String.append a b) with (a +:+ b). destruct (Ascii.eqb x ","); lia.
Qed.

(** The fields of a joined line: one per value, and one more for every
    comma inside a value. *)
Lemma columns_join (values : list string) :
  values ≠ [] →
  Results.columns (Py.join "," values) = (length values + Results.inner_commas values)%nat.
Proof.
  intros Hne. rewrite columns_commas. unfold Py.join.
  induction values as [|v values IH]; [congruence|].
  destruct values as [|w values]; [simpl; lia|].
  change (String.concat "," (v :: w :: values))
    with (v +:+ "," +:+ String.concat "," (w :: values)).
  rewrite !commas_app. specialize (IH ltac:(discriminate)).
  change (Results.commas ",") with 1%nat.
  change (Results.inner_commas (v :: w :: values))
    with (Results.commas v + Results.inner_commas (w :: values))%nat.
  simpl length in *. lia.
Qed.

(** The one row of a run of the logistic-regression driver. *)
Lemma lc_main_rows fuel c (t : trace) s labels' :
  LogReg.main fuel c [] = (t, Ok (s, labels')) →
  ∃ logreg,
    (∀ t0 : trace, lookup_key "logreg" (LogReg.curves s) t0 = (t0, Ok logreg))
    ∧ Results.rows t =
      [(LogReg.results_file c,
        Py.join "," ((str <$> (if LogReg.train c then LogReg.params c
                               else LogReg.test_params c))
                     ++ [mean_str logreg; std_str logreg]))].
Proof.
  unfold LogReg.main. intros E.
  apply bind_ok_inv in E as ([s2 l2] & tb & Ebc & E).
  assert (Rb : Results.rows t = Results.rows tb).
  { eapply emits_not_row; [|exact E]. emits_known. }
  apply bind_ok_inv in E as ([] & ? & _ & E). apply bind_ok_inv in E as ([] & ? & _ & E).
  injection E as _ <- _. rewrite Rb. clear Rb. rename Ebc into E.
  unfold LogReg.before_confusion in E.
  apply bind_ok_inv in E as ([[images labels] s1] & t1 & Eex & E).
  assert (R1 : Results.rows t1 = []).
  { eapply (emits_not_row _ [] t1); [|exact Eex].
    unfold LogReg.examples, LogReg.setup, LogReg.check_divisible, LogReg.provision,
      LogReg.load_data, LogReg.load_classifier, LogReg.buffers, LogReg.loop, LogReg.step,
      LogReg.evaluate, LogReg.checkpoint, LogReg.present, LogReg.retry_body,
      LogReg.record_spikes, LogReg.current_interval.
    emits_auto. }
  apply bind_ok_inv in E as (s3 & t2 & Eff & E).
  assert (R2 : Results.rows t2 = []).
  { rewrite <- R1. eapply emits_not_row; [|exact Eff].
    unfold LogReg.final_flush, LogReg.current_interval. emits_auto. }
  apply bind_ok_inv in E as ([] & t3 & Ecur & E).
  assert (R3 : Results.rows t3 = []).
  { rewrite <- R2. eapply emits_not_row; [|exact Ecur]. emits_auto. }
  apply bind_ok_inv in E as ([] & t4 & Erep & E).
  unfold LogReg.report in Erep.
  apply bind_ok_inv in Erep as (logreg & t5 & Ekey & Erep).
  unfold lookup_key in Ekey. apply read_ok_inv in Ekey as [-> Hkey].
  rewrite emit_eq in Erep. injection Erep as <-.
  assert (R5 : Results.rows tb = Results.rows (t3 ++ [EvCsv (LogReg.results_file c)
              (Py.join "," ((str <$> (if LogReg.train c then LogReg.params c
                                      else LogReg.test_params c))
                            ++ [mean_str logreg; std_str logreg]))])).
  { eapply emits_not_row; [|exact E].
    unfold LogReg.adjust_labels, LogReg.extend_body. emits_auto. }
  apply bind_ok_inv in E as (? & ? & _ & E). injection E as _ <- _.
  exists logreg. split; [|rewrite R5, rows_app, R3; reflexivity].
  intros t0. unfold lookup_key. rewrite Hkey. reflexivity.
Qed.

(** The one row of a run of the script. *)
Lemma dc_script_rows c (t : trace) s :
  DiehlCook.script c [] = (t, Ok s) →
  ∃ all proportion,
    (∀ t0 : trace, lookup_key "all" (DiehlCook.accuracy_ s) t0 = (t0, Ok all))
    ∧ (∀ t0 : trace,
         lookup_key "proportion" (DiehlCook.accuracy_ s) t0 = (t0, Ok proportion))
    ∧ Results.rows t =
      [(DiehlCook.results_file c,
        Py.join "," ((str <$> DiehlCook.params c)
                     ++ (if DiehlCook.train c then [max_str all; max_str proportion]
                         else [mean_str all; mean_str proportion])))].
Proof.
  unfold DiehlCook.script. intros E.
  apply bind_ok_inv in E as ([labels s1] & t1 & Eex & E).
  assert (R1 : Results.rows t1 = []).
  { eapply (emits_not_row _ [] t1); [|exact Eex].
    unfold DiehlCook.examples, DiehlCook.setup, DiehlCook.check_divisible,
      DiehlCook.provision, DiehlCook.freeze, DiehlCook.load_data,
      DiehlCook.load_classifier, DiehlCook.buffers, DiehlCook.loop, DiehlCook.step,
      DiehlCook.evaluate, DiehlCook.checkpoint, DiehlCook.next.
    emits_auto. }
  apply bind_ok_inv in E as (s2 & t2 & Eff & E).
  assert (R2 : Results.rows t2 = []).
  { rewrite <- R1. eapply emits_not_row; [|exact Eff].
    unfold DiehlCook.final_flush. emits_auto. }
  apply bind_ok_inv in E as ([] & t3 & Erep & E). injection E as <- <-.
  unfold DiehlCook.report in Erep.
  apply bind_ok_inv in Erep as (all & t5 & Ekey & Erep).
  unfold lookup_key in Ekey. apply read_ok_inv in Ekey as [-> Hall].
  apply bind_ok_inv in Erep as (proportion & t6 & Ekey & Erep).
  unfold lookup_key in Ekey. apply read_ok_inv in Ekey as [-> Hprop].
  rewrite emit_eq in Erep. injection Erep as <-.
  exists all, proportion.
  split; [intros t0; unfold lookup_key; rewrite Hall; reflexivity|].
  split; [intros t0; unfold lookup_key; rewrite Hprop; reflexivity|].
  rewrite rows_app, R2. reflexivity.
Qed.

(** X16. A run that returns appends exactly one line to the results file
    of its mode: the header is written first when the file does not exist,
    an existing file keeps its content, and no other file of results is
    touched.  The line is the comma-joined list of the parameters (with
    [n_test] in test mode only, for the driver) followed by two summaries
    of the accuracy curves of the final state: their mean and standard
    deviation for the driver, their maxima (training) or means (test) for
    the script.  It joins as many values as the header has columns, and
    has one more field for every comma inside a value, as the two of the
    [str] of a [kernel_size] given as a pair. *)
Theorem X16_a_run_appends_one_line_of_results :
  (∀ fuel (c : LogReg.config) (fs : Results.store) (t : trace) s labels',
     LogReg.main fuel c [] = (t, Ok (s, labels')) →
     ∃ logreg,
       (∀ t0 : trace, lookup_key "logreg" (LogReg.curves s) t0 = (t0, Ok logreg))
       ∧ let values :=
           (str <$> (if LogReg.train c then LogReg.params c else LogReg.test_params c))
           ++ [mean_str logreg; std_str logreg] in
         let header := Results.lc_header (LogReg.train c) in
         Results.rows t = [(LogReg.results_file c, Py.join "," values)]
         ∧ Results.after_run header t fs (LogReg.results_file c)
           = Some (default header (fs (LogReg.results_file c))
                   +:+ Py.join "," values +:+ Results.nl)
         ∧ (∀ p, p ≠ LogReg.results_file c → Results.after_run header t fs p = fs p)
         ∧ length values = Results.columns header
         ∧ Results.columns (Py.join "," values)
           = (Results.columns header + Results.inner_commas values)%nat)
  ∧ (∀ (c : DiehlCook.config) (fs : Results.store) (t : trace) s,
       DiehlCook.script c [] = (t, Ok s) →
       ∃ all proportion,
         (∀ t0 : trace, lookup_key "all" (DiehlCook.accuracy_ s) t0 = (t0, Ok all))
         ∧ (∀ t0 : trace,
              lookup_key "proportion" (DiehlCook.accuracy_ s) t0 = (t0, Ok proportion))
         ∧ let values :=
             (str <$> DiehlCook.params c)
             ++ (if DiehlCook.train c then [max_str all; max_str proportion]
                 else [mean_str all; mean_str proportion]) in
           Results.rows t = [(DiehlCook.results_file c, Py.join "," values)]
           ∧ Results.after_run Results.dc_header t fs (DiehlCook.results_file c)
             = Some (default Results.dc_header (fs (DiehlCook.results_file c))
                     +:+ Py.join "," values +:+ Results.nl)
           ∧ (∀ p, p ≠ DiehlCook.results_file c →
                Results.after_run Results.dc_header t fs p = fs p)
           ∧ length values = Results.columns Results.dc_header
           ∧ Results.columns (Py.join "," values)
             = (Results.columns Results.dc_header + Results.inner_commas values)%nat).
Proof.
  split.
  - intros fuel c fs t s labels' E.
    destruct (lc_main_rows _ _ _ _ _ E) as (logreg & Hkey & Hrows).
    exists logreg. split; [exact Hkey|]. cbn zeta.
    assert (Hlen : length ((str <$> (if LogReg.train c then LogReg.params c
                                      else LogReg.test_params c))
                           ++ [mean_str logreg; std_str logreg])
                   = Results.columns (Results.lc_header (LogReg.train c))).
    { rewrite length_app, length_fmap. destruct (LogReg.train c); vm_compute; reflexivity. }
    split; [exact Hrows|].
    split; [unfold Results.after_run; rewrite Hrows; apply write_row_spec|].
    split; [unfold Results.after_run; rewrite Hrows; apply write_row_spec|].
    split; [exact Hlen|].
    rewrite columns_join, Hlen; [reflexivity|]. destruct (LogReg.train c); discriminate.
  - intros c fs t s E.
    destruct (dc_script_rows _ _ _ E) as (all & proportion & Hall & Hprop & Hrows).
    exists all, proportion. split; [exact Hall|]. split; [exact Hprop|]. cbn zeta.
    assert (Hlen : length ((str <$> DiehlCook.params c)
                           ++ (if DiehlCook.train c then [max_str all; max_str proportion]
                               else [mean_str all; mean_str proportion]))
                   = Results.columns Results.dc_header).
    { rewrite length_app, length_fmap. destruct (DiehlCook.train c); vm_compute; reflexivity. }
    split; [exact Hrows|].
    split; [unfold Results.after_run; rewrite Hrows; apply write_row_spec|].
    split; [unfold Results.after_run; rewrite Hrows; apply write_row_spec|].
    split; [exact Hlen|].
    rewrite columns_join, Hlen; [reflexivity|]. discriminate.
Qed.

End ResultsFiles.

(** ** The small instance at work *)

Lemma toy_order : @AccOrder Toy.carriers Toy.env.
Proof.
  split; simpl.
  - intros x. apply Z.ltb_irrefl.
  - intros x y z Hxy Hyz. apply Z.ltb_lt in Hxy, Hyz. apply Z.ltb_lt. lia.
  - intros x y z Hxz. apply Z.ltb_lt in Hxz.
    destruct (Z.ltb_spec y x); [left; reflexivity|]. right. apply Z.ltb_lt. lia.
Qed.

Section Witnesses.
#[local] Existing Instance Toy.carriers.
#[local] Existing Instance Toy.env.

Lemma C1_witness :
  LogReg.update_interval (ToyRuns.lc true 5 2) ≠ 0
  ∧ DiehlCook.update_interval (ToyRuns.dc true 5 2) ≠ 0
  ∧ LogReg.main 3 (ToyRuns.lc true 5 2) [] = ([], Raise (AssertionError divisibility_message))
  ∧ DiehlCook.script (ToyRuns.dc true 5 2) [] = ([], Raise (AssertionError divisibility_message)).
Proof.
  assert (H1 : LogReg.update_interval (ToyRuns.lc true 5 2) ≠ 0) by (simpl; lia).
  assert (H2 : DiehlCook.update_interval (ToyRuns.dc true 5 2) ≠ 0) by (simpl; lia).
  destruct (C1_divisibility_checked_first 3 (ToyRuns.lc true 5 2) (ToyRuns.dc true 5 2) [] H1 H2)
    as (A & _ & C & _).
  split; [exact H1|]. split; [exact H2|]. split.
  - apply A. simpl. intros [[q Hq] _]. lia.
  - apply C. simpl. intros [[q Hq] _]. lia.
Defined.

(** A training run of the driver over four examples, two to an interval:
    the watermark after the evaluation at [2] is not below the one before
    it.  An evaluation of the script that finds the accuracy [100] above
    the watermark [0] writes the checkpoint. *)
Lemma C2_witness :
  (∃ tj tk imj imk lj lk sj sk bj bk,
     LogReg.examples 3 (ToyRuns.lc true 4 2) 2 [] = (tj, Ok (imj, lj, sj))
     ∧ LogReg.examples 3 (ToyRuns.lc true 4 2) 4 [] = (tk, Ok (imk, lk, sk))
     ∧ LogReg.best_accuracy sj = Some bj ∧ LogReg.best_accuracy sk = Some bk
     ∧ acc_gt bj bk = false)
  ∧ (let c := ToyRuns.dc true 4 2 in
     let s := DiehlCook.init c (dc_construct 100 (PyFloat 22) (PyFloat 50) (PyFloat 1))
                [] 0 [0; 24] in
     ∃ s' xs,
       latest (DiehlCook.accuracy_ s') xs
       ∧ exceeds xs 0
       ∧ DiehlCook.evaluate c [0; 3; 1; 2] 2 s [] =
           ([EvEvaluate 2; EvSaveNetwork (DiehlCook.network_file c);
             EvSaveAux DiehlCook.auxiliary_file; EvRefit 2], Ok s')).
Proof.
  pose proof (C2_watermark_never_decreases (order := toy_order)) as (A & _ & _ & _ & B & _).
  split.
  - do 8 eexists.
    destruct (A 3%nat (ToyRuns.lc true 4 2) 2 4 []
                _ _ _ _ _ _ _ _ eq_refl ltac:(lia)
                ltac:(vm_compute; reflexivity) ltac:(vm_compute; reflexivity))
      as (bj & bk & Hj & Hk & Hle).
    exists bj, bk. split; [vm_compute; reflexivity|]. split; [vm_compute; reflexivity|].
    split; [exact Hj|]. split; [exact Hk | exact Hle].
  - intros c s.
    destruct (B c [0; 3; 1; 2] 2 s 0 [] eq_refl eq_refl eq_refl)
      as (s' & xs & Hl & [(Hex & Eev & _)|(_ & Eev & _)]).
    + exists s', xs. split; [exact Hl|]. split; [exact Hex | exact Eev].
    + exfalso. vm_compute in Eev. discriminate Eev.
Defined.

Lemma C3_witness :
  [0; 3; 1; 2] ≠ []
  ∧ 0 < LogReg.update_interval (ToyRuns.lc true 8 2)
  ∧ LogReg.current_interval (ToyRuns.lc true 8 2) [0; 3; 1; 2] [5; 6; 7; 8; 9; 10; 11; 12] 4 []
    = ([], Ok ([1; 2], [11; 12])).
Proof.
  assert (H1 : [0; 3; 1; 2] ≠ ([] : list Z)) by discriminate.
  assert (H2 : 0 < LogReg.update_interval (ToyRuns.lc true 8 2)) by (simpl; lia).
  split; [exact H1|]. split; [exact H2|].
  destruct (C3_wrapped_interval_is_the_tail (ToyRuns.lc true 8 2) [0; 3; 1; 2]
              [5; 6; 7; 8; 9; 10; 11; 12] 4 [] H1 H2) as [A _].
  destruct (A eq_refl) as [E _]. exact E.
Defined.

Lemma C4_witness :
  let c := ToyRuns.lc true 4 2 in
  let net := lc_construct 4 (SInt 16) (STuple [2]) 25 (PyInt 250) (PyFloat 1) (PyFloat 1)
               (PyFloat 0) (PyFloat 0) (PyFloat 0) in
  let zero := [0; 0; 0; 0]%Q in
  LogReg.present 3 c [[[0; 0]; [0; 0]]%Q] 0 net [] =
    ([EvRun 0 zero; EvRun 0 (double zero); EvRun 0 (double (double zero));
      EvRun 0 (double (double (double zero)))],
     Ok (3, double (double (double zero)),
         lc_run (lc_run (lc_run (lc_run net zero 25) (double zero) 25)
                   (double (double zero)) 25) (double (double (double zero))) 25)).
Proof.
  intros c net zero.
  refine (proj1 (C4_three_retries_with_doubled_intensity 3 c [[[0; 0]; [0; 0]]%Q] 0 net []
                   [[0; 0]; [0; 0]]%Q _ _ _ _ _)).
  - lia.
  - reflexivity.
  - reflexivity.
  - reflexivity.
  - reflexivity.
Defined.

(** Three examples with two slots: the spikes of example [2] have
    replaced those of example [0] in slot [0], and slot [1] holds those of
    example [1]. *)
Lemma C5_witness :
  (∃ t0 images labels s0 t images' labels' s,
     LogReg.setup (ToyRuns.lc true 4 2) [] = (t0, Ok (images, labels, s0))
     ∧ LogReg.examples 3 (ToyRuns.lc true 4 2) 3 [] = (t, Ok (images', labels', s))
     ∧ buffer_of 2 3
         (lc_produced 25 (lc_images (ToyRuns.lc true 4 2)) (LogReg.network s0))
         (LogReg.spike_record s)
     ∧ records t = [(0, 0, 0); (1, 1, 60); (0, 2, 20)]
     ∧ LogReg.spike_record s = [20; 60])
  ∧ (∃ t0 labels s0 t labels' s,
       DiehlCook.setup (ToyRuns.dc true 4 2) [] = (t0, Ok (labels, s0))
       ∧ DiehlCook.examples (ToyRuns.dc true 4 2) 3 [] = (t, Ok (labels', s))
       ∧ buffer_of 2 3
           (dc_produced 350 (dc_images (ToyRuns.dc true 4 2)) (DiehlCook.network s0))
           (DiehlCook.spike_record s)
       ∧ records t = [(0, 0, 0); (1, 1, 24); (0, 2, 8)]
       ∧ DiehlCook.spike_record s = [8; 24]).
Proof.
  pose proof C5_circular_buffer_holds_latest_examples as [A B].
  split.
  - do 8 eexists.
    split; [vm_compute; reflexivity|]. split; [vm_compute; reflexivity|].
    destruct (A 3%nat (ToyRuns.lc true 4 2) 3 _ _ _ _ _ _ _ _ ltac:(lia)
                ltac:(vm_compute; reflexivity) ltac:(vm_compute; reflexivity)) as [Hb Hr].
    split; [exact Hb|]. split; [rewrite Hr|]; vm_compute; reflexivity.
  - do 6 eexists.
    split; [vm_compute; reflexivity|]. split; [vm_compute; reflexivity|].
    destruct (B (ToyRuns.dc true 4 2) 3 _ _ _ _ _ _ ltac:(lia)
                ltac:(vm_compute; reflexivity) ltac:(vm_compute; reflexivity)) as [Hb Hr].
    split; [exact Hb|]. split; [rewrite Hr|]; vm_compute; reflexivity.
Defined.

Lemma C6_witness :
  (∃ t s labels',
     LogReg.main 4 (ToyRuns.lc true 4 2) [] = (t, Ok (s, labels'))
     ∧ evaluations t = [2; 4]
     ∧ Forall (λ kv : string * list Z, Z.of_nat (length kv.2) = 2) (LogReg.curves s))
  ∧ (∃ t s,
       DiehlCook.script (ToyRuns.dc true 4 2) [] = (t, Ok s)
       ∧ evaluations t = [2; 4]
       ∧ Forall (λ kv : string * list Z, Z.of_nat (length kv.2) = 2) (DiehlCook.accuracy_ s)).
Proof.
  pose proof C6_curves_have_one_entry_per_interval as [A B].
  split.
  - do 3 eexists. split; [vm_compute; reflexivity|].
    destruct (A 4%nat (ToyRuns.lc true 4 2) _ _ _ ltac:(vm_compute; reflexivity))
      as (He & _ & Hc).
    split; [exact He | exact Hc].
  - do 2 eexists. split; [vm_compute; reflexivity|].
    destruct (B (ToyRuns.dc true 4 2) _ _ ltac:(vm_compute; reflexivity)) as (He & _ & Hc).
    split; [exact He | exact Hc].
Defined.


Lemma C8_witness :
  LogReg.params (ToyRuns.lc true 4 2) = LogReg.params (ToyRuns.lc false 4 2)
  ∧ DiehlCook.params (ToyRuns.dc true 4 2) = DiehlCook.params (ToyRuns.dc false 4 2)
  ∧ LogReg.network_file (ToyRuns.lc true 4 2) = LogReg.network_file (ToyRuns.lc false 4 2)
  ∧ DiehlCook.network_file (ToyRuns.dc true 4 2) = DiehlCook.network_file (ToyRuns.dc false 4 2).
Proof.
  assert (H1 : LogReg.params (ToyRuns.lc true 4 2) = LogReg.params (ToyRuns.lc false 4 2))
    by reflexivity.
  assert (H2 : DiehlCook.params (ToyRuns.dc true 4 2) = DiehlCook.params (ToyRuns.dc false 4 2))
    by reflexivity.
  destruct (C8_identity_is_a_function_of_the_parameters _ _ _ _ H1 H2)
    as ((_ & A & _) & (_ & B & _)).
  split; [exact H1|]. split; [exact H2|]. split; [exact A | exact B].
Defined.

(** A test run of the script: its labels are those of the training split
    and its examples the training images, of which the small instance has
    four, not those of the test split, of which it has two. *)
Lemma C9_witness :
  ∃ t labels s t' s',
    DiehlCook.examples (ToyRuns.dc false 4 2) 3 [] = (t, Ok (labels, s))
    ∧ labels = [0; 3; 1; 2]
    ∧ runs t = zip [0; 1; 2] (take 3 (dc_images (ToyRuns.dc false 4 2)))
    ∧ DiehlCook.script (ToyRuns.dc false 4 2) [] = (t', Ok s')
    ∧ loads t' = [TrainSplit].
Proof.
  pose proof (C9_diehl_cook_reads_training_split (ToyRuns.dc false 4 2))
    as (_ & _ & A & B & _).
  do 5 eexists. split; [vm_compute; reflexivity|].
  destruct (B 3 _ _ _ ltac:(lia) ltac:(vm_compute; reflexivity)) as [Hl Hr].
  split; [exact Hl|]. split; [exact Hr|].
  split; [vm_compute; reflexivity|].
  exact (A [] _ _ ltac:(vm_compute; reflexivity)).
Defined.


(** The evaluation after the loop decides otherwise than those of the
    loop.  A training run of the script over two examples ends
    with the accuracies [100] above the watermark [0], and has written no
    checkpoint; the same run of the driver has written the checkpoint, and
    its watermark is still [0]. *)
Lemma C2_final_evaluation_is_no_checkpoint_decision :
  (∃ t s xs,
     DiehlCook.script (ToyRuns.dc true 2 2) [] = (t, Ok s)
     ∧ latest (DiehlCook.accuracy_ s) xs
     ∧ DiehlCook.best_accuracy s = Some 0
     ∧ exceeds xs 0
     ∧ Forall not_save t)
  ∧ (∃ t s labels' xs,
       LogReg.main 8 (ToyRuns.lc true 2 2) [] = (t, Ok (s, labels'))
       ∧ latest (LogReg.curves s) xs
       ∧ LogReg.best_accuracy s = Some 0
       ∧ exceeds xs 0
       ∧ EvSaveNetwork (LogReg.network_file (ToyRuns.lc true 2 2)) ∈ t).
Proof.
  split.
  - eexists _, _, [100; 100]. split; [vm_compute; reflexivity|].
    split; [repeat constructor|]. split; [reflexivity|].
    split; [exists 100; split; [left | reflexivity]|].
    repeat constructor.
  - eexists _, _, _, [100]. split; [vm_compute; reflexivity|].
    split; [repeat constructor|]. split; [reflexivity|].
    split; [exists 100; split; [left | reflexivity]|].
    apply (list_elem_of_lookup_2 _ 11%nat). reflexivity.
Qed.


(** In test mode the Diehl and Cook script leaves a network without an
    update rule and with [LIFNodes] for layer ['Ae'], which has no
    adaptation constants to zero. *)
Lemma dc_test_network_is_not_zeroed :
  ∃ net,
    DiehlCook.provision (ToyRuns.dc false 2 2) [] =
      ([EvLoadNetwork (DiehlCook.network_file (ToyRuns.dc false 2 2))], Ok net)
    ∧ dc_update_rule net = NoRule
    ∧ dc_Ae net = LIFNodes 10 53
    ∧ ¬ dc_zeroed net.
Proof.
  eexists. split; [reflexivity|]. split; [reflexivity|]. split; [reflexivity|].
  intros [Hrule _]. discriminate Hrule.
Qed.

End Witnesses.

Section Normalising.
#[local] Existing Instance Toy.carriers.
#[local] Existing Instance ToyNorm.env.


End Normalising.


(** ** The further properties on the small instance *)

Section MoreWitnesses.
#[local] Existing Instance Toy.carriers.
#[local] Existing Instance Toy.env.

Lemma X1_witness :
  LogReg.main 3 (ToyRuns.lc true 4 0) [] = ([], Raise ZeroDivisionError)
  ∧ DiehlCook.script (ToyRuns.dc true 4 0) [] = ([], Raise ZeroDivisionError).
Proof.
  apply (X1_zero_update_interval_is_a_division_by_zero 3 (ToyRuns.lc true 4 0)
           (ToyRuns.dc true 4 0) []); reflexivity.
Defined.

Lemma X2_witness :
  LogReg.main 3 (ToyDisk.lc true 4 2 0) [] =
    ([EvSeed 0; EvBuildNetwork; EvLoadData TrainSplit], Raise ZeroDivisionError)
  ∧ DiehlCook.script (ToyDisk.dc true 4 2 0) [] =
    ([EvSeed 0; EvBuildNetwork; EvLoadData TrainSplit], Raise ZeroDivisionError).
Proof.
  edestruct X2_zero_progress_interval_fails_at_the_first_example
    with (fuel := 3%nat) (lc := ToyDisk.lc true 4 2 0) (dc := ToyDisk.dc true 4 2 0)
    as ((A & _) & (B & _)).
  - reflexivity.
  - vm_compute. reflexivity.
  - reflexivity.
  - vm_compute. reflexivity.
  - vm_compute. reflexivity.
  - vm_compute. reflexivity.
  - split; [exact A | exact B].
Defined.

Lemma X3_witness :
  LogReg.main 3 (ToyRuns.lc true 0 2) [] =
    ([EvSeed 0; EvBuildNetwork; EvLoadData TrainSplit], Raise (UnboundLocalError "i"))
  ∧ DiehlCook.script (ToyRuns.dc true 0 2) [] =
    ([EvSeed 0; EvBuildNetwork; EvLoadData TrainSplit], Raise (NameError "i")).
Proof.
  edestruct X3_no_examples_leaves_the_loop_variable_unbound
    with (fuel := 3%nat) (lc := ToyRuns.lc true 0 2) (dc := ToyRuns.dc true 0 2)
    as (A & B).
  - reflexivity.
  - reflexivity.
  - vm_compute. reflexivity.
  - vm_compute. reflexivity.
  - split; [exact A | exact B].
Defined.

Lemma X5_witness :
  ∃ t, DiehlCook.script (ToyRuns.dc true 6 2) [] = (t, Raise StopIteration)
       ∧ length (runs t) = 4%nat.
Proof.
  edestruct (X5_script_stops_when_the_images_run_out (ToyRuns.dc true 6 2))
    as (t & E & Hr & _).
  - vm_compute. reflexivity.
  - simpl. lia.
  - vm_compute. reflexivity.
  - exists t. split; [exact E|].
    apply (f_equal length) in Hr. rewrite length_fmap in Hr. rewrite Hr. reflexivity.
Defined.

Lemma X6_witness :
  ∃ t images labels s,
    LogReg.examples 3 (ToyRuns.lc false 4 2) 4 [] = (t, Ok (images, labels, s))
    ∧ images = lc_images (ToyRuns.lc false 4 2)
    ∧ length images = 2%nat
    ∧ ∃ retries : list nat,
        length retries = 4%nat
        ∧ runs t = concat (zip_with (presentations images) (Py.range 4) retries).
Proof.
  do 4 eexists. split; [vm_compute; reflexivity|].
  edestruct X6_examples_cycle_through_the_images
    with (fuel := 3%nat) (c := ToyRuns.lc false 4 2) (k := 4)
    as (Hi & _ & _ & retries & Hl & _ & Hr).
  - lia.
  - lia.
  - vm_compute. reflexivity.
  - split; [exact Hi|]. split; [reflexivity|].
    exists retries. split; [exact Hl | exact Hr].
Defined.

Lemma X7_witness :
  ∃ r : nat,
    (r ≤ 3)%nat
    ∧ LogReg.present 3 (ToyRuns.lc true 4 2) [Toy.centre 1] 0
        ToyDisk.frozen_net [] =
      ([] ++ (EvRun 0 <$> attempts (flatten (Toy.centre 1)) r),
       Ok (Z.of_nat r, Nat.iter r double (flatten (Toy.centre 1)),
           after 25 ToyDisk.frozen_net
             (attempts (flatten (Toy.centre 1)) r))).
Proof.
  assert (Hf : (3 ≤ 3)%nat) by lia.
  destruct (proj2 (X7_retries_stop_at_the_first_attempt_with_five_spikes 3
              (ToyRuns.lc true 4 2) [Toy.centre 1] 0
              ToyDisk.frozen_net [] Hf)
              (Toy.centre 1) eq_refl) as (r & Hr & E & _).
  exists r. split; [exact Hr | exact E].
Defined.

Lemma X8_witness :
  square 4 (Toy.centre 3)
  ∧ LogReg.crop_image 0 (Toy.centre 3) = []
  ∧ Z.of_nat (length (flatten (LogReg.crop_image 1 (Toy.centre 3)))) = 4.
Proof.
  assert (Hs : square 4 (Toy.centre 3)).
  { split; [reflexivity|]. repeat constructor. }
  destruct (X8_cropping_keeps_the_centre_and_a_zero_crop_nothing 4 1 (Toy.centre 3) Hs)
    as (A & _ & B).
  destruct B as (_ & B & _); [lia | lia |].
  split; [exact Hs|]. split; [exact A | exact B].
Defined.

Lemma X9_witness :
  ∃ lt lr dt dr,
    LogReg.main 3 (ToyRuns.lc false 2 2) [] = (lt, lr)
    ∧ DiehlCook.script (ToyRuns.dc false 2 2) [] = (dt, dr)
    ∧ Forall evaluation_only lt
    ∧ Forall evaluation_only dt.
Proof.
  do 4 eexists. split; [vm_compute; reflexivity|]. split; [vm_compute; reflexivity|].
  edestruct X9_test_runs_only_evaluate_and_training_starts_from_scratch
    with (fuel := 3%nat) (lc := ToyRuns.lc false 2 2) (dc := ToyRuns.dc false 2 2)
    as (A & _ & B & _).
  - vm_compute. reflexivity.
  - vm_compute. reflexivity.
  - split; [exact (proj1 (A eq_refl)) | exact (proj1 (B eq_refl))].
Defined.

Lemma X10_witness :
  ∃ t r, DiehlCook.script (ToyRuns.dc true 2 2) [] = (t, r) ∧ Forall not_save t.
Proof.
  do 2 eexists. split; [vm_compute; reflexivity|].
  edestruct X10_script_never_checkpoints_the_last_interval
    with (c := ToyRuns.dc true 2 2) as (A & _).
  - vm_compute. reflexivity.
  - apply A. change (2 ≤ 2). lia.
Defined.

Lemma X11_witness :
  ∃ t images labels s,
    LogReg.examples 3 (ToyRuns.lc true 4 2) 3 [] = (t, Ok (images, labels, s))
    ∧ LogReg.len (LogReg.full_spike_record s) = 4
    ∧ LogReg.full_spike_record s !! 3%nat = Some row_zero.
Proof.
  do 4 eexists. split; [vm_compute; reflexivity|].
  edestruct X11_cumulative_record_holds_every_example
    with (fuel := 3%nat) (c := ToyRuns.lc true 4 2) (k := 3)
    as (_ & A & _ & _ & B).
  - lia.
  - vm_compute. reflexivity.
  - split; [exact A|]. apply (B 3). change (3 ≤ 3 < 4). lia.
Defined.

Lemma X12_witness :
  ∃ t labels s,
    DiehlCook.examples (ToyRuns.dc false 4 2) 3 [] = (t, Ok (labels, s))
    ∧ labels = [0; 3; 1; 2]
    ∧ (λ r : Z * list Q, r.1) <$> runs t = [0; 1; 2].
Proof.
  do 3 eexists. split; [vm_compute; reflexivity|].
  edestruct X12_script_presents_each_training_image_once
    with (c := ToyRuns.dc false 4 2) (k := 3)
    as (_ & A & B & _).
  - lia.
  - vm_compute. reflexivity.
  - split; [exact A | exact B].
Defined.

Lemma X13_witness :
  ∃ t labels s,
    DiehlCook.examples (ToyRuns.dc true 4 2) 2 [] = (t, Ok (labels, s))
    ∧ Z.of_nat (length (Py.slice labels (Some (2 - 2)) (Some 2))) = 2
    ∧ Z.of_nat (length (DiehlCook.spike_record s)) = 2.
Proof.
  do 3 eexists. split; [vm_compute; reflexivity|].
  edestruct X13_script_evaluates_the_buffer_against_its_own_labels
    with (c := ToyRuns.dc true 4 2) (i := 2)
    as (A & B & _).
  - lia.
  - exists 1. reflexivity.
  - shelve.
  - vm_compute. reflexivity.
  - split; [exact A | exact B].
  Unshelve. change (2 ≤ 4). lia.
Defined.

Lemma X14_witness :
  ∃ t images labels s window rows,
    LogReg.examples 3 (ToyRuns.lc true 4 2) 2 [] = (t, Ok (images, labels, s))
    ∧ LogReg.current_interval (ToyRuns.lc true 4 2) labels (LogReg.full_spike_record s) 2 []
        = ([], Ok (window, rows))
    ∧ LogReg.len window = 2 ∧ LogReg.len rows = 2.
Proof.
  edestruct X14_driver_evaluates_the_interval_just_completed
    with (fuel := 3%nat) (c := ToyRuns.lc true 4 2) (i := 2) (t' := @nil event)
    as (window & rows & E & A & B & _).
  - lia.
  - exists 1. reflexivity.
  - shelve.
  - vm_compute. reflexivity.
  - do 6 eexists. split; [vm_compute; reflexivity|].
    split; [exact E|]. split; [exact A | exact B].
  Unshelve. left. vm_compute. reflexivity.
Defined.

Lemma X15_witness :
  ∃ lt ls ll dt ds,
    LogReg.main 4 (ToyRuns.lc true 4 2) [] = (lt, Ok (ls, ll))
    ∧ DiehlCook.script (ToyRuns.dc true 4 2) [] = (dt, Ok ds)
    ∧ refits lt = [2]
    ∧ refits dt = [2].
Proof.
  do 5 eexists. split; [vm_compute; reflexivity|]. split; [vm_compute; reflexivity|].
  edestruct X15_classifier_is_never_fit_on_the_last_interval
    with (fuel := 4%nat) (lc := ToyRuns.lc true 4 2) (dc := ToyRuns.dc true 4 2)
    as (A & B & _).
  - vm_compute. reflexivity.
  - vm_compute. reflexivity.
  - split; [exact A | exact B].
Defined.

(** The line of a training run of the driver: 19 values for the 19
    columns of the header, and 20 fields, the [str] of the stride [(2,)]
    having a comma of its own. *)
Lemma X16_witness :
  ∃ t s labels' logreg,
    let c := ToyRuns.lc true 4 2 in
    let values := (str <$> LogReg.params c) ++ [mean_str logreg; std_str logreg] in
    LogReg.main 4 c [] = (t, Ok (s, labels'))
    ∧ Results.after_run (Results.lc_header true) t (λ _, None) (LogReg.results_file c)
      = Some (Results.lc_header true +:+ Py.join "," values +:+ Results.nl)
    ∧ length values = 19%nat
    ∧ Results.columns (Py.join "," values) = 20%nat.
Proof.
  pose proof X16_a_run_appends_one_line_of_results as [A _].
  do 3 eexists.
  destruct (A 4%nat (ToyRuns.lc true 4 2) (λ _ : string, @None string) _ _ _
              ltac:(vm_compute; reflexivity))
    as (logreg & Hkey & Hrows & Hafter & _ & Hlen & Hcols).
  exists logreg. intros c values.
  split; [vm_compute; reflexivity|]. split; [exact Hafter|]. split; [exact Hlen|].
  specialize (Hkey []). vm_compute in Hkey. injection Hkey as <-.
  exact Hcols.
Defined.

End MoreWitnesses.

Section MissingFiles.
#[local] Existing Instance Toy.carriers.

(** A test run without the checkpoint of the network, for which
    [load_network] returns [None], and one with it and without the file of
    the classifier. *)
Lemma X4_witness :
  @LogReg.main _ (ToyDisk.env false) 3 (ToyDisk.lc false 2 2 10) [] =
    ([EvSeed 0; EvLoadNetwork (@LogReg.network_file _ (ToyDisk.env false) (ToyDisk.lc false 2 2 10))],
     Raise (AttributeError "connections"))
  ∧ @LogReg.main _ (ToyDisk.env true) 3 (ToyDisk.lc false 2 2 10) [] =
    ([EvSeed 0; EvLoadNetwork (@LogReg.network_file _ (ToyDisk.env true) (ToyDisk.lc false 2 2 10));
      EvLoadData TestSplit;
      EvLoadAux (@LogReg.auxiliary_file _ (ToyDisk.env true) (ToyDisk.lc false 2 2 10))],
     Raise (FileNotFoundError
              (@LogReg.auxiliary_file _ (ToyDisk.env true) (ToyDisk.lc false 2 2 10))))
  ∧ @DiehlCook.script _ (ToyDisk.env false) (ToyDisk.dc false 2 2 10) [] =
    ([EvSeed 0;
      EvLoadNetwork (@DiehlCook.network_file _ (ToyDisk.env false) (ToyDisk.dc false 2 2 10))],
     Raise (AttributeError "connections")).
Proof.
  assert (D : (2 | 2)) by (exists 1; reflexivity).
  assert (S0 : 0 ≤ 0 < 2 ^ 32) by (split; [lia | reflexivity]).
  assert (U : 0 < 2) by lia.
  split; [|split].
  - destruct (proj1 (@X4_test_mode_needs_the_checkpoint_files _ (ToyDisk.env false)) 3%nat
                (ToyDisk.lc false 2 2 10) eq_refl S0 U D D) as (_ & A & _).
    exact (A eq_refl).
  - destruct (proj1 (@X4_test_mode_needs_the_checkpoint_files _ (ToyDisk.env true)) 3%nat
                (ToyDisk.lc false 2 2 10) eq_refl S0 U D D) as (_ & _ & A).
    refine (A _ eq_refl _ _ _ eq_refl); vm_compute; discriminate.
  - destruct (proj2 (@X4_test_mode_needs_the_checkpoint_files _ (ToyDisk.env false))
                (ToyDisk.dc false 2 2 10) eq_refl S0 ltac:(vm_compute; discriminate) U D D)
      as (_ & A & _).
    exact (A eq_refl).
Defined.

End MissingFiles.

